(** * LikeLocker: the incremental fetch-cache-download engine of [main.go]

    A shallow embedding of the media fetcher ([MediaFetcher] and its
    methods) and the properties of its content cache, media retriever and
    feed walker.

    Conventions.
    - Go's [int] is modelled as [Z].  Every counter of the engine stays
      between 0 and the download limit or the length of a slice, so the
      64-bit wrap-around is never reached.
    - Go strings are byte strings: [string] with one [ascii] per byte.
    - [map[string]bool] is [gmap string bool]; reading an absent key gives
      [false], as in Go.
    - The outside world (feed API, HTTP, ffmpeg, the file system's
      failures, the iteration order of a Go map) is an [Env] whose answers
      may depend on the whole history of effects so far. *)

From Stdlib Require Import ZArith List String Ascii Lia Bool Permutation DecimalString.
From stdpp Require Import base option list gmap strings.

Import ListNotations.
Local Open Scope Z_scope.
Local Open Scope string_scope.

(** ** Byte strings *)

Definition bytes_of_string (s : string) : list Z :=
  List.map (fun c => Z.of_N (N_of_ascii c)) (list_ascii_of_string s).

Definition is_char (c d : ascii) : bool := Ascii.eqb c d.

(** [strings.HasPrefix] and [strings.Contains] *)
Fixpoint HasPrefix (s p : string) : bool :=
  match p, s with
  | EmptyString, _ => true
  | String _ _, EmptyString => false
  | String b p', String a s' => is_char a b && HasPrefix s' p'
  end.

Fixpoint Contains (s sub : string) : bool :=
  HasPrefix s sub ||
  match s with
  | EmptyString => false
  | String _ s' => Contains s' sub
  end.

(** [filepath.Ext] (Unix): walk back from the end of [path] until a path
    separator; the first dot met starts the extension. *)
Fixpoint Ext_scan (back : list ascii) (suffix : string) : string :=
  match back with
  | [] => ""
  | c :: back' =>
      if is_char c "/" then ""
      else if is_char c "." then String c suffix
      else Ext_scan back' (String c suffix)
  end.

Definition filepath_Ext (path : string) : string :=
  Ext_scan (List.rev (list_ascii_of_string path)) "".

(** [filepath.Join dir name] for a non-empty [dir] and a [name] without
    separators; the lexical cleaning of [dir] is not modelled. *)
Definition filepath_Join (dir name : string) : string := dir ++ "/" ++ name.

(** ** crypto/sha256 and encoding/hex *)

Module SHA256.

Definition mask32 : Z := 0xffffffff.
Definition u32 (x : Z) : Z := Z.land x mask32.
Definition add32 (x y : Z) : Z := u32 (x + y).
Definition not32 (x : Z) : Z := Z.lxor x mask32.

(** [bits.RotateLeft32 x (-n)] *)
Definition rotr (x n : Z) : Z :=
  Z.lor (Z.shiftr x n) (u32 (Z.shiftl x (32 - n))).

(** The integer cube root, found bit by bit from bit [n - 1] down. *)
Fixpoint cube_root_bits (n : nat) (x r : Z) : Z :=
  match n with
  | O => r
  | S n' =>
      let r' := r + 2 ^ Z.of_nat n' in
      cube_root_bits n' x (if (r' * r' * r' <=? x)%Z then r' else r)
  end.

Definition primes64 : list Z :=
  [ 2; 3; 5; 7; 11; 13; 17; 19; 23; 29; 31; 37; 41; 43; 47; 53;
    59; 61; 67; 71; 73; 79; 83; 89; 97; 101; 103; 107; 109; 113; 127; 131;
    137; 139; 149; 151; 157; 163; 167; 173; 179; 181; 191; 193; 197; 199; 211; 223;
    227; 229; 233; 239; 241; 251; 257; 263; 269; 271; 277; 281; 283; 293; 307; 311 ].

(** The round constants [_K]: the first 32 bits of the fractional parts
    of the cube roots of the first 64 primes. *)
Definition _K : list Z :=
  Eval vm_compute in
    List.map (fun p => u32 (cube_root_bits 36 (p * 2 ^ 96) 0)) primes64.

(** The initial hash value: the same of the square roots of the first 8
    primes. *)
Definition init : list Z :=
  Eval vm_compute in
    List.map (fun p => u32 (Z.sqrt (p * 2 ^ 64))) (List.firstn 8 primes64).

Definition at_ (l : list Z) (i : nat) : Z := List.nth i l 0.

(** Big-endian 32-bit words of one 64-byte chunk: [w[0..15]]. *)
Fixpoint be_words (p : list Z) : list Z :=
  match p with
  | b0 :: b1 :: b2 :: b3 :: p' =>
      Z.lor (Z.lor (Z.lor (Z.shiftl b0 24) (Z.shiftl b1 16)) (Z.shiftl b2 8)) b3
      :: be_words p'
  | _ => []
  end.

(** The schedule is kept newest first: [back] holds [w[i-1], w[i-2], ...],
    so [w[i-k]] is [at_ back (k-1)]. *)
Fixpoint schedule (n : nat) (back : list Z) : list Z :=
  match n with
  | O => back
  | S n' =>
      let v1 := at_ back 1 in
      let t1 := Z.lxor (Z.lxor (rotr v1 17) (rotr v1 19)) (Z.shiftr v1 10) in
      let v2 := at_ back 14 in
      let t2 := Z.lxor (Z.lxor (rotr v2 7) (rotr v2 18)) (Z.shiftr v2 3) in
      schedule n' (add32 (add32 (add32 t1 (at_ back 6)) t2) (at_ back 15) :: back)
  end.

Definition round (st : list Z) (kw : Z * Z) : list Z :=
  let a := at_ st 0 in let b := at_ st 1 in let c := at_ st 2 in
  let d := at_ st 3 in let e := at_ st 4 in let f := at_ st 5 in
  let g := at_ st 6 in let h := at_ st 7 in
  let t1 :=
    add32 (add32 (add32 (add32 h
      (Z.lxor (Z.lxor (rotr e 6) (rotr e 11)) (rotr e 25)))
      (Z.lxor (Z.land e f) (Z.land (not32 e) g))) (fst kw)) (snd kw) in
  let t2 :=
    add32 (Z.lxor (Z.lxor (rotr a 2) (rotr a 13)) (rotr a 22))
          (Z.lxor (Z.lxor (Z.land a b) (Z.land a c)) (Z.land b c)) in
  [ add32 t1 t2; a; b; c; add32 d t1; e; f; g ].

Definition block (h : list Z) (chunk : list Z) : list Z :=
  let w := List.rev (schedule 48 (List.rev (be_words chunk))) in
  let st := List.fold_left round (List.combine _K w) h in
  List.map (fun xy => add32 (fst xy) (snd xy)) (List.combine h st).

Fixpoint blocks (n : nat) (h : list Z) (p : list Z) : list Z :=
  match n with
  | O => h
  | S n' => blocks n' (block h (List.firstn 64 p)) (List.skipn 64 p)
  end.

Definition be_bytes (width : nat) (x : Z) : list Z :=
  List.map (fun i => Z.land (Z.shiftr x (8 * Z.of_nat i)) 0xff)
           (List.rev (List.seq 0 width)).

(** Padding: 0x80, zeros up to 56 mod 64, the bit length on 8 bytes. *)
Definition pad (msg : list Z) : list Z :=
  let len := Z.of_nat (List.length msg) in
  let zeros := Z.to_nat ((55 - len) mod 64) in
  msg ++ 0x80 :: List.repeat 0 zeros ++ be_bytes 8 (8 * len).

Definition Sum256 (msg : list Z) : list Z :=
  let p := pad msg in
  List.flat_map (be_bytes 4) (blocks (List.length p / 64) init p).

End SHA256.

Definition hex_digit (n : Z) : ascii :=
  List.nth (Z.to_nat n) (list_ascii_of_string "0123456789abcdef") "0"%char.

(** [hex.EncodeToString] *)
Fixpoint hex_EncodeToString (bs : list Z) : string :=
  match bs with
  | [] => ""
  | b :: bs' =>
      String (hex_digit (Z.shiftr b 4))
        (String (hex_digit (Z.land b 0x0f)) (hex_EncodeToString bs'))
  end.

(** [hex.EncodeToString(sha256.Sum256([]byte(url))[:])] *)
Definition cacheKey_of (url : string) : string :=
  hex_EncodeToString (SHA256.Sum256 (bytes_of_string url)).

(** ** Go string literals, [strconv] and [fmt] *)

(** The escapes used by the program's literals: [\n] and [\033]. *)
Fixpoint go (lit : string) : string :=
  match lit with
  | String "\" (String "n" rest) => String "010" (go rest)
  | String "\" (String "0" (String "3" (String "3" rest))) => String "027" (go rest)
  | String c rest => String c (go rest)
  | EmptyString => ""
  end.

Definition itoa (n : Z) : string := NilZero.string_of_int (Z.to_int n).

(** A Go [error] is [nil] or carries a message. *)
Definition error : Type := option string.

Inductive Arg : Type :=
| AStr (s : string)
| AInt (n : Z)
| AErr (e : string).

Definition show (a : Arg) : string :=
  match a with
  | AStr s => s
  | AInt n => itoa n
  | AErr e => e
  end.

(** [fmt.Sprintf] for the verbs the program uses ([%d %s %v %w]); every
    call site passes as many operands as its format has verbs. *)
Fixpoint Sprintf (format : string) (args : list Arg) : string :=
  match format with
  | String "%" (String verb rest) =>
      match args with
      | a :: args' => show a ++ Sprintf rest args'
      | [] => "%!" ++ String verb "(MISSING)" ++ Sprintf rest []
      end
  | String c rest => String c (Sprintf rest args)
  | EmptyString => ""
  end.

Definition Errorf (format : string) (args : list Arg) : error :=
  Some (Sprintf format args).

(** ** [bufio.ScanLines] and [strings.TrimSpace] *)

Definition dropCR (line : list ascii) : list ascii :=
  match List.rev line with
  | c :: back => if is_char c "013" then List.rev back else line
  | [] => line
  end.

(** [cur] is the current line, newest byte first. *)
Fixpoint scan_lines (data : list ascii) (cur : list ascii) : list string :=
  match data with
  | [] =>
      match cur with
      | [] => []
      | _ => [string_of_list_ascii (dropCR (List.rev cur))]
      end
  | c :: data' =>
      if is_char c "010"
      then string_of_list_ascii (dropCR (List.rev cur)) :: scan_lines data' []
      else scan_lines data' (c :: cur)
  end.

Definition ScanLines (content : string) : list string :=
  scan_lines (list_ascii_of_string content) [].

Definition asciiSpace (c : Z) : bool :=
  ((c =? 9) || (c =? 10) || (c =? 11) || (c =? 12) || (c =? 13) || (c =? 32))%Z.

Definition space_e2_80 (b : Z) : bool :=
  (((0x80 <=? b) && (b <=? 0x8a)) || (b =? 0xa8) || (b =? 0xa9) || (b =? 0xaf))%Z.

(** Width in bytes of the white-space rune ([unicode.IsSpace]) encoded at
    the front of [s]; 0 when [s] does not start with one. *)
Definition space_width (s : list Z) : nat :=
  match s with
  | [] => 0%nat
  | c :: r =>
      if asciiSpace c then 1%nat
      else match c, r with
           | 0xc2, b :: _ => if ((b =? 0x85) || (b =? 0xa0))%Z then 2%nat else 0%nat
           | 0xe1, 0x9a :: 0x80 :: _ => 3%nat
           | 0xe2, 0x80 :: b :: _ => if space_e2_80 b then 3%nat else 0%nat
           | 0xe2, 0x81 :: 0x9f :: _ => 3%nat
           | 0xe3, 0x80 :: 0x80 :: _ => 3%nat
           | _, _ => 0%nat
           end
  end.

(** The same for the rune that ends a string, given the bytes last first. *)
Definition space_width_back (back : list Z) : nat :=
  match back with
  | [] => 0%nat
  | c :: r =>
      if asciiSpace c then 1%nat
      else match r with
           | 0xc2 :: _ => if ((c =? 0x85) || (c =? 0xa0))%Z then 2%nat else 0%nat
           | 0x9a :: 0xe1 :: _ => if (c =? 0x80)%Z then 3%nat else 0%nat
           | 0x80 :: 0xe2 :: _ => if space_e2_80 c then 3%nat else 0%nat
           | 0x81 :: 0xe2 :: _ => if (c =? 0x9f)%Z then 3%nat else 0%nat
           | 0x80 :: 0xe3 :: _ => if (c =? 0x80)%Z then 3%nat else 0%nat
           | _ => 0%nat
           end
  end.

Fixpoint trim_with (width : list Z -> nat) (fuel : nat) (s : list Z) : list Z :=
  match fuel with
  | O => s
  | S fuel' =>
      match width s with
      | O => s
      | w => trim_with width fuel' (List.skipn w s)
      end
  end.

Definition string_of_bytes (bs : list Z) : string :=
  string_of_list_ascii (List.map (fun b => ascii_of_N (Z.to_N b)) bs).

Definition TrimSpace (s : string) : string :=
  let bs := bytes_of_string s in
  let left := trim_with space_width (List.length bs) bs in
  let right := trim_with space_width_back (List.length left) (List.rev left) in
  string_of_bytes (List.rev right).

(** ** The feed's data model (the [bsky] types the engine reads) *)

Record EmbedImages_ViewImage : Type := { Fullsize : string }.
Record EmbedImages_View : Type := { Images : list EmbedImages_ViewImage }.
Record EmbedVideo_View : Type := { Playlist : string }.

(** [EmbedRecordWithMedia_View_Media] *)
Record Media_View : Type := {
  Media_EmbedImages_View : option EmbedImages_View;
  Media_EmbedVideo_View : option EmbedVideo_View }.

Record EmbedRecordWithMedia_View : Type := { Media : option Media_View }.

(** [FeedDefs_PostView_Embed]: one pointer per shape, [nil] when absent. *)
Record PostView_Embed : Type := {
  Embed_EmbedImages_View : option EmbedImages_View;
  Embed_EmbedVideo_View : option EmbedVideo_View;
  Embed_EmbedRecordWithMedia_View : option EmbedRecordWithMedia_View }.

Record PostView : Type := { Uri : string; Embed : option PostView_Embed }.
Record FeedViewPost : Type := { Post : PostView }.

(** [FeedGetActorLikes_Output] *)
Record GetActorLikes_Output : Type := {
  Feed : list FeedViewPost;
  Cursor : option string }.

Record Response : Type := { StatusCode : Z; Status : string; Body : string }.

(** ** Effects, the outside world and the engine's state *)

Inductive Event : Type :=
| Printf (format : string) (args : list Arg)
| FeedGetActorLikes (actor cursor : string) (limit : Z)
| HttpGet (url : string)
| HttpPost (url contentType body : string)
| ExecRun (name : string) (args : list string)
| OsOpen (path : string)
| OsCreate (path : string)
| OsReadDir (path : string)
| Sleep (interval : Z).

Inductive Result (T : Type) : Type :=
| Ok (x : T)
| Err (e : string).
Arguments Ok {T} x.
Arguments Err {T} e.

(** A write to a file either completes or fails after some prefix. *)
Inductive WriteOutcome : Type :=
| Written
| WriteFailed (prefix : nat) (e : string).

(** What a subprocess leaves behind: its exit error and, when it wrote
    one, the content of its output file. *)
Record ExecOutcome : Type := { exec_err : error; exec_output : option string }.

(** The order in which [range] visits the keys of a map: some
    enumeration of the keys, each once. *)
Record RangeOrder : Type := {
  range_keys :> gmap string bool -> list string;
  range_keys_perm : forall m, Permutation (range_keys m) (List.map fst (map_to_list m)) }.

(** Every answer may depend on the history of effects so far. *)
Record Env : Type := {
  env_GetActorLikes : list Event -> string -> string -> Z -> Result GetActorLikes_Output;
  env_http_Get : list Event -> string -> Result Response;
  env_http_Post : list Event -> string -> string -> error;
  env_exec : list Event -> string -> list string -> ExecOutcome;
  (** failures of [os.Open] other than a missing file *)
  env_os_Open : list Event -> string -> error;
  (** [scanner.Err()]: a read error or a too long line after [n] lines *)
  env_scan : list Event -> string -> option (nat * string);
  env_os_Create : list Event -> string -> error;
  env_write : list Event -> string -> string -> WriteOutcome;
  env_ReadDir : list Event -> string -> error;
  env_range : list Event -> RangeOrder }.

Inductive DirEntry : Type :=
| File (content : string)
| Dir.

(** The [MediaFetcher] ([downloadDir], [cacheFile], [downloadedFiles])
    together with what it reads and writes: the cache file's content
    ([None] while the file does not exist), the direct entries of the
    download directory by name, and the effects so far, oldest first.
    The cache file is not itself an entry of the download directory. *)
Record State : Type := mkState {
  downloadDir : string;
  cacheFile : string;
  downloadedFiles : gmap string bool;
  listing : option string;
  storage : gmap string DirEntry;
  trace : list Event }.

Definition set_downloadedFiles (m : gmap string bool) (s : State) : State :=
  mkState (downloadDir s) (cacheFile s) m (listing s) (storage s) (trace s).
Definition set_listing (f : option string) (s : State) : State :=
  mkState (downloadDir s) (cacheFile s) (downloadedFiles s) f (storage s) (trace s).
Definition set_storage (d : gmap string DirEntry) (s : State) : State :=
  mkState (downloadDir s) (cacheFile s) (downloadedFiles s) (listing s) d (trace s).
Definition set_trace (t : list Event) (s : State) : State :=
  mkState (downloadDir s) (cacheFile s) (downloadedFiles s) (listing s) (storage s) t.

(** The state monad the methods run in. *)
Definition M (A : Type) : Type := State -> A * State.

Definition ret {A} (x : A) : M A := fun s => (x, s).
Definition bind {A B} (c : M A) (k : A -> M B) : M B :=
  fun s => let (x, s') := c s in k x s'.
Definition gets {A} (f : State -> A) : M A := fun s => (f s, s).
Definition modify (f : State -> State) : M unit := fun s => (tt, f s).

Notation "x <- c ;; k" := (bind c (fun x => k))
  (at level 20, c at level 99, k at level 200, only parsing).
Notation "' pat <- c ;; k" := (bind c (fun x => match x with pat => k end))
  (at level 20, pat pattern, c at level 99, k at level 200, only parsing).
Notation "c ;; k" := (bind c (fun _ => k))
  (at level 100, k at level 200, only parsing, right associativity).

Definition emit (e : Event) : M unit :=
  modify (fun s => set_trace (trace s ++ [e]) s).
Definition ask {A} (question : list Event -> A) : M A :=
  gets (fun s => question (trace s)).

Definition fmt_Printf (format : string) (args : list Arg) : M unit :=
  emit (Printf (go format) args).
Definition fmt_Print (text : string) : M unit :=
  emit (Printf "%s" [AStr (go text)]).
Definition fmt_Println (text : string) : M unit :=
  emit (Printf (go "%s\n") [AStr (go text)]).

(** [m[key]] on a [map[string]bool] *)
Definition index (m : gmap string bool) (key : string) : bool :=
  default false (m !! key).

Inductive Outcome : Type :=
| Returned (err : error)
| StillRunning.

Section Engine.

Variable env : Env.

(** *** Content cache *)

(** [for scanner.Scan() { ... }] of [loadCache] *)
Fixpoint loadCache_loop (lines : list string) (count : Z) : M Z :=
  match lines with
  | [] => ret count
  | line :: rest =>
      let filename := TrimSpace line in
      if String.eqb filename "" then loadCache_loop rest count
      else
        modify (fun s => set_downloadedFiles (<[filename := true]> (downloadedFiles s)) s) ;;
        loadCache_loop rest (count + 1)
  end.

Definition loadCache : M error :=
  path <- gets cacheFile ;;
  emit (OsOpen path) ;;
  open_err <- ask (fun h => env_os_Open env h path) ;;
  file <- gets listing ;;
  match open_err, file with
  | Some e, _ => ret (Some e)
  | None, None =>
      fmt_Println "No cache file found, starting fresh" ;;
      ret None
  | None, Some content =>
      scan_err <- ask (fun h => env_scan env h path) ;;
      let lines := ScanLines content in
      match scan_err with
      | Some (n, e) =>
          loadCache_loop (List.firstn n lines) 0 ;;
          ret (Some e)
      | None =>
          count <- loadCache_loop lines 0 ;;
          fmt_Printf "Cached %d files already downloaded\n" [AInt count] ;;
          ret None
      end
  end.

(** The text [saveCache] writes: every key followed by a newline. *)
Definition listing_text (keys : list string) : string :=
  String.concat "" (List.map (fun filename => filename ++ go "\n") keys).

Definition saveCache : M error :=
  path <- gets cacheFile ;;
  emit (OsCreate path) ;;
  create_err <- ask (fun h => env_os_Create env h path) ;;
  match create_err with
  | Some e => ret (Some e)
  | None =>
      modify (set_listing (Some "")) ;;
      keys <- (fun s => (range_keys (env_range env (trace s)) (downloadedFiles s), s)) ;;
      let text := listing_text keys in
      w <- ask (fun h => env_write env h path text) ;;
      match w with
      | Written => modify (set_listing (Some text)) ;; ret None
      | WriteFailed n e =>
          modify (set_listing (Some (substring 0 n text))) ;;
          ret (Some e)
      end
  end.

(** [for _, entry := range entries { ... }] of [syncCacheFromDirectory] *)
Fixpoint sync_loop (entries : list (string * DirEntry)) (added : Z) : M Z :=
  match entries with
  | [] => ret added
  | (_, Dir) :: rest => sync_loop rest added
  | (filename, File _) :: rest =>
      known <- gets (fun s => index (downloadedFiles s) filename) ;;
      if negb known then
        modify (fun s => set_downloadedFiles (<[filename := true]> (downloadedFiles s)) s) ;;
        sync_loop rest (added + 1)
      else sync_loop rest added
  end.

(** [os.ReadDir] returns the entries sorted by name; the loop over them
    is run here in the order of [map_to_list]. *)
Definition syncCacheFromDirectory : M error :=
  dir <- gets downloadDir ;;
  emit (OsReadDir dir) ;;
  read_err <- ask (fun h => env_ReadDir env h dir) ;;
  match read_err with
  | Some e => ret (Errorf "failed to read download directory: %w" [AErr e])
  | None =>
      entries <- gets (fun s => map_to_list (storage s)) ;;
      added <- sync_loop entries 0 ;;
      if (0 <? added)%Z then
        fmt_Printf "Synced %d files from directory to cache\n" [AInt added] ;;
        err <- saveCache ;;
        match err with
        | Some e => ret (Errorf "failed to save cache after sync: %w" [AErr e])
        | None => ret None
        end
      else ret None
  end.

Definition markDownloaded (filename : string) : M error :=
  modify (fun s => set_downloadedFiles (<[filename := true]> (downloadedFiles s)) s) ;;
  saveCache.

Definition isDownloaded (filename : string) : M bool :=
  gets (fun s => index (downloadedFiles s) filename).

(** The cache part of [NewMediaFetcher]: a fresh map, then [loadCache]
    and [syncCacheFromDirectory]. *)
Definition NewMediaFetcher_cache : M error :=
  modify (set_downloadedFiles ∅) ;;
  err <- loadCache ;;
  match err with
  | Some e => ret (Errorf "failed to load cache: %w" [AErr e])
  | None =>
      err <- syncCacheFromDirectory ;;
      match err with
      | Some e => ret (Errorf "failed to save cache after sync: %w" [AErr e])
      | None => ret None
      end
  end.

(** *** Media retriever *)

(** The extension and the file name [downloadFile] resolves. *)
Definition resolve_ext (url mediaType : string) : string :=
  let ext := filepath_Ext url in
  if String.eqb ext "" then
    if Contains url "m3u8" then ".m3u8"
    else if String.eqb mediaType "image" then ".png"
    else ".mp4"
  else ext.

Definition resolve_filename (url mediaType : string) : string :=
  cacheKey_of url ++ resolve_ext url mediaType.

(** [os.Create] of a file of the download directory: it fails on a
    directory of that name, and truncates otherwise. *)
Definition os_Create_media (path filename : string) : M error :=
  emit (OsCreate path) ;;
  entry <- gets (fun s => storage s !! filename) ;;
  match entry with
  | Some Dir => ret (Some ("open " ++ path ++ ": is a directory"))
  | _ =>
      create_err <- ask (fun h => env_os_Create env h path) ;;
      match create_err with
      | Some e => ret (Some e)
      | None =>
          modify (fun s => set_storage (<[filename := File ""]> (storage s)) s) ;;
          ret None
      end
  end.

(** [io.Copy(out, resp.Body)] *)
Definition io_Copy (path filename body : string) : M error :=
  w <- ask (fun h => env_write env h path body) ;;
  match w with
  | Written =>
      modify (fun s => set_storage (<[filename := File body]> (storage s)) s) ;;
      ret None
  | WriteFailed n e =>
      modify (fun s => set_storage (<[filename := File (substring 0 n body)]> (storage s)) s) ;;
      ret (Some e)
  end.

Definition downloadFile (url mediaType : string) : M (Z * error) :=
  let filename := resolve_filename url mediaType in
  dir <- gets downloadDir ;;
  let filepath := filepath_Join dir filename in
  hit <- isDownloaded filename ;;
  if hit then
    fmt_Printf "Cache hit: %s\n" [AStr filename] ;;
    ret (0, None)
  else
    fmt_Printf "Downloading: %s\n" [AStr url] ;;
    emit (HttpGet url) ;;
    r <- ask (fun h => env_http_Get env h url) ;;
    match r with
    | Err e => ret (0, Errorf "failed to download: %w" [AErr e])
    | Ok resp =>
        if negb (StatusCode resp =? 200)%Z then
          ret (0, Errorf "bad status: %s" [AStr (Status resp)])
        else
          err <- os_Create_media filepath filename ;;
          match err with
          | Some e => ret (0, Errorf "failed to create file: %w" [AErr e])
          | None =>
              err <- io_Copy filepath filename (Body resp) ;;
              match err with
              | Some e => ret (0, Errorf "failed to write file: %w" [AErr e])
              | None =>
                  err <- markDownloaded filename ;;
                  match err with
                  | Some e => fmt_Printf "Warning: failed to update cache: %v\n" [AErr e]
                  | None => ret tt
                  end ;;
                  fmt_Printf "Saved: %s\n" [AStr filename] ;;
                  ret (1, None)
              end
          end
    end.

Definition ffmpeg_args (playlist outputPath : string) : list string :=
  ["-i"; playlist; "-c"; "copy"; "-y"; outputPath].

Definition downloadVideo (video : EmbedVideo_View) : M (Z * error) :=
  if String.eqb (Playlist video) "" then ret (0, None)
  else
    let filename := cacheKey_of (Playlist video) ++ ".mp4" in
    dir <- gets downloadDir ;;
    let outputPath := filepath_Join dir filename in
    hit <- isDownloaded filename ;;
    if hit then
      fmt_Printf "Cache hit: %s\n" [AStr filename] ;;
      ret (0, None)
    else
      fmt_Printf "Downloading video via ffmpeg: %s\n" [AStr (Playlist video)] ;;
      emit (ExecRun "ffmpeg" (ffmpeg_args (Playlist video) outputPath)) ;;
      r <- ask (fun h => env_exec env h "ffmpeg" (ffmpeg_args (Playlist video) outputPath)) ;;
      match exec_output r with
      | Some content =>
          modify (fun s => set_storage (<[filename := File content]> (storage s)) s)
      | None => ret tt
      end ;;
      match exec_err r with
      | Some e => ret (0, Errorf "ffmpeg failed: %w" [AErr e])
      | None =>
          err <- markDownloaded filename ;;
          match err with
          | Some e => fmt_Printf "Warning: failed to update cache: %v\n" [AErr e]
          | None => ret tt
          end ;;
          fmt_Printf "Saved: %s\n" [AStr filename] ;;
          ret (1, None)
      end.

(** [for _, img := range images { ... }] of [downloadImages] *)
Fixpoint downloadImages_loop (images : list EmbedImages_ViewImage)
    (limit downloadCount : Z) : M (Z * error) :=
  match images with
  | [] => ret (downloadCount, None)
  | img :: rest =>
      if (downloadCount >=? limit)%Z then ret (downloadCount, None)
      else
        '(downloaded, err) <- downloadFile (Fullsize img) "image" ;;
        match err with
        | Some e => ret (downloadCount, Some e)
        | None => downloadImages_loop rest limit (downloadCount + downloaded)
        end
  end.

Definition downloadImages (images : list EmbedImages_ViewImage) (limit : Z)
    : M (Z * error) :=
  downloadImages_loop images limit 0.

(** *** Feed walker: backfill *)

Definition log_error (format : string) (err : error) : M unit :=
  match err with
  | Some e => fmt_Printf format [AErr e]
  | None => ret tt
  end.

(** [if X.EmbedImages_View != nil { ... }] *)
Definition fetch_images (view : option EmbedImages_View)
    (downloadLimit downloadCount : Z) : M Z :=
  match view with
  | Some v =>
      '(downloaded, err) <- downloadImages (Images v) (downloadLimit - downloadCount) ;;
      log_error "Error downloading images: %v\n" err ;;
      ret (downloadCount + downloaded)
  | None => ret downloadCount
  end.

(** [if X.EmbedVideo_View != nil && downloadCount < downloadLimit { ... }] *)
Definition fetch_video (view : option EmbedVideo_View)
    (downloadLimit downloadCount : Z) : M Z :=
  match view with
  | Some v =>
      if (downloadCount <? downloadLimit)%Z then
        '(downloaded, err) <- downloadVideo v ;;
        log_error "Error downloading video: %v\n" err ;;
        ret (downloadCount + downloaded)
      else ret downloadCount
  | None => ret downloadCount
  end.

(** [if embed.EmbedRecordWithMedia_View != nil && downloadCount < downloadLimit { ... }] *)
Definition fetch_record (view : option EmbedRecordWithMedia_View)
    (downloadLimit downloadCount : Z) : M Z :=
  match view with
  | Some v =>
      if (downloadCount <? downloadLimit)%Z then
        match Media v with
        | Some media =>
            downloadCount <- fetch_images (Media_EmbedImages_View media) downloadLimit downloadCount ;;
            fetch_video (Media_EmbedVideo_View media) downloadLimit downloadCount
        | None => ret downloadCount
        end
      else ret downloadCount
  | None => ret downloadCount
  end.

(** What the loop body does with a post's embed. *)
Definition fetch_embed (embed : PostView_Embed) (downloadLimit downloadCount : Z) : M Z :=
  downloadCount <- fetch_images (Embed_EmbedImages_View embed) downloadLimit downloadCount ;;
  downloadCount <- fetch_video (Embed_EmbedVideo_View embed) downloadLimit downloadCount ;;
  fetch_record (Embed_EmbedRecordWithMedia_View embed) downloadLimit downloadCount.

(** The progress line printed for every post. *)
Definition announce_post (postsProcessed downloadCount downloadLimit : Z) : M unit :=
  fmt_Print "\033[u\033[K" ;;
  fmt_Printf "Processing post %d (downloaded: %d/%d)\n"
    [AInt postsProcessed; AInt downloadCount; AInt downloadLimit].

(** [for _, post := range resp.Feed { ... }]: the flag tells that the
    loop ended by [return nil]; with it come [downloadCount] and
    [postsProcessed]. *)
Fixpoint fetch_posts (posts : list FeedViewPost)
    (downloadLimit downloadCount postsProcessed : Z) : M (bool * Z * Z) :=
  match posts with
  | [] => ret (false, downloadCount, postsProcessed)
  | post :: rest =>
      if (downloadCount >=? downloadLimit)%Z then
        fmt_Printf "\nReached download limit of %d files\n" [AInt downloadLimit] ;;
        fmt_Printf "Total files downloaded: %d\n" [AInt downloadCount] ;;
        ret (true, downloadCount, postsProcessed)
      else
        let postsProcessed := (postsProcessed + 1)%Z in
        announce_post postsProcessed downloadCount downloadLimit ;;
        match Embed (Post post) with
        | None => fetch_posts rest downloadLimit downloadCount postsProcessed
        | Some embed =>
            downloadCount <- fetch_embed embed downloadLimit downloadCount ;;
            fetch_posts rest downloadLimit downloadCount postsProcessed
        end
  end.

Definition fetch_done (downloadCount : Z) : M (Outcome * Z) :=
  fmt_Printf "\nTotal files downloaded: %d\n" [AInt downloadCount] ;;
  ret (Returned None, downloadCount).

(** [for downloadCount < downloadLimit { ... }]: [pages] bounds the
    number of feed pages requested; the result carries [downloadCount]. *)
Fixpoint fetch_pages (pages : nat) (actor : string) (batchSize downloadLimit : Z)
    (cursor : string) (downloadCount postsProcessed : Z) : M (Outcome * Z) :=
  if (downloadCount <? downloadLimit)%Z then
    match pages with
    | O => ret (StillRunning, downloadCount)
    | S pages' =>
        emit (FeedGetActorLikes actor cursor batchSize) ;;
        r <- ask (fun h => env_GetActorLikes env h actor cursor batchSize) ;;
        match r with
        | Err e => ret (Returned (Errorf "failed to fetch likes: %w" [AErr e]), downloadCount)
        | Ok resp =>
            match Feed resp with
            | [] => fetch_done downloadCount
            | _ =>
                '(returned, downloadCount, postsProcessed) <-
                  fetch_posts (Feed resp) downloadLimit downloadCount postsProcessed ;;
                if returned : bool then ret (Returned None, downloadCount)
                else
                  match Cursor resp with
                  | None => fetch_done downloadCount
                  | Some next =>
                      if String.eqb next "" then fetch_done downloadCount
                      else fetch_pages pages' actor batchSize downloadLimit next
                             downloadCount postsProcessed
                  end
            end
        end
    end
  else fetch_done downloadCount.

Definition FetchAndDownload (pages : nat) (actor : string) (batchSize downloadLimit : Z)
    : M (Outcome * Z) :=
  fmt_Print "\033[s" ;;
  fetch_pages pages actor batchSize downloadLimit "" 0 0.

(** *** Feed walker: watch mode *)

Definition notify (topic message : string) : M unit :=
  if String.eqb topic "" then ret tt
  else
    emit (HttpPost ("https://ntfy.sh/" ++ topic) "text/plain" message) ;;
    err <- ask (fun h => env_http_Post env h ("https://ntfy.sh/" ++ topic) message) ;;
    log_error "Warning: failed to send notification: %v\n" err.

(** [n, err := ...; downloaded += n], giving [downloaded] and [err]. *)
Definition post_step (c : M (Z * error)) (downloaded : Z) : M (Z * error) :=
  '(n, err) <- c ;;
  ret ((downloaded + n)%Z, err).

Definition post_images (view : option EmbedImages_View) (downloaded : Z) : M (Z * error) :=
  match view with
  | Some v => post_step (downloadImages (Images v) (Z.of_nat (List.length (Images v)))) downloaded
  | None => ret (downloaded, None)
  end.

Definition post_video (view : option EmbedVideo_View) (downloaded : Z) : M (Z * error) :=
  match view with
  | Some v => post_step (downloadVideo v) downloaded
  | None => ret (downloaded, None)
  end.

(** Run [k] unless the step before it returned an error. *)
Definition and_then (c : M (Z * error)) (k : Z -> M (Z * error)) : M (Z * error) :=
  '(downloaded, err) <- c ;;
  match err with
  | Some e => ret (downloaded, Some e)
  | None => k downloaded
  end.

Definition downloadPostMedia (embed : option PostView_Embed) : M (Z * error) :=
  match embed with
  | None => ret (0, None)
  | Some embed =>
      and_then (post_images (Embed_EmbedImages_View embed) 0) (fun downloaded =>
      and_then (post_video (Embed_EmbedVideo_View embed) downloaded) (fun downloaded =>
      match Embed_EmbedRecordWithMedia_View embed with
      | Some {| Media := Some media |} =>
          and_then (post_images (Media_EmbedImages_View media) downloaded) (fun downloaded =>
          and_then (post_video (Media_EmbedVideo_View media) downloaded) (fun downloaded =>
          ret (downloaded, None)))
      | _ => ret (downloaded, None)
      end))
  end.

(** The body of the poll loop for one post. *)
Definition watch_post (ntfyTopic : string) (post : FeedViewPost)
    (seen : gmap string bool) : M (gmap string bool) :=
  if index seen (Uri (Post post)) then ret seen
  else
    let seen := <[Uri (Post post) := true]> seen in
    fmt_Printf "New like: %s\n" [AStr (Uri (Post post))] ;;
    '(downloaded, err) <- downloadPostMedia (Embed (Post post)) ;;
    match err with
    | Some e => fmt_Printf "Error downloading media: %v\n" [AErr e]
    | None =>
        if (downloaded >? 0)%Z then
          fmt_Printf "Downloaded %d file(s)\n" [AInt downloaded] ;;
          notify ntfyTopic (Sprintf "Downloaded %d file(s) from new like" [AInt downloaded])
        else ret tt
    end ;;
    ret seen.

Fixpoint watch_posts (ntfyTopic : string) (posts : list FeedViewPost)
    (seen : gmap string bool) : M (gmap string bool) :=
  match posts with
  | [] => ret seen
  | post :: rest =>
      seen <- watch_post ntfyTopic post seen ;;
      watch_posts ntfyTopic rest seen
  end.

(** One turn of [for { time.Sleep(interval); ... }]. *)
Definition watch_cycle (actor : string) (interval : Z) (ntfyTopic : string)
    (seen : gmap string bool) : M (gmap string bool) :=
  emit (Sleep interval) ;;
  emit (FeedGetActorLikes actor "" 50) ;;
  r <- ask (fun h => env_GetActorLikes env h actor "" 50) ;;
  match r with
  | Err e =>
      fmt_Printf "Error fetching likes: %v\n" [AErr e] ;;
      ret seen
  | Ok resp => watch_posts ntfyTopic (Feed resp) seen
  end.

Fixpoint watch_loop (cycles : nat) (actor : string) (interval : Z) (ntfyTopic : string)
    (seen : gmap string bool) : M (gmap string bool) :=
  match cycles with
  | O => ret seen
  | S cycles' =>
      seen <- watch_cycle actor interval ntfyTopic seen ;;
      watch_loop cycles' actor interval ntfyTopic seen
  end.

(** [for _, post := range resp.Feed { seen[post.Post.Uri] = true }] *)
Definition seed_seen (posts : list FeedViewPost) : gmap string bool :=
  List.fold_left (fun seen post => <[Uri (Post post) := true]> seen) posts ∅.

(** [WatchLikes] for its first [cycles] polls; the loop itself never
    returns.  The seen-set is given back for inspection. *)
Definition WatchLikes (cycles : nat) (actor : string) (interval : Z) (ntfyTopic : string)
    : M (Outcome * gmap string bool) :=
  fmt_Println "Loading existing likes..." ;;
  emit (FeedGetActorLikes actor "" 50) ;;
  r <- ask (fun h => env_GetActorLikes env h actor "" 50) ;;
  match r with
  | Err e => ret (Returned (Errorf "failed to fetch initial likes: %w" [AErr e]), ∅)
  | Ok resp =>
      let seen := seed_seen (Feed resp) in
      fmt_Printf "Tracking %d existing likes. Watching for new ones...\n"
        [AInt (Z.of_nat (size seen))] ;;
      seen <- watch_loop cycles actor interval ntfyTopic seen ;;
      ret (StillRunning, seen)
  end.

End Engine.

(** ** Observations on a trace *)

(** A network request or a subprocess run. *)
Definition network_or_subprocess (e : Event) : bool :=
  match e with
  | FeedGetActorLikes _ _ _ | HttpGet _ | HttpPost _ _ _ | ExecRun _ _ => true
  | _ => false
  end.

Definition quiet (d : list Event) : Prop :=
  List.Forall (fun e => network_or_subprocess e = false) d.

(** The line both retrievers print after a new file was retrieved. *)
Definition is_saved (e : Event) : bool :=
  match e with
  | Printf format _ => String.eqb format (go "Saved: %s\n")
  | _ => false
  end.

Definition saved_count (t : list Event) : Z :=
  Z.of_nat (List.length (List.filter is_saved t)).

(** The items the poll loop announced as new, in order. *)
Definition new_like (e : Event) : list string :=
  match e with
  | Printf format [AStr uri] =>
      if String.eqb format (go "New like: %s\n") then [uri] else []
  | _ => []
  end.

Definition new_likes (t : list Event) : list string := List.flat_map new_like t.

(** Was [url] requested over HTTP? *)
Definition requested (url : string) (t : list Event) : bool :=
  List.existsb (fun e => match e with
                         | HttpGet u => String.eqb u url
                         | _ => false
                         end) t.

Definition is_notification (e : Event) : bool :=
  match e with
  | HttpPost _ _ _ => true
  | _ => false
  end.

Definition notifications (t : list Event) : list Event :=
  List.filter is_notification t.

Definition uris (posts : list FeedViewPost) : list string :=
  List.map (fun post => Uri (Post post)) posts.

(** The events a retrieval may emit. *)
Definition retrieval_format (format : string) : bool :=
  String.eqb format (go "Cache hit: %s\n")
  || String.eqb format (go "Downloading: %s\n")
  || String.eqb format (go "Downloading video via ffmpeg: %s\n")
  || String.eqb format (go "Warning: failed to update cache: %v\n")
  || String.eqb format (go "Saved: %s\n").

Definition retrieval_event (e : Event) : bool :=
  match e with
  | Printf format _ => retrieval_format format
  | HttpGet _ | ExecRun _ _ | OsCreate _ => true
  | _ => false
  end.

(** [s'] comes from [s] by a retrieval that saved [n] new files. *)
Definition Retrieval (n : Z) (s s' : State) : Prop :=
  exists d, trace s' = (trace s ++ d)%list
            /\ List.Forall (fun e => retrieval_event e = true) d
            /\ saved_count d = n.

(** The in-memory cache only gained entries from [m] to [m']. *)
Definition Grows (m m' : gmap string bool) : Prop :=
  dom m ⊆ dom m' /\ forall filename, index m filename = true -> index m' filename = true.

(** [text] lists exactly the keys of [m], each once, one per line. *)
Definition Lists (text : string) (m : gmap string bool) : Prop :=
  exists keys : list string,
    text = listing_text keys
    /\ List.NoDup keys
    /\ forall filename, List.In filename keys <-> filename ∈ dom m.

(** A file name that fits on a line of the cache file: no line feed in
    it and no carriage return at its end. *)
Definition one_line (filename : string) : bool :=
  List.forallb (fun c => negb (is_char c "010")) (list_ascii_of_string filename)
  && match List.rev (list_ascii_of_string filename) with
     | c :: _ => negb (is_char c "013")
     | [] => true
     end.

(** ** Sequences of cache operations *)

Inductive CacheOp : Type :=
| OpLoad
| OpReconcile
| OpContains (filename : string)
| OpRecord (filename : string).

Definition run_op (env : Env) (op : CacheOp) : M unit :=
  match op with
  | OpLoad => loadCache env ;; ret tt
  | OpReconcile => syncCacheFromDirectory env ;; ret tt
  | OpContains filename => isDownloaded filename ;; ret tt
  | OpRecord filename => markDownloaded env filename ;; ret tt
  end.

Fixpoint run_ops (env : Env) (ops : list CacheOp) : M unit :=
  match ops with
  | [] => ret tt
  | op :: rest => run_op env op ;; run_ops env rest
  end.

(** ** The URL path, as the specification words the extension rule

    The text of the extension rule speaks of the extension carried by the
    URL's path: the part of the URL after [scheme://authority] and before
    any [?query] or [#fragment]. *)

Fixpoint drop_until (c : ascii) (s : string) : string :=
  match s with
  | EmptyString => ""
  | String a s' => if is_char a c then s else drop_until c s'
  end.

Fixpoint take_until2 (c d : ascii) (s : string) : string :=
  match s with
  | EmptyString => ""
  | String a s' => if is_char a c || is_char a d then "" else String a (take_until2 c d s')
  end.

Fixpoint after_scheme (s : string) : string :=
  match s with
  | EmptyString => ""
  | String a s' => if HasPrefix s "://" then substring 3 (String.length s) s else after_scheme s'
  end.

(** A run of bytes without a dot or a separator. *)
Definition plain (t : string) : bool :=
  List.forallb (fun c => negb (is_char c ".") && negb (is_char c "/"))
               (list_ascii_of_string t).

Definition spec_url_path (url : string) : string :=
  take_until2 "?" "#" (drop_until "/" (after_scheme url)).

Definition spec_resolve_ext (url mediaType : string) : string :=
  let ext := filepath_Ext (spec_url_path url) in
  if String.eqb ext "" then
    if Contains url "m3u8" then ".m3u8"
    else if String.eqb mediaType "image" then ".png"
    else ".mp4"
  else ext.

(** ** Further observations on states and traces *)

(** The file names the retrievers reported as saved, in order. *)
Definition saved_name (e : Event) : list string :=
  match e with
  | Printf format [AStr filename] =>
      if String.eqb format (go "Saved: %s\n") then [filename] else []
  | _ => []
  end.

Definition saved_names (t : list Event) : list string := List.flat_map saved_name t.

(** Every key of the map carries [true]. *)
Definition AllTrue (m : gmap string bool) : Prop :=
  forall (key : string) (b : bool), m !! key = Some b -> b = true.

(** What every method of the fetcher keeps from [s] to [s']: the cache
    only grows and keeps its values true, no entry of the download
    directory disappears, the two paths stay, the trace is only extended,
    and each file name reported as saved is reported once, was not in the
    cache before and is in it after. *)
Definition Step (s s' : State) : Prop :=
  Grows (downloadedFiles s) (downloadedFiles s')
  /\ (AllTrue (downloadedFiles s) -> AllTrue (downloadedFiles s'))
  /\ dom (storage s) ⊆ dom (storage s')
  /\ downloadDir s' = downloadDir s
  /\ cacheFile s' = cacheFile s
  /\ exists d : list Event,
       trace s' = (trace s ++ d)%list
       /\ List.NoDup (saved_names d)
       /\ forall filename,
            List.In filename (saved_names d) ->
            index (downloadedFiles s) filename = false
            /\ index (downloadedFiles s') filename = true.

(** [c] keeps the relation [R] from every state. *)
Definition Keeps {A} (R : State -> State -> Prop) (c : M A) : Prop :=
  forall s, R s (snd (c s)).

(** The trace from [t] to [t'] makes no network request and runs no
    subprocess once [count] plus the files saved since [t] has reached
    [limit]. *)
Definition Budgeted (limit count : Z) (t t' : list Event) : Prop :=
  exists d : list Event,
    t' = (t ++ d)%list
    /\ forall d1 d2 : list Event,
         d = (d1 ++ d2)%list -> limit <= count + saved_count d1 -> quiet d2.

(** A name without a path separator. *)
Definition no_sep (name : string) : bool :=
  List.forallb (fun c => negb (is_char c "/")) (list_ascii_of_string name).

(** The file names of the media an embed refers to, in the order
    [downloadPostMedia] visits them; a video without a playlist has none. *)
Definition image_filenames (view : option EmbedImages_View) : list string :=
  match view with
  | Some v => List.map (fun img => resolve_filename (Fullsize img) "image") (Images v)
  | None => []
  end.

Definition video_filenames (view : option EmbedVideo_View) : list string :=
  match view with
  | Some v =>
      if String.eqb (Playlist v) "" then []
      else [(cacheKey_of (Playlist v) ++ ".mp4")%string]
  | None => []
  end.

Definition media_filenames (embed : PostView_Embed) : list string :=
  (image_filenames (Embed_EmbedImages_View embed)
   ++ video_filenames (Embed_EmbedVideo_View embed)
   ++ match Embed_EmbedRecordWithMedia_View embed with
      | Some {| Media := Some media |} =>
          image_filenames (Media_EmbedImages_View media)
          ++ video_filenames (Media_EmbedVideo_View media)
      | _ => []
      end)%list.

(** From [s] to [s'] the watcher announced the new items [ls] and sent
    the notifications [ns]: no more notifications than new items, none
    without a topic, each one posted to the topic's address. *)
Definition Watching (ntfyTopic : string) (s s' : State) : Prop :=
  exists (ns : list Event) (ls : list string),
    notifications (trace s') = (notifications (trace s) ++ ns)%list
    /\ new_likes (trace s') = (new_likes (trace s) ++ ls)%list
    /\ (List.length ns <= List.length ls)%nat
    /\ (ntfyTopic = "" -> ns = [])
    /\ List.Forall
         (fun e => exists body,
              e = HttpPost ("https://ntfy.sh/" ++ ntfyTopic)%string "text/plain" body) ns.

(** The state once a poll has slept and has asked for the feed. *)
Definition polled (actor : string) (interval : Z) (t : State) : State :=
  snd ((emit (Sleep interval) ;; emit (FeedGetActorLikes actor "" 50)) t).

(** The posts of a page that a poll finds new, in page order: those whose
    URI is neither in the seen-set nor earlier on the page. *)
Fixpoint novel (seen : gmap string bool) (posts : list FeedViewPost) : list FeedViewPost :=
  match posts with
  | [] => []
  | post :: rest =>
      if index seen (Uri (Post post)) then novel seen rest
      else post :: novel (<[Uri (Post post) := true]> seen) rest
  end.

(** What the poll loop does with an item it found new: announce it,
    retrieve its media, and report the outcome. *)
Definition process_like (env : Env) (ntfyTopic : string) (post : FeedViewPost) : M unit :=
  fmt_Printf "New like: %s\n" [AStr (Uri (Post post))] ;;
  '(downloaded, err) <- downloadPostMedia env (Embed (Post post)) ;;
  match err with
  | Some e => fmt_Printf "Error downloading media: %v\n" [AErr e]
  | None =>
      if (downloaded >? 0)%Z then
        fmt_Printf "Downloaded %d file(s)\n" [AInt downloaded] ;;
        notify env ntfyTopic (Sprintf "Downloaded %d file(s) from new like" [AInt downloaded])
      else ret tt
  end.

Fixpoint process_likes (env : Env) (ntfyTopic : string) (posts : list FeedViewPost) : M unit :=
  match posts with
  | [] => ret tt
  | post :: rest => process_like env ntfyTopic post ;; process_likes env ntfyTopic rest
  end.

(** The events that pace the watcher: its sleeps and its feed requests. *)
Definition is_pace (e : Event) : bool :=
  match e with
  | Sleep _ | FeedGetActorLikes _ _ _ => true
  | _ => false
  end.

Definition pacing (t : list Event) : list Event := List.filter is_pace t.

(** [k] polls: a sleep of [interval], then a request for the newest 50
    likes of [actor]. *)
Fixpoint polls (k : nat) (actor : string) (interval : Z) : list Event :=
  match k with
  | O => []
  | S k' => Sleep interval :: FeedGetActorLikes actor "" 50 :: polls k' actor interval
  end.

(** From [s] to [s'] nothing slept and nothing asked for the feed. *)
Definition Unpaced (s s' : State) : Prop := pacing (trace s') = pacing (trace s).

(** ** Concrete worlds for the examples *)

Definition key_order : RangeOrder :=
  {| range_keys := fun m => List.map fst (map_to_list m);
     range_keys_perm := fun m => Permutation_refl _ |}.

(** A world in which the file system and ffmpeg never fail. *)
Definition world (feed : list Event -> string -> Result GetActorLikes_Output)
    (get : string -> Result Response) : Env :=
  {| env_GetActorLikes := fun h _ cursor _ => feed h cursor;
     env_http_Get := fun _ url => get url;
     env_http_Post := fun _ _ _ => None;
     env_exec := fun _ _ _ => {| exec_err := None; exec_output := Some "mp4" |};
     env_os_Open := fun _ _ => None;
     env_scan := fun _ _ => None;
     env_os_Create := fun _ _ => None;
     env_write := fun _ _ _ => Written;
     env_ReadDir := fun _ _ => None;
     env_range := fun _ => key_order |}.

Definition ok_200 (body : string) : Result Response :=
  Ok {| StatusCode := 200; Status := "200 OK"; Body := body |}.
Definition not_found : Result Response :=
  Ok {| StatusCode := 404; Status := "404 Not Found"; Body := "" |}.

Definition image_post (uri : string) (urls : list string) : FeedViewPost :=
  {| Post := {| Uri := uri;
                Embed := Some {| Embed_EmbedImages_View :=
                                   Some {| Images := List.map (fun u => {| Fullsize := u |}) urls |};
                                 Embed_EmbedVideo_View := None;
                                 Embed_EmbedRecordWithMedia_View := None |} |} |}.

Definition bare_post (uri : string) : FeedViewPost :=
  {| Post := {| Uri := uri; Embed := None |} |}.

Definition one_page (posts : list FeedViewPost) : Result GetActorLikes_Output :=
  Ok {| Feed := posts; Cursor := None |}.

Definition fresh : State :=
  {| downloadDir := "./downloaded_files";
     cacheFile := "./downloaded_cache.txt";
     downloadedFiles := ∅;
     listing := None;
     storage := ∅;
     trace := [] |}.


(** The end-to-end scenario: two items with two images each, everything
    retrievable. *)
Definition two_posts : list FeedViewPost :=
  [ image_post "at://a" ["https://x/a.png"; "https://x/b.png"];
    image_post "at://b" ["https://x/c"; "https://x/d.png"] ].

Definition calm : Env :=
  world (fun _ _ => one_page two_posts) (fun _ => ok_200 "img").

(** The first image of the first item answers 404. *)
Definition flaky_get (url : string) : Result Response :=
  if String.eqb url "https://x/a.png" then not_found else ok_200 "img".

Definition flaky : Env := world (fun _ _ => one_page two_posts) flaky_get.

Definition flaky_embed : PostView_Embed :=
  {| Embed_EmbedImages_View :=
       Some {| Images := [{| Fullsize := "https://x/a.png" |}; {| Fullsize := "https://x/b.png" |}] |};
     Embed_EmbedVideo_View := None;
     Embed_EmbedRecordWithMedia_View := None |}.

(** A watcher whose baseline is empty and whose polls see one item with
    two images, the second of which answers 404. *)
Definition slept (h : list Event) : bool :=
  List.existsb (fun e => match e with Sleep _ => true | _ => false end) h.

Definition late_get (url : string) : Result Response :=
  if String.eqb url "https://x/b.png" then not_found else ok_200 "img".

Definition new_post : FeedViewPost :=
  image_post "at://new" ["https://x/a.png"; "https://x/b.png"].

Definition late : Env :=
  world (fun h _ => if slept h then one_page [new_post] else one_page []) late_get.

Definition announced_new : State :=
  set_trace [Printf (go "New like: %s\n") [AStr "at://new"]] fresh.

(** The pages of the novelty example: [a b c] when the watcher starts,
    [b c d] at every poll, where [d] carries an image. *)
Definition page0 : list FeedViewPost := [bare_post "a"; bare_post "b"; bare_post "c"].
Definition page1 : list FeedViewPost :=
  [bare_post "b"; bare_post "c"; image_post "d" ["https://x/d.png"]].
Definition changing : Env :=
  world (fun h _ => if slept h then one_page page1 else one_page page0)
        (fun _ => ok_200 "img").

(** A download directory that holds one file, and no cache file. *)
Definition lost_listing : State :=
  set_storage (<["abc123.png" := File "png"]> ∅) fresh.

(** A cache that already has the file of one URL. *)
Definition warm : State :=
  set_downloadedFiles
    (<[resolve_filename "https://x/a.png" "image" := true]>
       (<[(cacheKey_of "https://x/v.m3u8" ++ ".mp4")%string := true]> ∅)) fresh.

(** A world whose ffmpeg leaves a partial file behind and fails. *)
Definition broken_ffmpeg : Env :=
  {| env_GetActorLikes := env_GetActorLikes calm;
     env_http_Get := env_http_Get calm;
     env_http_Post := env_http_Post calm;
     env_exec := fun _ _ _ => {| exec_err := Some "exit status 1"; exec_output := Some "mp" |};
     env_os_Open := env_os_Open calm;
     env_scan := env_scan calm;
     env_os_Create := env_os_Create calm;
     env_write := env_write calm;
     env_ReadDir := env_ReadDir calm;
     env_range := env_range calm |}.

Definition clip : EmbedVideo_View := {| Playlist := "https://x/v.m3u8" |}.

(** A world whose first [os.Create] fails and whose later ones succeed. *)
Definition creations (h : list Event) : nat :=
  List.length (List.filter (fun e => match e with OsCreate _ => true | _ => false end) h).

Definition full_once : Env :=
  {| env_GetActorLikes := env_GetActorLikes calm;
     env_http_Get := env_http_Get calm;
     env_http_Post := env_http_Post calm;
     env_exec := env_exec calm;
     env_os_Open := env_os_Open calm;
     env_scan := env_scan calm;
     env_os_Create :=
       fun h _ => if Nat.eqb (creations h) 1 then Some "no space left on device" else None;
     env_write := env_write calm;
     env_ReadDir := env_ReadDir calm;
     env_range := env_range calm |}.

(** A world whose feed cannot be reached. *)
Definition offline : Env := world (fun _ _ => Err "timeout") (fun _ => ok_200 "img").

(** A download directory that holds a truncated file under the name of
    an image URL, and no cache file. *)
Definition leftover : State :=
  set_storage (<[resolve_filename "https://x/a.png" "image" := File "PN"]> ∅) fresh.

(** A cache file with white space around a name and an empty line. *)
Definition listed : State := set_listing (Some (go "  abc123.png \n\nclip.mp4\n")) fresh.

(** A cache of one file; the same with a directory that holds that file
    and a subdirectory. *)
Definition one_cached : State := set_downloadedFiles (<["abc123.png" := true]> ∅) fresh.

Definition in_sync : State :=
  set_storage (<["abc123.png" := File "png"]> (<["thumbs" := Dir]> ∅)) one_cached.

(** * Properties *)

Local Open Scope list_scope.

(** ** The library functions on known values *)

Example sha256_empty :
  cacheKey_of "" = "e3b0c44298fc1c149afbf4c8996fb92427ae41e4649b934ca495991b7852b855".
Proof. vm_compute. reflexivity. Qed.

Example sha256_abc :
  cacheKey_of "abc" = "ba7816bf8f01cfea414140de5dae2223b00361a396177a9cb410ff61f20015ad".
Proof. vm_compute. reflexivity. Qed.

Example sha256_two_blocks :
  cacheKey_of "aaaaaaaaaaaaaaaaaaaaaaaaaaaaaaaaaaaaaaaaaaaaaaaaaaaaaaaa" =
  "b35439a4ac6f0948b6d6f9e3c6af0f5f590ce20f1bde7090ef7970686ec6738a".
Proof. vm_compute. reflexivity. Qed.

Example sha256_constants :
  List.firstn 4 SHA256._K = [0x428a2f98; 0x71374491; 0xb5c0fbcf; 0xe9b5dba5]
  /\ List.nth 63 SHA256._K 0 = 0xc67178f2
  /\ List.firstn 2 SHA256.init = [0x6a09e667; 0xbb67ae85]
  /\ List.nth 7 SHA256.init 0 = 0x5be0cd19.
Proof. vm_compute. repeat split; reflexivity. Qed.

Example Ext_png : filepath_Ext "https://cdn.example/a.png" = ".png".
Proof. reflexivity. Qed.

Example Ext_none : filepath_Ext "https://cdn.example/img/plain/did:plc:xyz/bafkrei@jpeg" = "".
Proof. reflexivity. Qed.

Example Sprintf_downloaded :
  Sprintf "Downloaded %d file(s) from new like" [AInt 2] = "Downloaded 2 file(s) from new like".
Proof. reflexivity. Qed.

Example ScanLines_ex :
  ScanLines ("a.png" ++ String "013" (go "\n\n  b.mp4 \nc")) = ["a.png"; ""; "  b.mp4 "; "c"].
Proof. reflexivity. Qed.

Example TrimSpace_ex : TrimSpace (go " \n a b \n") = "a b".
Proof. reflexivity. Qed.

(** ** Traces *)

Lemma saved_count_app (t d : list Event) :
  saved_count (t ++ d) = saved_count t + saved_count d.
Proof.
  unfold saved_count. rewrite List.filter_app, List.length_app. lia.
Qed.

Lemma saved_count_one (e : Event) :
  saved_count [e] = if is_saved e then 1 else 0.
Proof. unfold saved_count. simpl. destruct (is_saved e); reflexivity. Qed.

Lemma saved_count_nonneg (t : list Event) : 0 <= saved_count t.
Proof. unfold saved_count. lia. Qed.

Lemma new_likes_app (t d : list Event) :
  new_likes (t ++ d) = (new_likes t ++ new_likes d)%list.
Proof. unfold new_likes. apply List.flat_map_app. Qed.

Lemma quiet_app (d1 d2 : list Event) : quiet d1 -> quiet d2 -> quiet (d1 ++ d2).
Proof. unfold quiet. intros H1 H2. apply List.Forall_app. split; assumption. Qed.

Lemma retrieval_event_not_new_like (e : Event) :
  retrieval_event e = true -> new_like e = [].
Proof.
  destruct e as [format args| | | | | | | |]; simpl; try discriminate; try reflexivity.
  unfold retrieval_format. intros H.
  destruct args as [|[uri| |] [|]]; try reflexivity.
  match goal with
  | |- (if ?b then _ else _) = _ => destruct b eqn:E; [|reflexivity]
  end.
  apply String.eqb_eq in E. subst format. discriminate H.
Qed.

Lemma retrieval_events_no_new_likes (d : list Event) :
  List.Forall (fun e => retrieval_event e = true) d -> new_likes d = [].
Proof.
  induction 1 as [|e d He _ IH]; [reflexivity|].
  unfold new_likes in *. simpl. rewrite IH, (retrieval_event_not_new_like e He). reflexivity.
Qed.

Lemma retrieval_events_no_notification (d : list Event) :
  List.Forall (fun e => retrieval_event e = true) d ->
  List.Forall (fun e => is_notification e = false) d.
Proof.
  apply List.Forall_impl. intros [] H; try reflexivity; discriminate H.
Qed.

Lemma Retrieval_refl (s : State) : Retrieval 0 s s.
Proof. exists []. rewrite List.app_nil_r. repeat split. constructor. Qed.

Lemma Retrieval_trans (n m : Z) (s1 s2 s3 : State) :
  Retrieval n s1 s2 -> Retrieval m s2 s3 -> Retrieval (n + m) s1 s3.
Proof.
  intros (d1 & E1 & F1 & C1) (d2 & E2 & F2 & C2).
  exists (d1 ++ d2). rewrite E2, E1, <- List.app_assoc. split; [reflexivity|].
  split; [apply List.Forall_app; split; assumption|].
  rewrite saved_count_app. lia.
Qed.

(** ** Running the methods *)

(** Unfold the monad and the primitive actions. *)
Ltac unfold_m :=
  unfold announce_post, log_error, isDownloaded in *;
  unfold fmt_Printf, fmt_Print, fmt_Println in *;
  unfold emit, ask, gets, modify, bind, ret in *.

(** Split on the next thing the run in [H] depends on. *)
Ltac split_run H :=
  match type of H with
  | context [match ?x with _ => _ end] =>
      lazymatch x with
      | context [match _ with _ => _ end] => fail
      | _ => destruct x eqn:?
      end
  end; simpl in H.

(** Close a [Retrieval] goal whose trace is spelled out. *)
Ltac solve_retrieval :=
  first
    [ apply Retrieval_refl
    | unfold Retrieval; simpl;
      repeat match goal with
             | E : trace _ = _ |- _ => rewrite E; clear E; simpl
             end;
      rewrite <- ?List.app_assoc; simpl;
      eexists; split; [reflexivity|];
      split; [repeat constructor | reflexivity] ].

Ltac leaf H := inversion H; subst; clear H.

#[local] Arguments saveCache : simpl never.
#[local] Arguments markDownloaded : simpl never.
#[local] Arguments resolve_filename : simpl never.
#[local] Arguments cacheKey_of : simpl never.
#[local] Arguments filepath_Join : simpl never.
#[local] Arguments downloadFile : simpl never.
#[local] Arguments downloadVideo : simpl never.
#[local] Arguments downloadImages : simpl never.
#[local] Arguments fetch_images : simpl never.
#[local] Arguments fetch_video : simpl never.
#[local] Arguments fetch_record : simpl never.
#[local] Arguments fetch_embed : simpl never.
#[local] Arguments downloadPostMedia : simpl never.
#[local] Arguments Sprintf : simpl never.

Section Runs.

Variable env : Env.

Lemma saveCache_trace (s s' : State) (err : error) :
  saveCache env s = (err, s') ->
  trace s' = (trace s ++ [OsCreate (cacheFile s)])%list
  /\ downloadedFiles s' = downloadedFiles s
  /\ storage s' = storage s.
Proof.
  unfold saveCache. unfold_m. simpl. intros H.
  repeat split_run H; leaf H; auto.
Qed.

Lemma markDownloaded_trace (filename : string) (s s' : State) (err : error) :
  markDownloaded env filename s = (err, s') ->
  trace s' = (trace s ++ [OsCreate (cacheFile s)])%list
  /\ downloadedFiles s' = <[filename := true]> (downloadedFiles s)
  /\ storage s' = storage s.
Proof.
  unfold markDownloaded. unfold_m. intros H.
  apply saveCache_trace in H. simpl in H. exact H.
Qed.

Lemma downloadFile_run (url mediaType : string) (s s' : State) (n : Z) (err : error) :
  downloadFile env url mediaType s = ((n, err), s') ->
  Retrieval n s s' /\ (n = 0 \/ (n = 1 /\ err = None)).
Proof.
  unfold downloadFile, os_Create_media, io_Copy. unfold_m. simpl. intros H.
  repeat split_run H.
  all: try match goal with
       | E : markDownloaded _ _ _ = _ |- _ =>
           apply markDownloaded_trace in E; simpl in E; destruct E as (Et & _ & _)
       end.
  all: leaf H.
  all: split; [solve_retrieval|auto].
Qed.

Lemma downloadVideo_run (video : EmbedVideo_View) (s s' : State) (n : Z) (err : error) :
  downloadVideo env video s = ((n, err), s') ->
  Retrieval n s s' /\ (n = 0 \/ (n = 1 /\ err = None)).
Proof.
  unfold downloadVideo. unfold_m. simpl. intros H.
  repeat split_run H.
  all: try match goal with
       | E : markDownloaded _ _ _ = _ |- _ =>
           apply markDownloaded_trace in E; simpl in E; destruct E as (Et & _ & _)
       end.
  all: leaf H.
  all: split; [solve_retrieval|auto].
Qed.

(** The loop over an image set never passes its limit and counts
    exactly the files it saved. *)
Lemma downloadImages_loop_run (images : list EmbedImages_ViewImage) :
  forall (limit c : Z) (s s' : State) (n : Z) (err : error),
    downloadImages_loop env images limit c s = ((n, err), s') ->
    Retrieval (n - c) s s' /\ c <= n /\ (c <= limit -> n <= limit).
Proof.
  induction images as [|img rest IH]; intros limit c s s' n err H; simpl in H.
  - leaf H. replace (n - n) with 0 by lia. split; [apply Retrieval_refl|lia].
  - destruct (c >=? limit)%Z eqn:Hc.
    + leaf H. replace (n - n) with 0 by lia. split; [apply Retrieval_refl|lia].
    + unfold bind in H.
      destruct (downloadFile env (Fullsize img) "image" s) as [[k e] s1] eqn:E.
      apply downloadFile_run in E. destruct E as [R Hk].
      destruct e as [e|].
      * leaf H. destruct Hk as [->|[_ Hk]]; [|discriminate Hk].
        replace (n - n) with 0 by lia. split; [exact R|lia].
      * apply IH in H. destruct H as (R' & Hle & Hlim).
        split; [|lia].
        replace (n - c) with (k + (n - (c + k))) by lia.
        eapply Retrieval_trans; eassumption.
Qed.

Lemma downloadImages_run (images : list EmbedImages_ViewImage)
    (limit : Z) (s s' : State) (n : Z) (err : error) :
  downloadImages env images limit s = ((n, err), s') ->
  Retrieval n s s' /\ 0 <= n /\ (0 <= limit -> n <= limit).
Proof.
  unfold downloadImages. intros H. apply downloadImages_loop_run in H.
  replace (n - 0) with n in H by lia. exact H.
Qed.

Lemma Retrieval_saved (n : Z) (s s' : State) :
  Retrieval n s s' -> saved_count (trace s') = saved_count (trace s) + n.
Proof. intros (d & E & _ & C). rewrite E, saved_count_app. lia. Qed.

(** *** The backfill walker counts what it saved and stays within the limit *)

Ltac saved :=
  simpl; rewrite ?saved_count_app, ?saved_count_one; simpl;
  repeat match goal with
         | R : Retrieval _ _ _ |- _ => apply Retrieval_saved in R; rewrite ?R
         end;
  try lia.

Lemma fetch_images_run (view : option EmbedImages_View)
    (limit count : Z) (s s' : State) (c' : Z) :
  fetch_images env view limit count s = (c', s') ->
  count <= limit ->
  count <= c' <= limit /\ saved_count (trace s') = saved_count (trace s) + (c' - count).
Proof.
  unfold fetch_images. unfold_m. intros H Hle.
  destruct view as [v|]; [|leaf H; split; lia].
  destruct (downloadImages env (Images v) (limit - count) s) as [[n err] s1] eqn:E.
  apply downloadImages_run in E. destruct E as (R & H0 & Hn).
  destruct err; leaf H; (split; [lia|saved]).
Qed.

Lemma fetch_video_run (view : option EmbedVideo_View)
    (limit count : Z) (s s' : State) (c' : Z) :
  fetch_video env view limit count s = (c', s') ->
  count <= limit ->
  count <= c' <= limit /\ saved_count (trace s') = saved_count (trace s) + (c' - count).
Proof.
  unfold fetch_video. unfold_m. intros H Hle.
  destruct view as [v|]; [|leaf H; split; lia].
  destruct (count <? limit)%Z eqn:Hlt; [|leaf H; split; lia].
  destruct (downloadVideo env v s) as [[n err] s1] eqn:E.
  apply downloadVideo_run in E. destruct E as (R & Hn).
  destruct err; leaf H; (split; [lia|saved]).
Qed.

Lemma fetch_record_run (view : option EmbedRecordWithMedia_View)
    (limit count : Z) (s s' : State) (c' : Z) :
  fetch_record env view limit count s = (c', s') ->
  count <= limit ->
  count <= c' <= limit /\ saved_count (trace s') = saved_count (trace s) + (c' - count).
Proof.
  unfold fetch_record. intros H Hle.
  destruct view as [[[media|]]|]; simpl in H; try (leaf H; split; lia).
  destruct (count <? limit)%Z eqn:Hlt; [|leaf H; split; lia].
  unfold bind in H.
  destruct (fetch_images env (Media_EmbedImages_View media) limit count s) as [c1 s1] eqn:E1.
  apply fetch_images_run in E1; [|assumption]. apply fetch_video_run in H; lia.
  destruct (count <? limit)%Z; unfold ret in H; leaf H; split; lia.
Qed.

Lemma fetch_embed_run (embed : PostView_Embed)
    (limit count : Z) (s s' : State) (c' : Z) :
  fetch_embed env embed limit count s = (c', s') ->
  count <= limit ->
  count <= c' <= limit /\ saved_count (trace s') = saved_count (trace s) + (c' - count).
Proof.
  unfold fetch_embed, bind. intros H Hle.
  destruct (fetch_images env _ limit count s) as [c1 s1] eqn:E1.
  destruct (fetch_video env _ limit c1 s1) as [c2 s2] eqn:E2.
  apply fetch_images_run in E1; [|assumption].
  apply fetch_video_run in E2; [|lia].
  apply fetch_record_run in H; lia.
Qed.

Lemma fetch_posts_run (posts : list FeedViewPost) :
  forall (limit count pp : Z) (s s' : State) (returned : bool) (c' pp' : Z),
    fetch_posts env posts limit count pp s = ((returned, c', pp'), s') ->
    count <= limit ->
    count <= c' <= limit /\ saved_count (trace s') = saved_count (trace s) + (c' - count).
Proof.
  induction posts as [|post rest IH]; intros limit count pp s s' returned c' pp' H Hle;
    simpl in H.
  - leaf H. split; lia.
  - destruct (count >=? limit)%Z eqn:Hc.
    + unfold_m. leaf H. split; [lia|saved].
    + unfold_m. simpl in H. destruct (Embed (Post post)) as [embed|].
      * match type of H with
        | context [fetch_embed env embed limit count ?s0] =>
            destruct (fetch_embed env embed limit count s0) as [c1 s1] eqn:E
        end.
        apply fetch_embed_run in E; [|assumption]. destruct E as (Hc1 & S1).
        apply IH in H; [|lia]. destruct H as (Hc2 & S2).
        split; [lia|]. rewrite S2, S1. saved.
      * apply IH in H; [|assumption]. destruct H as (Hc2 & S2).
        split; [lia|]. rewrite S2. saved.
Qed.

Lemma fetch_pages_run (pages : nat) :
  forall (actor : string) (batchSize limit : Z) (cursor : string) (count pp : Z)
         (s s' : State) (outcome : Outcome) (c' : Z),
    fetch_pages env pages actor batchSize limit cursor count pp s = ((outcome, c'), s') ->
    count <= limit ->
    count <= c' <= limit /\ saved_count (trace s') = saved_count (trace s) + (c' - count).
Proof.
  induction pages as [|pages IH];
    intros actor batchSize limit cursor count pp s s' outcome c' H Hle; simpl in H.
  - destruct (count <? limit)%Z; unfold fetch_done in H; unfold_m; leaf H;
      (split; [lia|saved]).
  - destruct (count <? limit)%Z eqn:Hlt;
      [|unfold fetch_done in H; unfold_m; leaf H; split; [lia|saved]].
    unfold fetch_done in H. unfold_m. simpl in H.
    destruct (env_GetActorLikes env _ actor cursor batchSize) as [resp|e];
      [|leaf H; split; [lia|saved]].
    destruct (Feed resp) as [|post rest] eqn:Hfeed; [leaf H; split; [lia|saved]|].
    match type of H with
    | context [fetch_posts env ?ps limit count pp ?s0] =>
        destruct (fetch_posts env ps limit count pp s0) as [[[returned c1] pp1] s1] eqn:E
    end.
    apply fetch_posts_run in E; [|assumption]. destruct E as (Hc1 & S1).
    simpl in S1. rewrite saved_count_app, saved_count_one in S1. simpl in S1.
    destruct returned; [leaf H; split; lia|].
    destruct (Cursor resp) as [next|]; [|leaf H; split; [lia|saved]].
    destruct (String.eqb next ""); [leaf H; split; [lia|saved]|].
    apply IH in H; [|lia]. destruct H as (Hc2 & S2). split; lia.
Qed.

End Runs.

(** ** Budget of the backfill *)

(** C1. For a backfill with budget [N >= 0], whatever the feed pages and
    whatever each retrieval does, [downloadCount] ends between 0 and [N]; it
    is the number of new files saved by the run (cache hits and failures
    count for nothing), and at no point of the run has more than [N] files
    been saved. *)
Theorem budget_respected (env : Env) (pages : nat) (actor : string) (batchSize N : Z)
    (s : State) :
  0 <= N ->
  let r := FetchAndDownload env pages actor batchSize N s in
  let downloadCount := snd (fst r) in
  0 <= downloadCount <= N
  /\ saved_count (trace (snd r)) = saved_count (trace s) + downloadCount
  /\ forall before after : list Event,
       trace (snd r) = before ++ after ->
       saved_count before <= saved_count (trace s) + N.
Proof.
  intros HN r downloadCount.
  destruct r as [[outcome c'] s'] eqn:E. subst downloadCount. simpl.
  unfold r, FetchAndDownload in E. unfold_m. simpl in E.
  apply fetch_pages_run in E; [|assumption]. destruct E as (Hc & S).
  simpl in S. rewrite saved_count_app, saved_count_one in S. simpl in S.
  split; [lia|]. split; [lia|].
  intros before after Ht.
  assert (saved_count before <= saved_count (trace s')).
  { rewrite Ht, saved_count_app. pose proof (saved_count_nonneg after). lia. }
  lia.
Qed.

(** ** Cache hits *)

(** C2. When the file name a media reference resolves to is already in the
    in-memory cache, the retriever ([downloadFile] for any kind,
    [downloadVideo] for a playlist) returns count 0 and no error, leaves the
    cache map, the cache file and the download directory as they were, and
    adds to the trace no network request and no subprocess run. *)
Theorem cache_hit_short_circuit (env : Env) (s : State) :
  (forall url mediaType : string,
      index (downloadedFiles s) (resolve_filename url mediaType) = true ->
      let r := downloadFile env url mediaType s in
      fst r = (0, None)
      /\ downloadedFiles (snd r) = downloadedFiles s
      /\ listing (snd r) = listing s
      /\ storage (snd r) = storage s
      /\ exists d, trace (snd r) = trace s ++ d /\ quiet d)
  /\
  (forall video : EmbedVideo_View,
      index (downloadedFiles s) (cacheKey_of (Playlist video) ++ ".mp4")%string = true ->
      let r := downloadVideo env video s in
      fst r = (0, None)
      /\ downloadedFiles (snd r) = downloadedFiles s
      /\ listing (snd r) = listing s
      /\ storage (snd r) = storage s
      /\ exists d, trace (snd r) = trace s ++ d /\ quiet d).
Proof.
  split.
  - intros url mediaType Hit r. subst r.
    unfold downloadFile. unfold_m. simpl. rewrite Hit. simpl.
    repeat split. eexists. split; [reflexivity|]. repeat constructor.
  - intros video Hit r. subst r.
    unfold downloadVideo. unfold_m. simpl.
    destruct (String.eqb (Playlist video) ""); simpl.
    + repeat split. exists []. rewrite List.app_nil_r. split; [reflexivity|constructor].
    + rewrite Hit. simpl.
      repeat split. eexists. split; [reflexivity|]. repeat constructor.
Qed.

(** ** Retrieval failures during the backfill *)

Section Failures.

Variable env : Env.

(** A prefix of an image set that ran without error and below the limit
    leaves the loop where it would be had it started after it. *)
Lemma downloadImages_loop_app (pre rest : list EmbedImages_ViewImage) :
  forall (limit c n : Z) (s s1 : State),
    downloadImages_loop env pre limit c s = ((n, None), s1) ->
    n < limit ->
    downloadImages_loop env (pre ++ rest) limit c s =
    downloadImages_loop env rest limit n s1.
Proof.
  induction pre as [|img pre IH]; intros limit c n s s1 H Hn; simpl in H.
  - leaf H. reflexivity.
  - simpl. destruct (c >=? limit)%Z eqn:Hc.
    + leaf H. lia.
    + unfold bind in *.
      destruct (downloadFile env (Fullsize img) "image" s) as [[k e] s0].
      destruct e; [discriminate H|]. apply IH; assumption.
Qed.

(** The only error the backfill returns is that of a feed request. *)
Lemma fetch_pages_error (pages : nat) :
  forall (actor : string) (batchSize limit : Z) (cursor : string) (count pp : Z)
         (s s' : State) (msg : string) (c' : Z),
    fetch_pages env pages actor batchSize limit cursor count pp s
    = ((Returned (Some msg), c'), s') ->
    exists cause, msg = Sprintf "failed to fetch likes: %w" [AErr cause].
Proof.
  induction pages as [|pages IH];
    intros actor batchSize limit cursor count pp s s' msg c' H; simpl in H.
  - destruct (count <? limit)%Z; unfold fetch_done in H; unfold_m; discriminate H.
  - destruct (count <? limit)%Z; [|unfold fetch_done in H; unfold_m; discriminate H].
    unfold fetch_done in H. unfold_m. simpl in H.
    destruct (env_GetActorLikes env _ actor cursor batchSize) as [resp|cause].
    2: { inversion H. exists cause. reflexivity. }
    destruct (Feed resp) as [|post rest]; [discriminate H|].
    match type of H with
    | context [fetch_posts env ?ps limit count pp ?s0] =>
        destruct (fetch_posts env ps limit count pp s0) as [[[returned c1] pp1] s1]
    end.
    destruct returned; [discriminate H|].
    destruct (Cursor resp) as [next|]; [|discriminate H].
    destruct (String.eqb next ""); [discriminate H|].
    eapply IH. exact H.
Qed.

End Failures.

(** C3, as the code has it. In the backfill, when the retrieval of an image
    fails after the images [pre] before it went through, the failed
    retrieval counts for nothing, the loop over that image set ends there
    (the images [rest] after it are not attempted), the error is printed,
    and the walk goes on: with the video and the record-with-media parts of
    the same item, and then with the following items of the page. A failed
    video retrieval likewise counts for nothing and is printed, and the
    only error the walk ever returns is that of a feed request. *)
Theorem image_failure_ends_the_set_not_the_walk (env : Env) (limit count : Z)
    (embed : PostView_Embed) (pre rest : list EmbedImages_ViewImage)
    (img : EmbedImages_ViewImage) (n k : Z) (e : string) (s s1 s2 : State) :
  Embed_EmbedImages_View embed = Some {| Images := pre ++ img :: rest |} ->
  downloadImages env pre (limit - count) s = ((n, None), s1) ->
  n < limit - count ->
  downloadFile env (Fullsize img) "image" s1 = ((k, Some e), s2) ->
  let logged :=
    set_trace (trace s2 ++ [Printf (go "Error downloading images: %v\n") [AErr e]]) s2 in
  let rest_of_item :=
    (c <- fetch_video env (Embed_EmbedVideo_View embed) limit (count + n) ;;
     fetch_record env (Embed_EmbedRecordWithMedia_View embed) limit c) in
  k = 0
  /\ fetch_embed env embed limit count s = rest_of_item logged
  /\ (forall (post : FeedViewPost) (posts : list FeedViewPost) (pp : Z) (s0 : State),
        Embed (Post post) = Some embed ->
        count < limit ->
        snd (announce_post (pp + 1) count limit s0) = s ->
        fetch_posts env (post :: posts) limit count pp s0 =
        (c <- rest_of_item ;; fetch_posts env posts limit c (pp + 1)) logged)
  /\ (forall (video : EmbedVideo_View) (c k' : Z) (e' : string) (t t' : State),
        c < limit ->
        downloadVideo env video t = ((k', Some e'), t') ->
        k' = 0
        /\ fetch_video env (Some video) limit c t =
           (c, set_trace (trace t' ++ [Printf (go "Error downloading video: %v\n") [AErr e']]) t'))
  /\ (forall (pages : nat) (actor : string) (batchSize : Z) (s0 : State) (msg : string),
        fst (fst (FetchAndDownload env pages actor batchSize limit s0)) = Returned (Some msg) ->
        exists cause, msg = Sprintf "failed to fetch likes: %w" [AErr cause]).
Proof.
  intros Himgs Hpre Hn Hfail logged rest_of_item.
  assert (Hk : k = 0).
  { apply downloadFile_run in Hfail. destruct Hfail as [_ [Hk|[_ Hk]]]; [exact Hk|discriminate Hk]. }
  subst k.
  assert (Hembed : fetch_embed env embed limit count s = rest_of_item logged).
  { unfold fetch_embed, fetch_images. rewrite Himgs. simpl.
    unfold downloadImages in *.
    unfold bind at 1 2.
    rewrite (downloadImages_loop_app env pre (img :: rest) _ _ _ _ _ Hpre Hn).
    simpl. replace (n >=? limit - count)%Z with false by lia.
    unfold bind at 1. rewrite Hfail. reflexivity. }
  split; [reflexivity|]. split; [exact Hembed|]. split; [|split].
  - intros post posts pp s0 Hpost Hlt Hs0.
    simpl. replace (count >=? limit)%Z with false by lia.
    rewrite Hpost. unfold bind at 1.
    destruct (announce_post (pp + 1) count limit s0) as [u s0'] eqn:Ha.
    simpl in Hs0. subst s0'.
    unfold bind at 1. rewrite Hembed.
    unfold bind. destruct (rest_of_item logged). reflexivity.
  - intros video c k' e' t t' Hc Hvideo.
    assert (Hk' : k' = 0).
    { apply downloadVideo_run in Hvideo.
      destruct Hvideo as [_ [Hk|[_ Hk]]]; [exact Hk|discriminate Hk]. }
    subst k'. split; [reflexivity|].
    unfold fetch_video. replace (c <? limit)%Z with true by lia.
    unfold_m. rewrite Hvideo. simpl. replace (c + 0) with c by lia. reflexivity.
  - intros pages actor batchSize s0 msg Hret.
    unfold FetchAndDownload in Hret. unfold_m. simpl in Hret.
    match type of Hret with
    | context [fetch_pages env pages actor batchSize limit ?cur ?c ?pp ?t] =>
        destruct (fetch_pages env pages actor batchSize limit cur c pp t)
          as [[outcome c'] t'] eqn:E
    end.
    simpl in Hret. subst outcome. eapply fetch_pages_error. exact E.
Qed.

(** ** Notifications in watch mode *)

Lemma notifications_app (t d : list Event) :
  notifications (t ++ d) = notifications t ++ notifications d.
Proof. apply List.filter_app. Qed.

Lemma Retrieval_notifications (n : Z) (s s' : State) :
  Retrieval n s s' -> notifications (trace s') = notifications (trace s).
Proof.
  intros (d & E & F & _). rewrite E, notifications_app. clear E.
  apply retrieval_events_no_notification in F.
  assert (Hd : notifications d = []).
  { induction F as [|x d Hx _ IH]; [reflexivity|].
    unfold notifications in *. simpl. rewrite Hx. exact IH. }
  rewrite Hd. apply List.app_nil_r.
Qed.

Section Watch.

Variable env : Env.

Lemma post_images_run (view : option EmbedImages_View) (c : Z) (s s' : State)
    (n : Z) (err : error) :
  post_images env view c s = ((n, err), s') -> Retrieval (n - c) s s'.
Proof.
  unfold post_images, post_step. unfold_m. intros H.
  destruct view as [v|]; [|leaf H; replace (n - n) with 0 by lia; apply Retrieval_refl].
  destruct (downloadImages env (Images v) _ s) as [[k e] s1] eqn:E.
  apply downloadImages_run in E. destruct E as (R & _). leaf H.
  replace (c + k - c) with k by lia. exact R.
Qed.

Lemma post_video_run (view : option EmbedVideo_View) (c : Z) (s s' : State)
    (n : Z) (err : error) :
  post_video env view c s = ((n, err), s') -> Retrieval (n - c) s s'.
Proof.
  unfold post_video, post_step. unfold_m. intros H.
  destruct view as [v|]; [|leaf H; replace (n - n) with 0 by lia; apply Retrieval_refl].
  destruct (downloadVideo env v s) as [[k e] s1] eqn:E.
  apply downloadVideo_run in E. destruct E as (R & _). leaf H.
  replace (c + k - c) with k by lia. exact R.
Qed.

Lemma and_then_run (c : M (Z * error)) (k : Z -> M (Z * error)) (base : Z)
    (s s' : State) (n : Z) (err : error) :
  (forall m e s1, c s = ((m, e), s1) -> Retrieval (m - base) s s1) ->
  (forall m s1 n' e' s2, k m s1 = ((n', e'), s2) -> Retrieval (n' - m) s1 s2) ->
  and_then c k s = ((n, err), s') ->
  Retrieval (n - base) s s'.
Proof.
  intros Hc Hk H. unfold and_then in H. unfold_m.
  destruct (c s) as [[m e] s1]. specialize (Hc _ _ _ eq_refl).
  destruct e.
  - leaf H. exact Hc.
  - apply Hk in H. replace (n - base) with ((m - base) + (n - m)) by lia.
    eapply Retrieval_trans; eassumption.
Qed.

Lemma downloadPostMedia_run (embed : option PostView_Embed) (s s' : State)
    (n : Z) (err : error) :
  downloadPostMedia env embed s = ((n, err), s') -> Retrieval n s s'.
Proof.
  unfold downloadPostMedia. intros H.
  destruct embed as [embed|]; [|unfold ret in H; leaf H; apply Retrieval_refl].
  replace n with (n - 0) by lia.
  eapply and_then_run; [| |exact H].
  { intros; eapply post_images_run; eassumption. }
  intros m1 s1 n1 e1 s2 H1.
  eapply and_then_run; [| |exact H1].
  { intros; eapply post_video_run; eassumption. }
  intros m2 s3 n2 e2 s4 H2.
  destruct (Embed_EmbedRecordWithMedia_View embed) as [[[media|]]|];
    try (unfold ret in H2; leaf H2; replace (n2 - n2) with 0 by lia; apply Retrieval_refl).
  eapply and_then_run; [| |exact H2].
  { intros; eapply post_images_run; eassumption. }
  intros m3 s5 n3 e3 s6 H3.
  eapply and_then_run; [| |exact H3].
  { intros; eapply post_video_run; eassumption. }
  intros m4 s7 n4 e4 s8 H4.
  unfold ret in H4; leaf H4; replace (n4 - n4) with 0 by lia; apply Retrieval_refl.
Qed.

End Watch.

(** C4, as the code has it. For a newly seen item whose media were
    retrieved with result [(n, err)]: [n] is the number of files saved for
    the item, and the poll emits a notification, carrying [n], exactly when
    no retrieval of the item returned an error, [n > 0] and a topic is
    configured. When a retrieval failed, nothing is notified, whatever was
    saved before the failure. *)
Theorem notification_when_error_free (env : Env) (ntfyTopic : string)
    (post : FeedViewPost) (seen : gmap string bool) (s s1 : State) (n : Z) (err : error) :
  index seen (Uri (Post post)) = false ->
  downloadPostMedia env (Embed (Post post))
    (set_trace (trace s ++ [Printf (go "New like: %s\n") [AStr (Uri (Post post))]]) s)
  = ((n, err), s1) ->
  let s' := snd (watch_post env ntfyTopic post seen s) in
  saved_count (trace s1) = saved_count (trace s) + n
  /\ saved_count (trace s') = saved_count (trace s1)
  /\ notifications (trace s') =
     notifications (trace s) ++
     match err with
     | None =>
         if (n >? 0)%Z && negb (String.eqb ntfyTopic "")
         then [HttpPost ("https://ntfy.sh/" ++ ntfyTopic) "text/plain"
                 (Sprintf "Downloaded %d file(s) from new like" [AInt n])]
         else []
     | Some _ => []
     end.
Proof.
  intros Hnew Hrun s'. subst s'.
  pose proof (downloadPostMedia_run env _ _ _ _ _ Hrun) as R.
  pose proof (Retrieval_saved _ _ _ R) as S.
  pose proof (Retrieval_notifications _ _ _ R) as N.
  simpl in S, N. rewrite saved_count_app, saved_count_one in S. simpl in S.
  rewrite notifications_app in N. simpl in N. rewrite List.app_nil_r in N.
  split; [lia|].
  unfold watch_post, notify. rewrite Hnew. unfold_m. simpl. simpl in Hrun. rewrite Hrun.
  destruct err as [e|]; simpl.
  - rewrite saved_count_app, saved_count_one, notifications_app, N. simpl.
    split; [lia|reflexivity].
  - destruct (n >? 0)%Z; simpl.
    + destruct (String.eqb ntfyTopic ""); simpl.
      * rewrite saved_count_app, saved_count_one, notifications_app, N. simpl.
        split; [lia|reflexivity].
      * destruct (env_http_Post env _ _ _); simpl.
        all: rewrite ?saved_count_app, ?saved_count_one, ?notifications_app, N; simpl.
        all: split; [lia|]; rewrite <- ?List.app_assoc; reflexivity.
    + rewrite List.app_nil_r. split; [reflexivity|exact N].
Qed.

(** ** Content keys and extensions *)

Lemma append_cons (c : ascii) (a b : string) :
  (String c a ++ b)%string = String c (a ++ b)%string.
Proof. reflexivity. Qed.

Lemma list_ascii_of_string_app (a b : string) :
  list_ascii_of_string (a ++ b)%string = list_ascii_of_string a ++ list_ascii_of_string b.
Proof.
  induction a as [|c a IH]; [reflexivity|].
  rewrite append_cons. simpl. rewrite IH. reflexivity.
Qed.

Lemma string_of_list_ascii_app (a b : list ascii) :
  string_of_list_ascii (a ++ b) = (string_of_list_ascii a ++ string_of_list_ascii b)%string.
Proof.
  induction a as [|c a IH]; [reflexivity|].
  simpl. rewrite append_cons, IH. reflexivity.
Qed.

Lemma append_assoc (a b c : string) : ((a ++ b) ++ c)%string = (a ++ (b ++ c))%string.
Proof.
  induction a as [|x a IH]; [reflexivity|].
  rewrite !append_cons, IH. reflexivity.
Qed.

(** Walking back over plain bytes only moves them to the suffix. *)
Lemma Ext_scan_plain (l rest : list ascii) :
  forall suffix : string,
    List.forallb (fun c => negb (is_char c ".") && negb (is_char c "/")) l = true ->
    Ext_scan (l ++ rest) suffix =
    Ext_scan rest (string_of_list_ascii (List.rev l) ++ suffix)%string.
Proof.
  induction l as [|c l IH]; intros suffix Hl; simpl in *; [reflexivity|].
  apply andb_prop in Hl. destruct Hl as [Hc Hl].
  apply andb_prop in Hc. destruct Hc as [Hdot Hsep].
  apply negb_true_iff in Hdot, Hsep. rewrite Hdot, Hsep.
  rewrite IH by assumption.
  rewrite string_of_list_ascii_app. simpl.
  rewrite append_assoc. reflexivity.
Qed.

Lemma forallb_rev {A} (f : A -> bool) (l : list A) :
  List.forallb f (List.rev l) = List.forallb f l.
Proof.
  induction l as [|x l IH]; simpl; [reflexivity|].
  rewrite List.forallb_app, IH. simpl. rewrite andb_true_r. apply andb_comm.
Qed.

Lemma append_empty_r (a : string) : (a ++ "")%string = a.
Proof.
  induction a as [|c a IH]; [reflexivity|].
  rewrite append_cons, IH. reflexivity.
Qed.

(** The extension starts at the last dot of the last element. *)
Lemma filepath_Ext_dot (p t : string) :
  plain t = true -> filepath_Ext (p ++ "." ++ t)%string = ("." ++ t)%string.
Proof.
  intros Ht. unfold filepath_Ext.
  rewrite list_ascii_of_string_app. simpl. rewrite List.rev_app_distr. simpl.
  rewrite <- List.app_assoc. simpl.
  rewrite Ext_scan_plain by (rewrite forallb_rev; exact Ht).
  simpl. rewrite List.rev_involutive, string_of_list_ascii_of_string, append_empty_r.
  reflexivity.
Qed.

(** There is none when the last element has no dot. *)
Lemma filepath_Ext_none (p t : string) :
  plain t = true ->
  p = "" \/ (exists p', p = (p' ++ "/")%string) ->
  filepath_Ext (p ++ t)%string = "".
Proof.
  intros Ht Hp. unfold filepath_Ext.
  rewrite list_ascii_of_string_app, List.rev_app_distr.
  rewrite Ext_scan_plain by (rewrite forallb_rev; exact Ht).
  destruct Hp as [->|[p' ->]]; [reflexivity|].
  rewrite list_ascii_of_string_app, List.rev_app_distr. reflexivity.
Qed.

Lemma length_rounds (l : list (Z * Z)) :
  forall h : list Z, List.length h = 8%nat ->
    List.length (List.fold_left SHA256.round l h) = 8%nat.
Proof. induction l as [|kw l IH]; intros h Hh; simpl; [exact Hh|]. apply IH. reflexivity. Qed.

Lemma length_blocks (n : nat) :
  forall h p : list Z, List.length h = 8%nat ->
    List.length (SHA256.blocks n h p) = 8%nat.
Proof.
  induction n as [|n IH]; intros h p Hh; simpl; [exact Hh|].
  apply IH. unfold SHA256.block.
  rewrite List.length_map, List.length_combine, length_rounds, Hh by exact Hh. reflexivity.
Qed.

Lemma length_hex (bs : list Z) :
  String.length (hex_EncodeToString bs) = (2 * List.length bs)%nat.
Proof. induction bs as [|b bs IH]; simpl; [reflexivity|]. rewrite IH. lia. Qed.

(** The content key is always 64 hexadecimal digits long. *)
Lemma cacheKey_length (url : string) : String.length (cacheKey_of url) = 64%nat.
Proof.
  unfold cacheKey_of, SHA256.Sum256. rewrite length_hex.
  set (h := SHA256.blocks _ _ _).
  assert (Hh : List.length h = 8%nat) by (apply length_blocks; reflexivity).
  destruct h as [|a [|b [|c [|d [|e [|f [|g [|i [|]]]]]]]]]; try discriminate Hh.
  reflexivity.
Qed.

(** C5, as the code has it. The file name is the hexadecimal SHA-256 of the
    URL's bytes followed by an extension taken from the URL string as a
    whole: when the text after the URL's last slash has a dot, the
    extension is everything from the last such dot on (be that text a path
    segment, a host name, a query or a fragment); when it has none, the
    extension is [.m3u8] if the URL contains [m3u8], else [.png] for the
    image kind and [.mp4] for any other. *)
Theorem extension_from_url_string (url mediaType : string) :
  resolve_filename url mediaType = (cacheKey_of url ++ resolve_ext url mediaType)%string
  /\ (forall p t : string,
        url = (p ++ "." ++ t)%string -> plain t = true ->
        resolve_ext url mediaType = ("." ++ t)%string)
  /\ (forall p t : string,
        url = (p ++ t)%string -> plain t = true ->
        p = "" \/ (exists p', p = (p' ++ "/")%string) ->
        resolve_ext url mediaType =
        if Contains url "m3u8" then ".m3u8"
        else if String.eqb mediaType "image" then ".png"
        else ".mp4").
Proof.
  split; [reflexivity|]. split.
  - intros p t -> Ht. unfold resolve_ext. rewrite filepath_Ext_dot by exact Ht. reflexivity.
  - intros p t -> Ht Hp. unfold resolve_ext. rewrite filepath_Ext_none by assumption.
    reflexivity.
Qed.

(** ** Novelty in watch mode *)

Lemma index_insert (m : gmap string bool) (k u : string) :
  index (<[k := true]> m) u = true <-> u = k \/ index m u = true.
Proof.
  unfold index. destruct (decide (k = u)) as [->|Hne].
  - rewrite lookup_insert_eq. simpl. tauto.
  - rewrite lookup_insert_ne by exact Hne. split; [tauto|].
    intros [->|H]; [contradiction|exact H].
Qed.

Lemma index_empty (u : string) : index (∅ : gmap string bool) u = false.
Proof. unfold index. rewrite lookup_empty. reflexivity. Qed.

Lemma seed_seen_spec (posts : list FeedViewPost) (u : string) :
  index (seed_seen posts) u = true <-> List.In u (uris posts).
Proof.
  unfold seed_seen.
  assert (H : forall seen,
             index (List.fold_left
                      (fun seen post => <[Uri (Post post) := true]> seen) posts seen) u = true
             <-> index seen u = true \/ List.In u (uris posts)).
  { induction posts as [|post rest IH]; intros seen; simpl; [tauto|].
    rewrite IH, index_insert. intuition congruence. }
  rewrite H, index_empty. intuition discriminate.
Qed.

Lemma Retrieval_new_likes (n : Z) (s s' : State) :
  Retrieval n s s' -> new_likes (trace s') = new_likes (trace s).
Proof.
  intros (d & E & F & _). rewrite E, new_likes_app.
  rewrite (retrieval_events_no_new_likes d F). apply List.app_nil_r.
Qed.

Section Novelty.

Variable env : Env.

(** An item already seen is skipped; a new one is marked and announced
    once. *)
Lemma watch_post_run (ntfyTopic : string) (post : FeedViewPost)
    (seen : gmap string bool) (s : State) :
  let r := watch_post env ntfyTopic post seen s in
  if index seen (Uri (Post post))
  then r = (seen, s)
  else fst r = <[Uri (Post post) := true]> seen
       /\ new_likes (trace (snd r)) = new_likes (trace s) ++ [Uri (Post post)].
Proof.
  intros r. subst r. unfold watch_post, notify.
  destruct (index seen (Uri (Post post))); [reflexivity|].
  unfold_m. simpl.
  match goal with
  | |- context [downloadPostMedia env ?e ?s0] =>
      destruct (downloadPostMedia env e s0) as [[n err] s1] eqn:E
  end.
  apply downloadPostMedia_run, Retrieval_new_likes in E.
  simpl in E. rewrite new_likes_app in E. simpl in E.
  repeat match goal with
         | |- context [match ?x with _ => _ end] =>
             lazymatch x with
             | context [match _ with _ => _ end] => fail
             | _ => destruct x eqn:?
             end
         end; simpl.
  all: split; [reflexivity|].
  all: rewrite ?new_likes_app; simpl; rewrite ?List.app_nil_r; exact E.
Qed.

Lemma watch_posts_run (ntfyTopic : string) (posts : list FeedViewPost) :
  forall (seen : gmap string bool) (s : State),
    let r := watch_posts env ntfyTopic posts seen s in
    (forall u, index (fst r) u = true <-> index seen u = true \/ List.In u (uris posts))
    /\ exists new : list string,
         new_likes (trace (snd r)) = new_likes (trace s) ++ new
         /\ List.NoDup new
         /\ forall u, List.In u new <-> List.In u (uris posts) /\ index seen u = false.
Proof.
  induction posts as [|post rest IH]; intros seen s r; subst r; simpl.
  - unfold ret. simpl. split; [tauto|].
    exists []. rewrite List.app_nil_r. split; [reflexivity|].
    split; [constructor|]. simpl. tauto.
  - unfold bind.
    pose proof (watch_post_run ntfyTopic post seen s) as Hpost. simpl in Hpost.
    destruct (watch_post env ntfyTopic post seen s) as [seen1 s1].
    specialize (IH seen1 s1). simpl in IH. destruct IH as (Hseen & new & Hnew & Hnd & Hin).
    destruct (index seen (Uri (Post post))) eqn:Hknown.
    + inversion Hpost; subst seen1 s1. split.
      * intros u. rewrite Hseen. split; [tauto|].
        intros [H|[<-|H]]; auto.
      * exists new. split; [exact Hnew|]. split; [exact Hnd|].
        intros u. rewrite Hin. split; [tauto|].
        intros [[<-|H] Hu]; [congruence|tauto].
    + simpl in Hpost. destruct Hpost as [-> Hlikes]. split.
      * intros u. rewrite Hseen, index_insert. intuition congruence.
      * exists (Uri (Post post) :: new).
        split; [rewrite Hnew, Hlikes, <- List.app_assoc; reflexivity|].
        assert (Hfresh : forall u, index (<[Uri (Post post) := true]> seen) u = false
                                   <-> u <> Uri (Post post) /\ index seen u = false).
        { intros u. pose proof (index_insert seen (Uri (Post post)) u) as Hi.
          destruct (index (<[Uri (Post post) := true]> seen) u);
            destruct (index seen u); intuition congruence. }
        split.
        { constructor; [|exact Hnd]. rewrite Hin, Hfresh. tauto. }
        intros u. simpl. rewrite Hin, Hfresh.
        destruct (decide (u = Uri (Post post))) as [->|Hne]; [tauto|].
        intuition congruence.
Qed.

Lemma watch_cycle_grows (actor : string) (interval : Z) (ntfyTopic : string)
    (seen : gmap string bool) (s : State) (u : string) :
  index seen u = true ->
  index (fst (watch_cycle env actor interval ntfyTopic seen s)) u = true.
Proof.
  intros Hu. unfold watch_cycle. unfold_m. simpl.
  destruct (env_GetActorLikes env _ actor "" 50) as [resp|e]; [|exact Hu].
  apply (watch_posts_run ntfyTopic (Feed resp)). left. exact Hu.
Qed.

Lemma watch_loop_grows (cycles : nat) (actor : string) (interval : Z) (ntfyTopic : string) :
  forall (seen : gmap string bool) (s : State) (u : string),
    index seen u = true ->
    index (fst (watch_loop env cycles actor interval ntfyTopic seen s)) u = true.
Proof.
  induction cycles as [|cycles IH]; intros seen s u Hu; simpl; [exact Hu|].
  unfold bind.
  pose proof (watch_cycle_grows actor interval ntfyTopic seen s u Hu) as H1.
  destruct (watch_cycle env actor interval ntfyTopic seen s) as [seen1 s1].
  apply IH. exact H1.
Qed.

End Novelty.

(** ** The content cache *)

Lemma Grows_refl (m : gmap string bool) : Grows m m.
Proof. split; [reflexivity|auto]. Qed.

Lemma Grows_trans (m1 m2 m3 : gmap string bool) :
  Grows m1 m2 -> Grows m2 m3 -> Grows m1 m3.
Proof. intros [D1 I1] [D2 I2]. split; [etrans; eassumption|auto]. Qed.

Lemma Grows_insert (m : gmap string bool) (k : string) : Grows m (<[k := true]> m).
Proof.
  split.
  - rewrite dom_insert_L. set_solver.
  - intros f Hf. apply index_insert. right. exact Hf.
Qed.

Lemma map_fmap {A B} (f : A -> B) (l : list A) : List.map f l = f <$> l.
Proof. induction l as [|x l IH]; simpl; [reflexivity|]. rewrite IH. reflexivity. Qed.

Lemma range_keys_Lists (order : RangeOrder) (m : gmap string bool) :
  Lists (listing_text (range_keys order m)) m.
Proof.
  exists (range_keys order m). split; [reflexivity|].
  pose proof (range_keys_perm order m) as P. rewrite map_fmap in P.
  split.
  - apply NoDup_ListNoDup. rewrite P. apply NoDup_fst_map_to_list.
  - intros f. rewrite <- list_elem_of_In, P, elem_of_dom.
    rewrite list_elem_of_fmap. split.
    + intros [[k v] [-> Hkv]]. apply elem_of_map_to_list in Hkv. eauto.
    + intros [v Hv]. exists (f, v). split; [reflexivity|]. apply elem_of_map_to_list. exact Hv.
Qed.

Section Cache.

Variable env : Env.

(** A successful [saveCache] leaves in the cache file the keys of the
    map, and nothing of the file's previous content. *)
Lemma saveCache_ok (s s' : State) :
  saveCache env s = (None, s') ->
  exists text, listing s' = Some text /\ Lists text (downloadedFiles s).
Proof.
  unfold saveCache. unfold_m. simpl. intros H.
  repeat split_run H; leaf H. simpl.
  eexists. split; [reflexivity|]. apply range_keys_Lists.
Qed.

Lemma loadCache_loop_run (lines : list string) :
  forall (count : Z) (s : State),
    let r := loadCache_loop lines count s in
    Grows (downloadedFiles s) (downloadedFiles (snd r))
    /\ trace (snd r) = trace s
    /\ storage (snd r) = storage s
    /\ listing (snd r) = listing s.
Proof.
  induction lines as [|line rest IH]; intros count s r; subst r; simpl.
  - split; [apply Grows_refl|auto].
  - destruct (String.eqb (TrimSpace line) ""); [apply IH|].
    unfold_m. simpl.
    match goal with
    | |- context [loadCache_loop rest ?c ?s0] =>
        destruct (IH c s0) as (G & T & S & L)
    end.
    simpl in *. split; [|auto].
    eapply Grows_trans; [apply Grows_insert|exact G].
Qed.

Lemma loadCache_run (s : State) :
  let r := loadCache env s in
  Grows (downloadedFiles s) (downloadedFiles (snd r))
  /\ storage (snd r) = storage s
  /\ listing (snd r) = listing s
  /\ (listing s = None -> downloadedFiles (snd r) = downloadedFiles s)
  /\ exists d, trace (snd r) = trace s ++ d /\ quiet d.
Proof.
  intros r. subst r. unfold loadCache. unfold_m. simpl.
  destruct (env_os_Open env _ _) as [e|]; simpl.
  { split; [apply Grows_refl|]. repeat split; auto.
    eexists. split; [reflexivity|repeat constructor]. }
  destruct (listing s) as [content|] eqn:Hl; simpl.
  2: { split; [apply Grows_refl|]. repeat split; auto.
       eexists. rewrite <- List.app_assoc. split; [reflexivity|repeat constructor]. }
  destruct (env_scan env _ _) as [[n e]|]; simpl.
  all: match goal with
       | |- context [loadCache_loop ?l ?c ?s0] =>
           destruct (loadCache_loop_run l c s0) as (G & T & S & L);
           destruct (loadCache_loop l c s0) as [count s1]
       end; simpl in *.
  all: split; [exact G|]; split; [exact S|]; split; [congruence|].
  all: split; [discriminate|]; rewrite ?T.
  all: eexists; rewrite <- ?List.app_assoc; split; [reflexivity|repeat constructor].
Qed.

Lemma sync_loop_run (entries : list (string * DirEntry)) :
  forall (added : Z) (s : State),
    let r := sync_loop entries added s in
    Grows (downloadedFiles s) (downloadedFiles (snd r))
    /\ trace (snd r) = trace s
    /\ storage (snd r) = storage s
    /\ listing (snd r) = listing s
    /\ (forall filename content,
          List.In (filename, File content) entries ->
          index (downloadedFiles (snd r)) filename = true)
    /\ added <= fst r
    /\ (fst r = added -> downloadedFiles (snd r) = downloadedFiles s).
Proof.
  induction entries as [|[filename [content|]] rest IH]; intros added s r; subst r; simpl.
  - split; [apply Grows_refl|]. repeat split; auto; try lia; try (intros ? ? []).
  - unfold_m. simpl.
    destruct (index (downloadedFiles s) filename) eqn:Hknown; simpl.
    + destruct (IH added s) as (G & T & S & L & A & Hle & Hsame).
      split; [exact G|]. repeat split; auto.
      intros f c [Heq|Hin]; [|eauto].
      inversion Heq; subst. apply G. exact Hknown.
    + match goal with
      | |- context [sync_loop rest ?c ?s0] =>
          destruct (IH c s0) as (G & T & S & L & A & Hle & Hsame)
      end.
      simpl in *. split; [eapply Grows_trans; [apply Grows_insert|exact G]|].
      repeat split; auto; try lia.
      intros f c [Heq|Hin]; [|eauto].
      inversion Heq; subst. apply G. apply index_insert. left. reflexivity.
  - destruct (IH added s) as (G & T & S & L & A & Hle & Hsame).
    split; [exact G|]. repeat split; auto.
    intros f c [Heq|Hin]; [discriminate Heq|eauto].
Qed.

Lemma syncCacheFromDirectory_run (s : State) :
  let r := syncCacheFromDirectory env s in
  Grows (downloadedFiles s) (downloadedFiles (snd r))
  /\ storage (snd r) = storage s
  /\ (exists d, trace (snd r) = trace s ++ d /\ quiet d)
  /\ (fst r = None ->
      (forall filename content,
          storage s !! filename = Some (File content) ->
          index (downloadedFiles (snd r)) filename = true)
      /\ (downloadedFiles (snd r) <> downloadedFiles s ->
          exists text, listing (snd r) = Some text /\ Lists text (downloadedFiles (snd r)))).
Proof.
  intros r. subst r. unfold syncCacheFromDirectory. unfold_m. simpl.
  destruct (env_ReadDir env _ _) as [e|]; simpl.
  { split; [apply Grows_refl|]. split; [reflexivity|].
    split; [eexists; split; [reflexivity|repeat constructor]|]. discriminate. }
  match goal with
  | |- context [sync_loop ?l ?c ?s0] =>
      destruct (sync_loop_run l c s0) as (G & T & S & L & A & Hle & Hsame);
      destruct (sync_loop l c s0) as [added s1]
  end; simpl in *.
  assert (Hfiles : forall filename content,
             storage s !! filename = Some (File content) ->
             index (downloadedFiles s1) filename = true).
  { intros f c Hf. apply (A f c). apply list_elem_of_In, elem_of_map_to_list. exact Hf. }
  destruct (0 <? added)%Z eqn:Hadded; simpl.
  - destruct (saveCache env _) as [err s2] eqn:Hsave.
    pose proof (saveCache_trace env _ _ _ Hsave) as (Ht & Hm & Hs). simpl in *.
    assert (Hquiet : exists d, trace s2 = trace s ++ d /\ quiet d).
    { rewrite Ht, T. eexists. rewrite <- !List.app_assoc. split; [reflexivity|].
      repeat constructor. }
    destruct err as [e|]; simpl.
    all: split; [rewrite Hm; exact G|]; split; [congruence|]; split; [exact Hquiet|].
    { discriminate. }
    intros _. split; [rewrite Hm; exact Hfiles|].
    intros _. apply saveCache_ok in Hsave. simpl in Hsave. rewrite Hm. exact Hsave.
  - split; [exact G|]. split; [exact S|].
    split; [rewrite T; eexists; split; [reflexivity|repeat constructor]|].
    intros _. split; [exact Hfiles|].
    intros Hchanged. exfalso. apply Hchanged. apply Hsame. lia.
Qed.

Lemma markDownloaded_grows (filename : string) (s : State) :
  Grows (downloadedFiles s) (downloadedFiles (snd (markDownloaded env filename s))).
Proof.
  destruct (markDownloaded env filename s) as [err s'] eqn:E.
  apply markDownloaded_trace in E. destruct E as (_ & E & _). simpl. rewrite E.
  apply Grows_insert.
Qed.

Lemma run_op_grows (op : CacheOp) (s : State) :
  Grows (downloadedFiles s) (downloadedFiles (snd (run_op env op s))).
Proof.
  destruct op as [| |filename|filename]; unfold run_op, bind, ret.
  - pose proof (loadCache_run s) as (G & _).
    destruct (loadCache env s). exact G.
  - pose proof (syncCacheFromDirectory_run s) as (G & _).
    destruct (syncCacheFromDirectory env s). exact G.
  - unfold isDownloaded, gets. apply Grows_refl.
  - pose proof (markDownloaded_grows filename s) as G.
    destruct (markDownloaded env filename s). exact G.
Qed.

Lemma run_ops_app (before after : list CacheOp) :
  forall s : State,
    run_ops env (before ++ after) s = run_ops env after (snd (run_ops env before s)).
Proof.
  induction before as [|op before IH]; intros s; simpl; [reflexivity|].
  unfold bind. destruct (run_op env op s) as [u s1]. apply IH.
Qed.

Lemma run_ops_grows (ops : list CacheOp) :
  forall s : State, Grows (downloadedFiles s) (downloadedFiles (snd (run_ops env ops s))).
Proof.
  induction ops as [|op ops IH]; intros s; simpl; [apply Grows_refl|].
  unfold bind. pose proof (run_op_grows op s) as G.
  destruct (run_op env op s) as [u s1]. eapply Grows_trans; [exact G|apply IH].
Qed.

End Cache.

(** C7. At a startup that succeeds, every file that is a direct entry of
    the download directory is in the cache after [loadCache] and
    [syncCacheFromDirectory], also when the cache file is missing; the
    startup makes no network request and runs no subprocess; and when the
    reconciliation added a file name, the cache file holds exactly the
    keys of the map. *)
Theorem self_healing_reconciliation (env : Env) (s : State)
    (filename content : string) :
  storage s !! filename = Some (File content) ->
  let r := NewMediaFetcher_cache env s in
  fst r = None ->
  let loaded := snd (loadCache env (set_downloadedFiles ∅ s)) in
  fst (isDownloaded filename (snd r)) = true
  /\ (exists d, trace (snd r) = trace s ++ d /\ quiet d)
  /\ (downloadedFiles (snd r) <> downloadedFiles loaded ->
      exists text, listing (snd r) = Some text /\ Lists text (downloadedFiles (snd r)))
  /\ (listing s = None ->
      downloadedFiles loaded = ∅
      /\ exists text, listing (snd r) = Some text /\ Lists text (downloadedFiles (snd r))).
Proof.
  intros Hfile r Hok loaded. subst r loaded.
  unfold NewMediaFetcher_cache in *. unfold_m. simpl in *.
  pose proof (loadCache_run env (set_downloadedFiles ∅ s)) as (G1 & S1 & L1 & E1 & d1 & T1 & Q1).
  destruct (loadCache env (set_downloadedFiles ∅ s)) as [err1 s1]. simpl in *.
  destruct err1 as [e|]; [discriminate Hok|].
  pose proof (syncCacheFromDirectory_run env s1) as (G2 & S2 & (d2 & T2 & Q2) & Hsync).
  destruct (syncCacheFromDirectory env s1) as [err2 s2]. simpl in *.
  destruct err2 as [e|]; [discriminate Hok|]. simpl.
  destruct (Hsync eq_refl) as (Hfiles & Hsaved).
  assert (Hin : index (downloadedFiles s2) filename = true).
  { apply (Hfiles filename content). rewrite S1. exact Hfile. }
  split; [exact Hin|].
  split.
  { exists (d1 ++ d2). rewrite T2, T1, <- List.app_assoc. split; [reflexivity|].
    apply quiet_app; assumption. }
  split; [exact Hsaved|].
  intros Hmissing. specialize (E1 Hmissing). split; [exact E1|].
  apply Hsaved. rewrite E1. intros Heq. rewrite Heq, index_empty in Hin. discriminate Hin.
Qed.

(** C8. Along any sequence of cache operations (load, reconcile, contains,
    record), a file name for which [isDownloaded] answered true keeps that
    answer after any further operations, and the set of keys of the map
    only grows. *)
Theorem cache_monotonicity (env : Env) (before after : list CacheOp) (s : State)
    (filename : string) :
  let s1 := snd (run_ops env before s) in
  let s2 := snd (run_ops env (before ++ after) s) in
  dom (downloadedFiles s1) ⊆ dom (downloadedFiles s2)
  /\ (fst (isDownloaded filename s1) = true -> fst (isDownloaded filename s2) = true).
Proof.
  intros s1 s2. subst s1 s2. rewrite run_ops_app.
  destruct (run_ops_grows env after (snd (run_ops env before s))) as [D I].
  split; [exact D|]. apply I.
Qed.

Lemma scan_lines_line (l data : list ascii) :
  forall cur : list ascii,
    List.forallb (fun c => negb (is_char c "010")) l = true ->
    scan_lines (l ++ "010"%char :: data) cur =
    string_of_list_ascii (dropCR (List.rev cur ++ l)) :: scan_lines data [].
Proof.
  induction l as [|c l IH]; intros cur Hl; simpl in *.
  - rewrite List.app_nil_r. reflexivity.
  - apply andb_prop in Hl. destruct Hl as [Hc Hl]. apply negb_true_iff in Hc.
    rewrite Hc, IH by exact Hl. simpl. rewrite <- List.app_assoc. reflexivity.
Qed.

Lemma concat_cons (x : string) (xs : list string) :
  String.concat "" (x :: xs) = (x ++ String.concat "" xs)%string.
Proof. destruct xs; simpl; [rewrite append_empty_r|]; reflexivity. Qed.

Lemma ScanLines_listing_text (keys : list string) :
  List.forallb one_line keys = true -> ScanLines (listing_text keys) = keys.
Proof.
  unfold listing_text, ScanLines. change (go "\n") with (String "010"%char "").
  induction keys as [|k keys IH]; intros Hk; [reflexivity|].
  simpl in Hk. apply andb_prop in Hk. destruct Hk as [Hone Hrest].
  apply andb_prop in Hone. destruct Hone as [Hnl Hcr].
  rewrite List.map_cons, concat_cons, !list_ascii_of_string_app.
  change (list_ascii_of_string (String "010"%char "")) with ["010"%char].
  rewrite <- List.app_assoc.
  change (["010"%char] ++ ?x) with ("010"%char :: x).
  rewrite scan_lines_line by exact Hnl.
  rewrite IH by exact Hrest. f_equal.
  change (List.rev [] ++ list_ascii_of_string k) with (list_ascii_of_string k).
  unfold dropCR. destruct (List.rev (list_ascii_of_string k)) as [|c back].
  - apply string_of_list_ascii_of_string.
  - apply negb_true_iff in Hcr. rewrite Hcr. apply string_of_list_ascii_of_string.
Qed.

(** When every key fits on a line, the lines of the text are the keys. *)
Lemma Lists_lines (text : string) (m : gmap string bool) :
  Lists text m ->
  (forall filename, filename ∈ dom m -> one_line filename = true) ->
  List.NoDup (ScanLines text)
  /\ forall filename, List.In filename (ScanLines text) <-> filename ∈ dom m.
Proof.
  intros (keys & -> & Hnd & Hdom) Hone.
  assert (Hall : List.forallb one_line keys = true).
  { apply List.forallb_forall. intros k Hk. apply Hone, Hdom. exact Hk. }
  rewrite (ScanLines_listing_text keys Hall). split; assumption.
Qed.

(** C9. After a [markDownloaded] that returned no error, the map holds the
    new file name, and the cache file holds exactly the keys of the map:
    each once, each followed by a newline, and nothing else, whatever the
    file held before. When no key has a line break in it, the lines of the
    file are the keys. *)
Theorem listing_agrees_after_save (env : Env) (filename : string) (s s' : State) :
  markDownloaded env filename s = (None, s') ->
  downloadedFiles s' = <[filename := true]> (downloadedFiles s)
  /\ fst (isDownloaded filename s') = true
  /\ exists text,
       listing s' = Some text
       /\ Lists text (downloadedFiles s')
       /\ ((forall key, key ∈ dom (downloadedFiles s') -> one_line key = true) ->
           List.NoDup (ScanLines text)
           /\ forall key, List.In key (ScanLines text) <-> key ∈ dom (downloadedFiles s')).
Proof.
  intros H.
  pose proof (markDownloaded_trace env _ _ _ _ H) as (_ & Hm & _).
  split; [exact Hm|]. split.
  { simpl. rewrite Hm. apply index_insert. left. reflexivity. }
  unfold markDownloaded in H. unfold_m. apply saveCache_ok in H. simpl in H.
  destruct H as (text & Hl & HL). rewrite <- Hm in HL.
  exists text. split; [exact Hl|]. split; [exact HL|].
  apply Lists_lines. exact HL.
Qed.

(** ** No budget *)

(** C10. With a download limit of zero or less, [FetchAndDownload] returns
    no error at once, whatever the bound on pages: it prints its two lines,
    requests no feed page, retrieves nothing and leaves the cache, the
    cache file and the download directory as they were. *)
Theorem no_budget_no_work (env : Env) (pages : nat) (actor : string)
    (batchSize downloadLimit : Z) (s : State) :
  downloadLimit <= 0 ->
  FetchAndDownload env pages actor batchSize downloadLimit s =
  ((Returned None, 0),
   set_trace (trace s ++ [Printf "%s" [AStr (go "\033[s")];
                          Printf (go "\nTotal files downloaded: %d\n") [AInt 0]]) s)
  /\ quiet [Printf "%s" [AStr (go "\033[s")];
            Printf (go "\nTotal files downloaded: %d\n") [AInt 0]].
Proof.
  intros Hlimit. split; [|repeat constructor].
  unfold FetchAndDownload. unfold_m.
  destruct pages; simpl; replace (0 <? downloadLimit)%Z with false by lia;
    unfold fetch_done; unfold_m; simpl; rewrite <- List.app_assoc; reflexivity.
Qed.

(** ** The properties on concrete runs *)

(** The end-to-end scenario: budget 3, four images on offer. *)
Lemma budget_respected_scenario :
  0 <= 3
  /\ (let r := FetchAndDownload calm 3 "me" 50 3 fresh in
      let downloadCount := snd (fst r) in
      0 <= downloadCount <= 3
      /\ saved_count (trace (snd r)) = saved_count (trace fresh) + downloadCount
      /\ forall before after : list Event,
           trace (snd r) = before ++ after ->
           saved_count before <= saved_count (trace fresh) + 3).
Proof.
  split; [lia|]. apply (budget_respected calm 3 "me" 50 3 fresh). lia.
Defined.

Lemma cache_hit_on_warm_cache :
  index (downloadedFiles warm) (resolve_filename "https://x/a.png" "image") = true
  /\ (let r := downloadFile calm "https://x/a.png" "image" warm in
      fst r = (0, None)
      /\ downloadedFiles (snd r) = downloadedFiles warm
      /\ listing (snd r) = listing warm
      /\ storage (snd r) = storage warm
      /\ exists d, trace (snd r) = trace warm ++ d /\ quiet d).
Proof.
  assert (H : index (downloadedFiles warm) (resolve_filename "https://x/a.png" "image") = true)
    by (vm_compute; reflexivity).
  split; [exact H|].
  apply (proj1 (cache_hit_short_circuit calm warm) "https://x/a.png" "image" H).
Defined.

(** The first image of an item fails with budget left: the second image of
    the same item is never requested, although it is not cached, while the
    next item's images are. *)
Lemma failed_image_skips_rest_of_item :
  let r := FetchAndDownload flaky 1 "me" 50 5 fresh in
  snd (fst r) = 2
  /\ requested "https://x/a.png" (trace (snd r)) = true
  /\ requested "https://x/b.png" (trace (snd r)) = false
  /\ index (downloadedFiles (snd r)) (resolve_filename "https://x/b.png" "image") = false
  /\ requested "https://x/c" (trace (snd r)) = true.
Proof. vm_compute. repeat split; reflexivity. Qed.

Lemma image_failure_on_flaky_feed :
  let s2 := snd (downloadFile flaky "https://x/a.png" "image" fresh) in
  let logged :=
    set_trace (trace s2 ++ [Printf (go "Error downloading images: %v\n")
                              [AErr "bad status: 404 Not Found"]]) s2 in
  fetch_embed flaky flaky_embed 5 0 fresh =
  (c <- fetch_video flaky None 5 (0 + 0) ;; fetch_record flaky None 5 c) logged.
Proof.
  refine (proj1 (proj2
    (image_failure_ends_the_set_not_the_walk flaky 5 0 flaky_embed
       [] [{| Fullsize := "https://x/b.png" |}] {| Fullsize := "https://x/a.png" |}
       0 0 "bad status: 404 Not Found" fresh fresh
       (snd (downloadFile flaky "https://x/a.png" "image" fresh)) _ _ _ _))).
  - reflexivity.
  - reflexivity.
  - lia.
  - vm_compute. reflexivity.
Defined.

(** One image of a new item is saved and the next one fails: a file was
    retrieved, and nothing is notified. *)
Lemma saved_file_without_notification :
  let r := WatchLikes late 1 "me" 30 "likes" fresh in
  new_likes (trace (snd r)) = ["at://new"]
  /\ saved_count (trace (snd r)) = 1
  /\ notifications (trace (snd r)) = [].
Proof. vm_compute. repeat split; reflexivity. Qed.

Lemma notification_on_late_feed :
  let s1 := snd (downloadPostMedia late (Embed (Post new_post)) announced_new) in
  let s' := snd (watch_post late "likes" new_post ∅ fresh) in
  saved_count (trace s1) = saved_count (trace fresh) + 1
  /\ saved_count (trace s') = saved_count (trace s1)
  /\ notifications (trace s') = notifications (trace fresh) ++ [].
Proof.
  apply (notification_when_error_free late "likes" new_post ∅ fresh
           (snd (downloadPostMedia late (Embed (Post new_post)) announced_new))
           1 (Some "bad status: 404 Not Found")).
  - reflexivity.
  - vm_compute. reflexivity.
Defined.

(** A query string after the file name: the URL's path ends in [.png], the
    file is named after everything from the dot on. *)
Lemma extension_includes_query :
  spec_url_path "https://cdn.example/a.png?size=large" = "/a.png"
  /\ spec_resolve_ext "https://cdn.example/a.png?size=large" "image" = ".png"
  /\ resolve_filename "https://cdn.example/a.png?size=large" "image" =
     "b5986e7e715ec893bdc681e6e256966fcaf82eb621fb472a5c86cb53c562d25b.png?size=large"
  /\ resolve_filename "https://cdn.example/a.png?size=large" "image" <>
     (cacheKey_of "https://cdn.example/a.png?size=large"
      ++ spec_resolve_ext "https://cdn.example/a.png?size=large" "image")%string.
Proof. vm_compute. repeat split; try reflexivity. discriminate. Qed.

(** A URL without a path: the host's last label becomes the extension. *)
Example extension_from_host :
  spec_url_path "https://example.com" = ""
  /\ resolve_ext "https://example.com" "image" = ".com".
Proof. vm_compute. split; reflexivity. Qed.

Lemma extension_of_query_url :
  "https://cdn.example/a.png?size=large" = ("https://cdn.example/a" ++ "." ++ "png?size=large")%string
  /\ plain "png?size=large" = true
  /\ resolve_ext "https://cdn.example/a.png?size=large" "image" = ("." ++ "png?size=large")%string.
Proof.
  split; [reflexivity|]. split; [reflexivity|].
  apply (proj1 (proj2 (extension_from_url_string "https://cdn.example/a.png?size=large" "image"))
           "https://cdn.example/a" "png?size=large"); reflexivity.
Defined.

Lemma reconciliation_without_listing :
  storage lost_listing !! "abc123.png" = Some (File "png")
  /\ fst (NewMediaFetcher_cache calm lost_listing) = None
  /\ (let r := NewMediaFetcher_cache calm lost_listing in
      let loaded := snd (loadCache calm (set_downloadedFiles ∅ lost_listing)) in
      fst (isDownloaded "abc123.png" (snd r)) = true
      /\ (exists d, trace (snd r) = trace lost_listing ++ d /\ quiet d)
      /\ (downloadedFiles (snd r) <> downloadedFiles loaded ->
          exists text, listing (snd r) = Some text /\ Lists text (downloadedFiles (snd r)))
      /\ (listing lost_listing = None ->
          downloadedFiles loaded = ∅
          /\ exists text, listing (snd r) = Some text /\ Lists text (downloadedFiles (snd r)))).
Proof.
  assert (H1 : storage lost_listing !! "abc123.png" = Some (File "png"))
    by (vm_compute; reflexivity).
  assert (H2 : fst (NewMediaFetcher_cache calm lost_listing) = None)
    by (vm_compute; reflexivity).
  split; [exact H1|]. split; [exact H2|].
  apply (self_healing_reconciliation calm lost_listing "abc123.png" "png" H1 H2).
Defined.

Example reconciliation_writes_listing :
  listing (snd (NewMediaFetcher_cache calm lost_listing)) = Some (go "abc123.png\n").
Proof. vm_compute. reflexivity. Qed.

Lemma cache_keeps_recorded_file :
  let s1 := snd (run_ops calm [OpRecord "a.png"] fresh) in
  let s2 := snd (run_ops calm ([OpRecord "a.png"] ++ [OpLoad; OpReconcile; OpRecord "b.png"]) fresh) in
  fst (isDownloaded "a.png" s1) = true /\ fst (isDownloaded "a.png" s2) = true.
Proof.
  assert (H : fst (isDownloaded "a.png" (snd (run_ops calm [OpRecord "a.png"] fresh))) = true)
    by (vm_compute; reflexivity).
  split; [exact H|].
  apply (proj2 (cache_monotonicity calm [OpRecord "a.png"]
                  [OpLoad; OpReconcile; OpRecord "b.png"] fresh "a.png") H).
Defined.

Lemma listing_after_first_record :
  markDownloaded calm "abc123.png" fresh
  = (None, snd (markDownloaded calm "abc123.png" fresh))
  /\ (let s' := snd (markDownloaded calm "abc123.png" fresh) in
      downloadedFiles s' = <["abc123.png" := true]> (downloadedFiles fresh)
      /\ fst (isDownloaded "abc123.png" s') = true
      /\ exists text,
           listing s' = Some text
           /\ Lists text (downloadedFiles s')
           /\ ((forall key, key ∈ dom (downloadedFiles s') -> one_line key = true) ->
               List.NoDup (ScanLines text)
               /\ forall key, List.In key (ScanLines text) <-> key ∈ dom (downloadedFiles s'))).
Proof.
  assert (H : markDownloaded calm "abc123.png" fresh
              = (None, snd (markDownloaded calm "abc123.png" fresh)))
    by (vm_compute; reflexivity).
  split; [exact H|].
  apply (listing_agrees_after_save calm "abc123.png" fresh _ H).
Defined.

Example listing_after_two_records :
  listing (snd (run_ops calm [OpRecord "b.mp4"; OpRecord "a.png"; OpRecord "b.mp4"] fresh))
  = Some (go "a.png\nb.mp4\n").
Proof. vm_compute. reflexivity. Qed.

Lemma no_work_for_negative_limit :
  -1 <= 0
  /\ FetchAndDownload calm 3 "me" 50 (-1) fresh =
     ((Returned None, 0),
      set_trace (trace fresh ++ [Printf "%s" [AStr (go "\033[s")];
                                 Printf (go "\nTotal files downloaded: %d\n") [AInt 0]]) fresh).
Proof.
  split; [lia|]. apply (proj1 (no_budget_no_work calm 3 "me" 50 (-1) fresh ltac:(lia))).
Defined.

(** * Further properties of the engine *)

(** ** What every method keeps *)

Lemma saved_names_app (t d : list Event) :
  saved_names (t ++ d) = saved_names t ++ saved_names d.
Proof. unfold saved_names. apply List.flat_map_app. Qed.

Lemma AllTrue_insert (m : gmap string bool) (k : string) :
  AllTrue m -> AllTrue (<[k := true]> m).
Proof.
  intros Hm key b. destruct (decide (k = key)) as [->|Hne].
  - rewrite lookup_insert_eq. congruence.
  - rewrite lookup_insert_ne by exact Hne. apply Hm.
Qed.

Lemma AllTrue_empty : AllTrue ∅.
Proof. intros key b. rewrite lookup_empty. discriminate. Qed.

Lemma AllTrue_index (m : gmap string bool) (k : string) :
  AllTrue m -> (index m k = true <-> k ∈ dom m).
Proof.
  intros Hm. unfold index. rewrite elem_of_dom. split.
  - destruct (m !! k); [eauto|discriminate].
  - intros [b Hb]. rewrite Hb. simpl. eapply Hm. exact Hb.
Qed.

Lemma Step_refl (s : State) : Step s s.
Proof.
  split; [apply Grows_refl|]. repeat split; auto.
  exists []. rewrite List.app_nil_r. split; [reflexivity|].
  split; [constructor|]. intros f [].
Qed.

Lemma Step_trans (s1 s2 s3 : State) : Step s1 s2 -> Step s2 s3 -> Step s1 s3.
Proof.
  intros (G1 & A1 & S1 & D1 & C1 & d1 & T1 & N1 & F1)
         (G2 & A2 & S2 & D2 & C2 & d2 & T2 & N2 & F2).
  split; [eapply Grows_trans; eassumption|].
  split; [auto|]. split; [etrans; eassumption|].
  split; [congruence|]. split; [congruence|].
  exists (d1 ++ d2). split; [rewrite T2, T1, List.app_assoc; reflexivity|].
  rewrite saved_names_app. split.
  - apply NoDup_ListNoDup, NoDup_app. split; [apply NoDup_ListNoDup; exact N1|].
    split; [|apply NoDup_ListNoDup; exact N2].
    intros f Hf1 Hf2. apply list_elem_of_In in Hf1, Hf2.
    destruct (F1 f Hf1) as [_ Ht]. destruct (F2 f Hf2) as [Hf _]. congruence.
  - intros f Hf. apply List.in_app_or in Hf. destruct Hf as [Hf|Hf].
    + destruct (F1 f Hf) as [H0 H1]. split; [exact H0|]. apply G2. exact H1.
    + destruct (F2 f Hf) as [H0 H1]. split; [|exact H1].
      destruct (index (downloadedFiles s1) f) eqn:E; [|reflexivity].
      apply G1 in E. congruence.
Qed.

(** A change of the trace by events that report no saved file, and of
    the cache file's content, is a step. *)
Lemma Step_quiet_trace (s : State) (d : list Event) (l : option string) :
  saved_names d = [] ->
  Step s (set_listing l (set_trace (trace s ++ d) s)).
Proof.
  intros Hd. split; [apply Grows_refl|]. repeat split; auto. simpl.
  exists d. split; [reflexivity|]. rewrite Hd. split; [constructor|]. intros f [].
Qed.

Section Keeping.

Variable R : State -> State -> Prop.
Hypothesis R_refl : forall s, R s s.
Hypothesis R_trans : forall s1 s2 s3, R s1 s2 -> R s2 s3 -> R s1 s3.

Lemma Keeps_ret {A} (x : A) : Keeps R (ret x).
Proof. intros s. apply R_refl. Qed.

Lemma Keeps_gets {A} (f : State -> A) : Keeps R (gets f).
Proof. intros s. apply R_refl. Qed.

Lemma Keeps_ask {A} (q : list Event -> A) : Keeps R (ask q).
Proof. intros s. apply R_refl. Qed.

Lemma Keeps_bind {A B} (c : M A) (k : A -> M B) :
  Keeps R c -> (forall x, Keeps R (k x)) -> Keeps R (bind c k).
Proof.
  intros Hc Hk s. unfold bind. specialize (Hc s).
  destruct (c s) as [x s1]. simpl in Hc.
  eapply R_trans; [exact Hc|apply Hk].
Qed.

End Keeping.

(** Reading a field of an updated state. *)
Lemma downloadDir_set_downloadedFiles m (s : State) : downloadDir (set_downloadedFiles m s) = downloadDir s.
Proof. reflexivity. Qed.
Lemma cacheFile_set_downloadedFiles m (s : State) : cacheFile (set_downloadedFiles m s) = cacheFile s.
Proof. reflexivity. Qed.
Lemma downloadedFiles_set_downloadedFiles m (s : State) : downloadedFiles (set_downloadedFiles m s) = m.
Proof. reflexivity. Qed.
Lemma listing_set_downloadedFiles m (s : State) : listing (set_downloadedFiles m s) = listing s.
Proof. reflexivity. Qed.
Lemma storage_set_downloadedFiles m (s : State) : storage (set_downloadedFiles m s) = storage s.
Proof. reflexivity. Qed.
Lemma trace_set_downloadedFiles m (s : State) : trace (set_downloadedFiles m s) = trace s.
Proof. reflexivity. Qed.
Lemma downloadDir_set_listing l (s : State) : downloadDir (set_listing l s) = downloadDir s.
Proof. reflexivity. Qed.
Lemma cacheFile_set_listing l (s : State) : cacheFile (set_listing l s) = cacheFile s.
Proof. reflexivity. Qed.
Lemma downloadedFiles_set_listing l (s : State) : downloadedFiles (set_listing l s) = downloadedFiles s.
Proof. reflexivity. Qed.
Lemma listing_set_listing l (s : State) : listing (set_listing l s) = l.
Proof. reflexivity. Qed.
Lemma storage_set_listing l (s : State) : storage (set_listing l s) = storage s.
Proof. reflexivity. Qed.
Lemma trace_set_listing l (s : State) : trace (set_listing l s) = trace s.
Proof. reflexivity. Qed.
Lemma downloadDir_set_storage d (s : State) : downloadDir (set_storage d s) = downloadDir s.
Proof. reflexivity. Qed.
Lemma cacheFile_set_storage d (s : State) : cacheFile (set_storage d s) = cacheFile s.
Proof. reflexivity. Qed.
Lemma downloadedFiles_set_storage d (s : State) : downloadedFiles (set_storage d s) = downloadedFiles s.
Proof. reflexivity. Qed.
Lemma listing_set_storage d (s : State) : listing (set_storage d s) = listing s.
Proof. reflexivity. Qed.
Lemma storage_set_storage d (s : State) : storage (set_storage d s) = d.
Proof. reflexivity. Qed.
Lemma trace_set_storage d (s : State) : trace (set_storage d s) = trace s.
Proof. reflexivity. Qed.
Lemma downloadDir_set_trace t (s : State) : downloadDir (set_trace t s) = downloadDir s.
Proof. reflexivity. Qed.
Lemma cacheFile_set_trace t (s : State) : cacheFile (set_trace t s) = cacheFile s.
Proof. reflexivity. Qed.
Lemma downloadedFiles_set_trace t (s : State) : downloadedFiles (set_trace t s) = downloadedFiles s.
Proof. reflexivity. Qed.
Lemma listing_set_trace t (s : State) : listing (set_trace t s) = listing s.
Proof. reflexivity. Qed.
Lemma storage_set_trace t (s : State) : storage (set_trace t s) = storage s.
Proof. reflexivity. Qed.
Lemma trace_set_trace t (s : State) : trace (set_trace t s) = t.
Proof. reflexivity. Qed.

Create Rewrite HintDb fields.
#[local] Hint Rewrite
  downloadDir_set_downloadedFiles cacheFile_set_downloadedFiles downloadedFiles_set_downloadedFiles
  listing_set_downloadedFiles storage_set_downloadedFiles trace_set_downloadedFiles
  downloadDir_set_listing cacheFile_set_listing downloadedFiles_set_listing
  listing_set_listing storage_set_listing trace_set_listing
  downloadDir_set_storage cacheFile_set_storage downloadedFiles_set_storage
  listing_set_storage storage_set_storage trace_set_storage
  downloadDir_set_trace cacheFile_set_trace downloadedFiles_set_trace
  listing_set_trace storage_set_trace trace_set_trace
  : fields.

#[local] Arguments set_listing : simpl never.
#[local] Arguments Step : simpl never.

(** Close a [Step] goal between [s] and a state spelled out from [s]. *)
Ltac solve_step :=
  unfold Step; autorewrite with fields;
  split; [first [apply Grows_refl | apply Grows_insert]|];
  split; [first [exact (fun H => H) | apply AllTrue_insert]|];
  split; [rewrite ?dom_insert_L; set_solver|];
  split; [reflexivity|]; split; [reflexivity|];
  eexists; split; [rewrite <- ?List.app_assoc; reflexivity|];
  unfold saved_names; simpl;
  split;
  [ repeat constructor; intros []
  | first
      [ intros ? [<-|[]]; split;
        [assumption | apply index_insert; left; reflexivity]
      | intros ? [] ] ].

Section Steps.

Variable env : Env.

(** [saveCache] changes the cache file and adds one event, nothing else. *)
Lemma saveCache_frame (s : State) :
  exists l : option string,
    snd (saveCache env s) =
    set_listing l (set_trace (trace s ++ [OsCreate (cacheFile s)]) s).
Proof.
  unfold saveCache. unfold_m. cbn -[set_listing].
  destruct (env_os_Create env _ _); cbn -[set_listing].
  - exists (listing s). destruct s; reflexivity.
  - destruct (env_write env _ _ _); cbn -[set_listing]; eexists; reflexivity.
Qed.

Lemma markDownloaded_frame (filename : string) (s : State) :
  exists l : option string,
    snd (markDownloaded env filename s) =
    set_listing l
      (set_trace (trace s ++ [OsCreate (cacheFile s)])
         (set_downloadedFiles (<[filename := true]> (downloadedFiles s)) s)).
Proof.
  unfold markDownloaded. unfold_m.
  destruct (saveCache_frame
              (set_downloadedFiles (<[filename := true]> (downloadedFiles s)) s)) as [l Hl].
  exists l. exact Hl.
Qed.

Lemma Keeps_Step_saveCache : Keeps Step (saveCache env).
Proof.
  intros s. destruct (saveCache_frame s) as [l ->].
  apply Step_quiet_trace. reflexivity.
Qed.

Lemma Keeps_Step_emit (e : Event) : saved_name e = [] -> Keeps Step (emit e).
Proof.
  intros He s. unfold emit, modify. simpl.
  replace (set_trace (trace s ++ [e]) s)
    with (set_listing (listing s) (set_trace (trace s ++ [e]) s)) by (destruct s; reflexivity).
  apply Step_quiet_trace. unfold saved_names. simpl. rewrite He. reflexivity.
Qed.

Lemma Keeps_Step_insert (filename : string) :
  Keeps Step (modify (fun s => set_downloadedFiles (<[filename := true]> (downloadedFiles s)) s)).
Proof.
  intros s. unfold modify. simpl.
  split; [apply Grows_insert|]. split; [apply AllTrue_insert|].
  repeat split; auto. simpl.
  exists []. rewrite List.app_nil_r. split; [reflexivity|]. split; [constructor|]. intros f [].
Qed.

Lemma Keeps_Step_store (filename : string) (entry : DirEntry) :
  Keeps Step (modify (fun s => set_storage (<[filename := entry]> (storage s)) s)).
Proof.
  intros s. unfold modify. simpl.
  split; [apply Grows_refl|]. split; [auto|].
  split; [simpl; rewrite dom_insert_L; set_solver|].
  repeat split; auto. simpl.
  exists []. rewrite List.app_nil_r. split; [reflexivity|]. split; [constructor|]. intros f [].
Qed.

Lemma Keeps_Step_set_listing (l : option string) : Keeps Step (modify (set_listing l)).
Proof.
  intros s. unfold modify. simpl.
  replace (set_listing l s) with (set_listing l (set_trace (trace s ++ []) s))
    by (rewrite List.app_nil_r; destruct s; reflexivity).
  apply Step_quiet_trace. reflexivity.
Qed.

Lemma downloadFile_step (url mediaType : string) : Keeps Step (downloadFile env url mediaType).
Proof.
  intros s. destruct (downloadFile env url mediaType s) as [r s'] eqn:H. simpl.
  unfold downloadFile, os_Create_media, io_Copy in H. unfold_m. simpl in H.
  repeat split_run H.
  all: try match goal with
       | E : markDownloaded _ ?f ?s0 = _ |- _ =>
           destruct (markDownloaded_frame f s0) as [l Hl]; rewrite E in Hl; simpl in Hl;
           subst; clear E
       end.
  all: leaf H.
  all: solve_step.
Qed.

Lemma downloadVideo_step (video : EmbedVideo_View) : Keeps Step (downloadVideo env video).
Proof.
  intros s. destruct (downloadVideo env video s) as [r s'] eqn:H. simpl.
  unfold downloadVideo in H. unfold_m. simpl in H.
  repeat split_run H.
  all: try match goal with
       | E : markDownloaded _ ?f ?s0 = _ |- _ =>
           destruct (markDownloaded_frame f s0) as [l Hl]; rewrite E in Hl; simpl in Hl;
           subst; clear E
       end.
  all: leaf H.
  all: first [apply Step_refl | solve_step].
Qed.

End Steps.

Create HintDb steps.

(** Walk through a method built from binds, matches and known methods. *)
Ltac keep_steps :=
  unfold fmt_Printf, fmt_Print, fmt_Println, log_error;
  repeat first
    [ apply (Keeps_ret Step Step_refl)
    | apply (Keeps_gets Step Step_refl)
    | apply (Keeps_ask Step Step_refl)
    | apply Keeps_Step_emit; reflexivity
    | apply Keeps_Step_insert
    | apply Keeps_Step_store
    | apply Keeps_Step_set_listing
    | solve [auto with steps]
    | apply (Keeps_bind Step Step_trans); [|intros]
    | match goal with
      | |- Keeps _ (match ?x with _ => _ end) => destruct x
      end ].

#[local] Hint Resolve Keeps_Step_saveCache downloadFile_step downloadVideo_step : steps.

Section Walks.

Variable env : Env.

Lemma markDownloaded_step (filename : string) : Keeps Step (markDownloaded env filename).
Proof. unfold markDownloaded. keep_steps. Qed.

Lemma loadCache_loop_step (lines : list string) :
  forall count : Z, Keeps Step (loadCache_loop lines count).
Proof.
  induction lines as [|line rest IH]; intros count; simpl; keep_steps.
Qed.

#[local] Hint Resolve markDownloaded_step loadCache_loop_step : steps.

Lemma loadCache_step : Keeps Step (loadCache env).
Proof. unfold loadCache. keep_steps. Qed.

Lemma sync_loop_step (entries : list (string * DirEntry)) :
  forall added : Z, Keeps Step (sync_loop entries added).
Proof.
  induction entries as [|[filename [content|]] rest IH]; intros added; simpl; keep_steps.
Qed.

#[local] Hint Resolve loadCache_step sync_loop_step : steps.

Lemma syncCacheFromDirectory_step : Keeps Step (syncCacheFromDirectory env).
Proof. unfold syncCacheFromDirectory. keep_steps. Qed.

Lemma downloadImages_loop_step (images : list EmbedImages_ViewImage) :
  forall limit count : Z, Keeps Step (downloadImages_loop env images limit count).
Proof.
  induction images as [|img rest IH]; intros limit count; simpl; keep_steps.
Qed.

#[local] Hint Resolve syncCacheFromDirectory_step downloadImages_loop_step : steps.

Lemma downloadImages_step (images : list EmbedImages_ViewImage) (limit : Z) :
  Keeps Step (downloadImages env images limit).
Proof. unfold downloadImages. keep_steps. Qed.

#[local] Hint Resolve downloadImages_step : steps.

Lemma fetch_images_step (view : option EmbedImages_View) (limit count : Z) :
  Keeps Step (fetch_images env view limit count).
Proof. unfold fetch_images. keep_steps. Qed.

Lemma fetch_video_step (view : option EmbedVideo_View) (limit count : Z) :
  Keeps Step (fetch_video env view limit count).
Proof. unfold fetch_video. keep_steps. Qed.

#[local] Hint Resolve fetch_images_step fetch_video_step : steps.

Lemma fetch_record_step (view : option EmbedRecordWithMedia_View) (limit count : Z) :
  Keeps Step (fetch_record env view limit count).
Proof. unfold fetch_record. keep_steps. Qed.

#[local] Hint Resolve fetch_record_step : steps.

Lemma fetch_embed_step (embed : PostView_Embed) (limit count : Z) :
  Keeps Step (fetch_embed env embed limit count).
Proof. unfold fetch_embed. keep_steps. Qed.

Lemma announce_post_step (pp count limit : Z) : Keeps Step (announce_post pp count limit).
Proof. unfold announce_post. keep_steps. Qed.

#[local] Hint Resolve fetch_embed_step announce_post_step : steps.

Lemma fetch_posts_step (posts : list FeedViewPost) :
  forall limit count pp : Z, Keeps Step (fetch_posts env posts limit count pp).
Proof.
  induction posts as [|post rest IH]; intros limit count pp; simpl; keep_steps.
Qed.

Lemma fetch_done_step (count : Z) : Keeps Step (fetch_done count).
Proof. unfold fetch_done. keep_steps. Qed.

#[local] Hint Resolve fetch_posts_step fetch_done_step : steps.

Lemma fetch_pages_step (pages : nat) :
  forall (actor : string) (batchSize limit : Z) (cursor : string) (count pp : Z),
    Keeps Step (fetch_pages env pages actor batchSize limit cursor count pp).
Proof.
  induction pages as [|pages IH]; intros actor batchSize limit cursor count pp; simpl;
    keep_steps.
Qed.

#[local] Hint Resolve fetch_pages_step : steps.

Lemma FetchAndDownload_step (pages : nat) (actor : string) (batchSize limit : Z) :
  Keeps Step (FetchAndDownload env pages actor batchSize limit).
Proof. unfold FetchAndDownload. keep_steps. Qed.

Lemma notify_step (topic message : string) : Keeps Step (notify env topic message).
Proof. unfold notify. keep_steps. Qed.

Lemma post_images_step (view : option EmbedImages_View) (downloaded : Z) :
  Keeps Step (post_images env view downloaded).
Proof. unfold post_images, post_step. keep_steps. Qed.

Lemma post_video_step (view : option EmbedVideo_View) (downloaded : Z) :
  Keeps Step (post_video env view downloaded).
Proof. unfold post_video, post_step. keep_steps. Qed.

#[local] Hint Resolve notify_step post_images_step post_video_step : steps.

Lemma downloadPostMedia_step (embed : option PostView_Embed) :
  Keeps Step (downloadPostMedia env embed).
Proof. unfold downloadPostMedia, and_then. keep_steps. Qed.

#[local] Hint Resolve downloadPostMedia_step : steps.

Lemma watch_post_step (topic : string) (post : FeedViewPost) (seen : gmap string bool) :
  Keeps Step (watch_post env topic post seen).
Proof. unfold watch_post. keep_steps. Qed.

#[local] Hint Resolve watch_post_step : steps.

Lemma watch_posts_step (topic : string) (posts : list FeedViewPost) :
  forall seen : gmap string bool, Keeps Step (watch_posts env topic posts seen).
Proof. induction posts as [|post rest IH]; intros seen; simpl; keep_steps. Qed.

#[local] Hint Resolve watch_posts_step : steps.

Lemma watch_cycle_step (actor : string) (interval : Z) (topic : string)
    (seen : gmap string bool) :
  Keeps Step (watch_cycle env actor interval topic seen).
Proof. unfold watch_cycle. keep_steps. Qed.

#[local] Hint Resolve watch_cycle_step : steps.

Lemma watch_loop_step (cycles : nat) (actor : string) (interval : Z) (topic : string) :
  forall seen : gmap string bool, Keeps Step (watch_loop env cycles actor interval topic seen).
Proof. induction cycles as [|cycles IH]; intros seen; simpl; keep_steps. Qed.

#[local] Hint Resolve watch_loop_step : steps.

Lemma WatchLikes_step (cycles : nat) (actor : string) (interval : Z) (topic : string) :
  Keeps Step (WatchLikes env cycles actor interval topic).
Proof. unfold WatchLikes. keep_steps. Qed.

End Walks.

(** ** No request once the budget is met *)

Lemma quiet_one (e : Event) : network_or_subprocess e = false -> quiet [e].
Proof. intros He. repeat constructor. exact He. Qed.

Lemma Budgeted_refl (limit count : Z) (t : list Event) : Budgeted limit count t t.
Proof.
  exists []. rewrite List.app_nil_r. split; [reflexivity|].
  intros d1 d2 Hd _. symmetry in Hd. apply List.app_eq_nil in Hd. destruct Hd as [_ ->].
  constructor.
Qed.

Lemma Budgeted_snoc (limit count : Z) (t t1 : list Event) (e : Event) :
  Budgeted limit count t t1 ->
  (network_or_subprocess e = true -> count + (saved_count t1 - saved_count t) < limit) ->
  Budgeted limit count t (t1 ++ [e]).
Proof.
  intros (d & -> & Hd) He. exists (d ++ [e]). rewrite List.app_assoc. split; [reflexivity|].
  intros d1 d2 Hsplit Hmet.
  destruct (List.app_eq_app _ _ _ _ Hsplit) as [x [[Hx1 Hx2]|[Hx1 Hx2]]].
  - (* the cut falls inside [d] *)
    subst d. rewrite Hx2. apply quiet_app; [eapply Hd; [reflexivity|exact Hmet]|].
    apply quiet_one. destruct (network_or_subprocess e) eqn:Hnet; [|reflexivity].
    specialize (He eq_refl). rewrite !saved_count_app in He.
    pose proof (saved_count_nonneg x). lia.
  - (* the cut falls at or after [e] *)
    destruct x as [|y x].
    + rewrite List.app_nil_r in Hx1. subst d1. simpl in Hx2. subst d2.
      apply quiet_one. destruct (network_or_subprocess e) eqn:Hnet; [|reflexivity].
      specialize (He eq_refl). rewrite !saved_count_app in He. lia.
    + simpl in Hx2. injection Hx2 as _ Hnil. symmetry in Hnil.
      apply List.app_eq_nil in Hnil. destruct Hnil as [_ ->]. constructor.
Qed.

Lemma Budgeted_trans (limit count : Z) (t t1 t2 : list Event) :
  Budgeted limit count t t1 ->
  Budgeted limit (count + (saved_count t1 - saved_count t)) t1 t2 ->
  Budgeted limit count t t2.
Proof.
  intros (da & -> & Ha) (db & -> & Hb).
  rewrite saved_count_app in Hb.
  exists (da ++ db). rewrite List.app_assoc. split; [reflexivity|].
  intros d1 d2 Hsplit Hmet.
  destruct (List.app_eq_app _ _ _ _ Hsplit) as [x [[Hx1 Hx2]|[Hx1 Hx2]]].
  - subst da. rewrite Hx2. apply quiet_app; [eapply Ha; [reflexivity|exact Hmet]|].
    apply (Hb [] db); [reflexivity|].
    rewrite saved_count_app. pose proof (saved_count_nonneg x).
    change (saved_count []) with 0. lia.
  - subst d1. apply (Hb x d2); [exact Hx2|].
    rewrite saved_count_app in Hmet. lia.
Qed.

Lemma Budgeted_shift (limit count k : Z) (t t' : list Event) :
  Budgeted (limit - k) count t t' -> Budgeted limit (k + count) t t'.
Proof.
  intros (d & -> & Hd). exists d. split; [reflexivity|].
  intros d1 d2 Hsplit Hmet. eapply Hd; [exact Hsplit|lia].
Qed.

(** Peel the events of a spelled-out trace, newest first. *)
Ltac budget_leaf :=
  simpl;
  repeat (apply Budgeted_snoc;
          [| simpl; first
               [ discriminate
               | intros _; rewrite ?saved_count_app, ?saved_count_one; simpl; lia ] ]);
  apply Budgeted_refl.

Section Budget.

Variable env : Env.

Lemma downloadFile_budget (url mediaType : string) (limit count : Z) (s : State) :
  count < limit ->
  Budgeted limit count (trace s) (trace (snd (downloadFile env url mediaType s))).
Proof.
  intros Hlt. destruct (downloadFile env url mediaType s) as [r s'] eqn:H. simpl.
  unfold downloadFile, os_Create_media, io_Copy in H. unfold_m. simpl in H.
  repeat split_run H.
  all: try match goal with
       | E : markDownloaded _ ?f ?s0 = _ |- _ =>
           destruct (markDownloaded_frame env f s0) as [l Hl]; rewrite E in Hl; simpl in Hl;
           subst; clear E
       end.
  all: leaf H.
  all: unfold set_listing; budget_leaf.
Qed.

Lemma downloadVideo_budget (video : EmbedVideo_View) (limit count : Z) (s : State) :
  count < limit ->
  Budgeted limit count (trace s) (trace (snd (downloadVideo env video s))).
Proof.
  intros Hlt. destruct (downloadVideo env video s) as [r s'] eqn:H. simpl.
  unfold downloadVideo in H. unfold_m. simpl in H.
  repeat split_run H.
  all: try match goal with
       | E : markDownloaded _ ?f ?s0 = _ |- _ =>
           destruct (markDownloaded_frame env f s0) as [l Hl]; rewrite E in Hl; simpl in Hl;
           subst; clear E
       end.
  all: leaf H.
  all: unfold set_listing; budget_leaf.
Qed.

Lemma downloadImages_loop_budget (images : list EmbedImages_ViewImage) :
  forall (limit count : Z) (s : State),
    Budgeted limit count (trace s)
      (trace (snd (downloadImages_loop env images limit count s))).
Proof.
  induction images as [|img rest IH]; intros limit count s; simpl.
  - apply Budgeted_refl.
  - destruct (count >=? limit)%Z eqn:Hc; [apply Budgeted_refl|].
    unfold bind.
    pose proof (downloadFile_budget (Fullsize img) "image" limit count s ltac:(lia)) as B.
    destruct (downloadFile env (Fullsize img) "image" s) as [[k e] s1] eqn:E.
    apply downloadFile_run in E. destruct E as [R _]. apply Retrieval_saved in R.
    simpl in B. destruct e as [e|]; [exact B|].
    eapply Budgeted_trans; [exact B|].
    replace (count + (saved_count (trace s1) - saved_count (trace s))) with (count + k) by lia.
    apply IH.
Qed.

Lemma fetch_images_budget (view : option EmbedImages_View) (limit count : Z) (s : State) :
  Budgeted limit count (trace s) (trace (snd (fetch_images env view limit count s))).
Proof.
  unfold fetch_images. destruct view as [v|]; [|apply Budgeted_refl].
  unfold downloadImages. unfold_m.
  pose proof (downloadImages_loop_budget (Images v) (limit - count) 0 s) as B.
  apply Budgeted_shift in B. replace (count + 0) with count in B by lia.
  destruct (downloadImages_loop env (Images v) (limit - count) 0 s) as [[n err] s1].
  simpl in B. destruct err; simpl; [|exact B].
  apply Budgeted_snoc; [exact B|discriminate].
Qed.

Lemma fetch_video_budget (view : option EmbedVideo_View) (limit count : Z) (s : State) :
  Budgeted limit count (trace s) (trace (snd (fetch_video env view limit count s))).
Proof.
  unfold fetch_video. destruct view as [v|]; [|apply Budgeted_refl].
  destruct (count <? limit)%Z eqn:Hlt; [|apply Budgeted_refl].
  unfold_m.
  pose proof (downloadVideo_budget v limit count s ltac:(lia)) as B.
  destruct (downloadVideo env v s) as [[n err] s1].
  simpl in B. destruct err; simpl; [|exact B].
  apply Budgeted_snoc; [exact B|discriminate].
Qed.

(** Chain two parts of the walk: the counter after the first is its
    counter before plus what the first saved. *)
Lemma Budgeted_then (limit count c1 : Z) (s s1 s2 : State) :
  Budgeted limit count (trace s) (trace s1) ->
  saved_count (trace s1) = saved_count (trace s) + (c1 - count) ->
  Budgeted limit c1 (trace s1) (trace s2) ->
  Budgeted limit count (trace s) (trace s2).
Proof.
  intros B1 S B2. eapply Budgeted_trans; [exact B1|].
  replace (count + (saved_count (trace s1) - saved_count (trace s))) with c1 by lia.
  exact B2.
Qed.

Lemma fetch_record_budget (view : option EmbedRecordWithMedia_View)
    (limit count : Z) (s : State) :
  count <= limit ->
  Budgeted limit count (trace s) (trace (snd (fetch_record env view limit count s))).
Proof.
  intros Hle. unfold fetch_record.
  destruct view as [[[media|]]|]; simpl; try apply Budgeted_refl.
  2: destruct (count <? limit)%Z; apply Budgeted_refl.
  destruct (count <? limit)%Z; [|apply Budgeted_refl].
  unfold bind.
  pose proof (fetch_images_budget (Media_EmbedImages_View media) limit count s) as B1.
  destruct (fetch_images env (Media_EmbedImages_View media) limit count s) as [c1 s1] eqn:E1.
  apply fetch_images_run in E1; [|exact Hle]. destruct E1 as [_ S1].
  eapply Budgeted_then; [exact B1|exact S1|]. apply fetch_video_budget.
Qed.

Lemma fetch_embed_budget (embed : PostView_Embed) (limit count : Z) (s : State) :
  count <= limit ->
  Budgeted limit count (trace s) (trace (snd (fetch_embed env embed limit count s))).
Proof.
  intros Hle. unfold fetch_embed, bind.
  pose proof (fetch_images_budget (Embed_EmbedImages_View embed) limit count s) as B1.
  destruct (fetch_images env (Embed_EmbedImages_View embed) limit count s) as [c1 s1] eqn:E1.
  apply fetch_images_run in E1; [|exact Hle]. destruct E1 as [Hc1 S1].
  pose proof (fetch_video_budget (Embed_EmbedVideo_View embed) limit c1 s1) as B2.
  destruct (fetch_video env (Embed_EmbedVideo_View embed) limit c1 s1) as [c2 s2] eqn:E2.
  apply fetch_video_run in E2; [|lia]. destruct E2 as [Hc2 S2].
  eapply Budgeted_then; [exact B1|exact S1|].
  eapply Budgeted_then; [exact B2|exact S2|].
  apply fetch_record_budget. lia.
Qed.

Lemma fetch_posts_budget (posts : list FeedViewPost) :
  forall (limit count pp : Z) (s : State),
    count <= limit ->
    Budgeted limit count (trace s) (trace (snd (fetch_posts env posts limit count pp s))).
Proof.
  induction posts as [|post rest IH]; intros limit count pp s Hle; simpl.
  - apply Budgeted_refl.
  - destruct (count >=? limit)%Z eqn:Hc.
    + unfold_m. budget_leaf.
    + unfold_m. simpl.
      match goal with
      | |- context [set_trace ?t0 ?s0] =>
          assert (B0 : Budgeted limit count (trace s) t0) by budget_leaf
      end.
      destruct (Embed (Post post)) as [embed|].
      * match goal with
        | |- context [fetch_embed env embed limit count ?s0] =>
            pose proof (fetch_embed_budget embed limit count s0 Hle) as B1;
            destruct (fetch_embed env embed limit count s0) as [c1 s1] eqn:E
        end.
        apply fetch_embed_run in E; [|exact Hle]. destruct E as [Hc1 S1].
        simpl in B1, S1.
        eapply Budgeted_trans; [exact B0|].
        rewrite !saved_count_app, !saved_count_one. simpl.
        replace (count + (saved_count (trace s) + 0 + 0 - saved_count (trace s)))
          with count by lia.
        eapply Budgeted_trans; [exact B1|].
        match goal with
        | |- Budgeted _ ?c _ _ => replace c with c1
        end.
        { apply IH. lia. }
        rewrite S1, !saved_count_app, !saved_count_one. simpl. lia.
      * eapply Budgeted_trans; [exact B0|].
        rewrite !saved_count_app, !saved_count_one. simpl.
        replace (count + (saved_count (trace s) + 0 + 0 - saved_count (trace s)))
          with count by lia.
        apply (IH limit count (pp + 1)). exact Hle.
Qed.

Lemma fetch_pages_budget (pages : nat) :
  forall (actor : string) (batchSize limit : Z) (cursor : string) (count pp : Z) (s : State),
    Budgeted limit count (trace s)
      (trace (snd (fetch_pages env pages actor batchSize limit cursor count pp s))).
Proof.
  induction pages as [|pages IH]; intros actor batchSize limit cursor count pp s; simpl.
  - destruct (count <? limit)%Z; unfold fetch_done; unfold_m; budget_leaf.
  - destruct (count <? limit)%Z eqn:Hlt; [|unfold fetch_done; unfold_m; budget_leaf].
    unfold fetch_done. unfold_m. simpl.
    assert (B0 : Budgeted limit count (trace s)
                   (trace s ++ [FeedGetActorLikes actor cursor batchSize])) by budget_leaf.
    destruct (env_GetActorLikes env _ actor cursor batchSize) as [resp|e]; [|exact B0].
    destruct (Feed resp) as [|post rest] eqn:Hfeed; [budget_leaf|].
    match goal with
    | |- context [fetch_posts env ?ps limit count pp ?s0] =>
        pose proof (fetch_posts_budget ps limit count pp s0 ltac:(lia)) as B1;
        destruct (fetch_posts env ps limit count pp s0) as [[[returned c1] pp1] s1] eqn:E
    end.
    apply fetch_posts_run in E; [|lia]. destruct E as [Hc1 S1].
    simpl in B1, S1.
    assert (B : Budgeted limit count (trace s) (trace s1)).
    { eapply Budgeted_trans; [exact B0|].
      rewrite saved_count_app, saved_count_one. simpl.
      replace (count + (saved_count (trace s) + 0 - saved_count (trace s))) with count by lia.
      exact B1. }
    rewrite saved_count_app, saved_count_one in S1. simpl in S1.
    destruct returned; [exact B|].
    destruct (Cursor resp) as [next|]; [|apply Budgeted_snoc; [exact B|discriminate]].
    destruct (String.eqb next ""); [apply Budgeted_snoc; [exact B|discriminate]|].
    eapply Budgeted_trans; [exact B|].
    replace (count + (saved_count (trace s1) - saved_count (trace s))) with c1 by lia.
    apply IH.
Qed.

End Budget.

(** X1. Once the backfill has saved as many new files as its limit allows,
    it makes no further network request and runs no subprocess: whatever
    follows in its trace is printing only. *)
Theorem no_request_after_budget (env : Env) (pages : nat) (actor : string)
    (batchSize limit : Z) (s : State) (before after : list Event) :
  trace (snd (FetchAndDownload env pages actor batchSize limit s))
  = trace s ++ before ++ after ->
  limit <= saved_count before ->
  quiet after.
Proof.
  intros Ht Hmet.
  assert (B : Budgeted limit 0 (trace s)
                (trace (snd (FetchAndDownload env pages actor batchSize limit s)))).
  { unfold FetchAndDownload. unfold_m. simpl.
    match goal with
    | |- context [set_trace (trace s ++ [?e]) s] =>
        apply (Budgeted_trans limit 0 (trace s) (trace s ++ [e]));
        [apply Budgeted_snoc; [apply Budgeted_refl|simpl; discriminate]|]
    end.
    rewrite saved_count_app, saved_count_one. simpl.
    replace (0 + (saved_count (trace s) + 0 - saved_count (trace s))) with 0 by lia.
    match goal with
    | |- context [fetch_pages env pages actor batchSize limit ?cur ?c ?pp ?s0] =>
        apply (fetch_pages_budget env pages actor batchSize limit cur c pp s0)
    end. }
  destruct B as (d & Hd & Hquiet). rewrite Ht in Hd.
  apply List.app_inv_head in Hd. eapply Hquiet; [symmetry; exact Hd|lia].
Qed.

(** ** The whole run: backfill, then watch *)

(** X2. Over a backfill followed by any number of polls, every file name
    reported as saved is reported once, was not in the cache when the run
    began and is in it when the run ends: nothing is retrieved twice, and
    nothing the cache already had is retrieved again. *)
Theorem each_file_saved_once (env : Env) (pages cycles : nat) (actor : string)
    (batchSize limit interval : Z) (ntfyTopic : string) (s : State) :
  let s1 := snd (FetchAndDownload env pages actor batchSize limit s) in
  let s2 := snd (WatchLikes env cycles actor interval ntfyTopic s1) in
  exists d : list Event,
    trace s2 = trace s ++ d
    /\ List.NoDup (saved_names d)
    /\ forall filename,
         List.In filename (saved_names d) ->
         fst (isDownloaded filename s) = false /\ fst (isDownloaded filename s2) = true.
Proof.
  intros s1 s2.
  assert (H : Step s s2).
  { eapply Step_trans; [apply FetchAndDownload_step|apply WatchLikes_step]. }
  destruct H as (_ & _ & _ & _ & _ & H). exact H.
Qed.

(** X3. Whatever the feed and the retrievals do, and whether or not the
    backfill ends on a feed error, a backfill followed by any number of
    polls removes nothing: a cached file name stays cached, the keys of the
    map only grow, no entry of the download directory disappears, and the
    two paths of the fetcher stay what they were. *)
Theorem run_removes_nothing (env : Env) (pages cycles : nat) (actor : string)
    (batchSize limit interval : Z) (ntfyTopic : string) (s : State) :
  let s1 := snd (FetchAndDownload env pages actor batchSize limit s) in
  let s2 := snd (WatchLikes env cycles actor interval ntfyTopic s1) in
  (forall filename, fst (isDownloaded filename s) = true ->
                    fst (isDownloaded filename s1) = true
                    /\ fst (isDownloaded filename s2) = true)
  /\ dom (downloadedFiles s) ⊆ dom (downloadedFiles s1)
  /\ dom (downloadedFiles s1) ⊆ dom (downloadedFiles s2)
  /\ dom (storage s) ⊆ dom (storage s1)
  /\ dom (storage s1) ⊆ dom (storage s2)
  /\ downloadDir s2 = downloadDir s
  /\ cacheFile s2 = cacheFile s.
Proof.
  intros s1 s2.
  destruct (FetchAndDownload_step env pages actor batchSize limit s)
    as ((D1 & I1) & _ & S1 & P1 & C1 & _).
  destruct (WatchLikes_step env cycles actor interval ntfyTopic s1)
    as ((D2 & I2) & _ & S2 & P2 & C2 & _).
  fold s1 in D1, I1, S1, P1, C1. fold s2 in D2, I2, S2, P2, C2.
  split; [intros f Hf; split; [apply I1|apply I2, I1]; exact Hf|].
  repeat split; try assumption; congruence.
Qed.

Lemma NewMediaFetcher_cache_AllTrue (env : Env) (s : State) :
  AllTrue (downloadedFiles (snd (NewMediaFetcher_cache env s))).
Proof.
  unfold NewMediaFetcher_cache. unfold_m. simpl.
  pose proof (loadCache_step env (set_downloadedFiles ∅ s)) as (_ & A1 & _).
  destruct (loadCache env (set_downloadedFiles ∅ s)) as [err1 s1]. simpl in *.
  specialize (A1 AllTrue_empty).
  destruct err1; simpl; [exact A1|].
  pose proof (syncCacheFromDirectory_step env s1) as (_ & A2 & _).
  destruct (syncCacheFromDirectory env s1) as [err2 s2]. simpl in *.
  destruct err2; simpl; apply A2, A1.
Qed.

(** X4. From startup on, through the backfill and any number of polls, the
    keys of the map are exactly the file names for which [isDownloaded]
    answers true: no key ever carries [false]. *)
Theorem cached_means_key (env : Env) (pages cycles : nat) (actor : string)
    (batchSize limit interval : Z) (ntfyTopic : string) (s : State) (filename : string) :
  let s0 := snd (NewMediaFetcher_cache env s) in
  let s1 := snd (FetchAndDownload env pages actor batchSize limit s0) in
  let s2 := snd (WatchLikes env cycles actor interval ntfyTopic s1) in
  (fst (isDownloaded filename s0) = true <-> filename ∈ dom (downloadedFiles s0))
  /\ (fst (isDownloaded filename s1) = true <-> filename ∈ dom (downloadedFiles s1))
  /\ (fst (isDownloaded filename s2) = true <-> filename ∈ dom (downloadedFiles s2)).
Proof.
  intros s0 s1 s2.
  pose proof (NewMediaFetcher_cache_AllTrue env s) as A0. fold s0 in A0.
  destruct (FetchAndDownload_step env pages actor batchSize limit s0) as (_ & A1 & _).
  destruct (WatchLikes_step env cycles actor interval ntfyTopic s1) as (_ & A2 & _).
  fold s1 in A1, A2. fold s2 in A2.
  split; [apply AllTrue_index; exact A0|].
  split; [apply AllTrue_index; auto|].
  apply AllTrue_index; auto.
Qed.

(** ** What a retrieval leaves behind *)

Section Outcomes.

Variable env : Env.

Lemma downloadFile_hit (url mediaType : string) (s : State) :
  index (downloadedFiles s) (resolve_filename url mediaType) = true ->
  downloadFile env url mediaType s =
  ((0, None),
   set_trace (trace s ++ [Printf (go "Cache hit: %s\n")
                            [AStr (resolve_filename url mediaType)]]) s).
Proof.
  intros Hit. unfold downloadFile. unfold_m. simpl. rewrite Hit. reflexivity.
Qed.

(** A [downloadFile] that counts a file has stored the body of a 200
    answer under the resolved name and has the name in the map. *)
Lemma downloadFile_saved (url mediaType : string) (s s' : State) (err : error) :
  downloadFile env url mediaType s = ((1, err), s') ->
  err = None
  /\ index (downloadedFiles s) (resolve_filename url mediaType) = false
  /\ index (downloadedFiles s') (resolve_filename url mediaType) = true
  /\ exists resp : Response,
       env_http_Get env
         ((trace s ++ [Printf (go "Downloading: %s\n") [AStr url]]) ++ [HttpGet url]) url
       = Ok resp
       /\ StatusCode resp = 200
       /\ storage s' !! resolve_filename url mediaType = Some (File (Body resp)).
Proof.
  unfold downloadFile, os_Create_media, io_Copy. unfold_m. simpl. intros H.
  repeat split_run H.
  all: try match goal with
       | E : markDownloaded _ ?f ?s0 = _ |- _ =>
           destruct (markDownloaded_frame env f s0) as [l Hl]; rewrite E in Hl; simpl in Hl;
           subst; clear E
       end.
  all: leaf H.
  all: split; [reflexivity|]; split; [first [assumption|reflexivity]|].
  all: autorewrite with fields.
  all: split; [apply index_insert; left; reflexivity|].
  all: eexists; split; [first [eassumption|reflexivity]|].
  all: split; [apply negb_false_iff, Z.eqb_eq in Heqb0; exact Heqb0|].
  all: apply lookup_insert_eq.
Qed.

Lemma downloadVideo_failed (video : EmbedVideo_View) (s s' : State) (n : Z) (e : string) :
  downloadVideo env video s = ((n, Some e), s') ->
  n = 0
  /\ downloadedFiles s' = downloadedFiles s
  /\ listing s' = listing s
  /\ forall other, other <> (cacheKey_of (Playlist video) ++ ".mp4")%string ->
                   storage s' !! other = storage s !! other.
Proof.
  unfold downloadVideo. unfold_m. simpl. intros H.
  repeat split_run H.
  all: try match goal with
       | E : markDownloaded _ ?f ?s0 = _ |- _ =>
           destruct (markDownloaded_frame env f s0) as [l Hl]; rewrite E in Hl; simpl in Hl;
           subst; clear E
       end.
  all: leaf H.
  all: repeat split; try reflexivity.
  all: intros other Hother; autorewrite with fields;
    rewrite ?lookup_insert_ne by congruence; reflexivity.
Qed.

(** [downloadVideo] fails only past the cache check. *)
Lemma downloadVideo_failed_miss (video : EmbedVideo_View) (s s' : State) (n : Z) (e : string) :
  downloadVideo env video s = ((n, Some e), s') ->
  index (downloadedFiles s) (cacheKey_of (Playlist video) ++ ".mp4")%string = false.
Proof.
  unfold downloadVideo. unfold_m. simpl. intros H.
  destruct (String.eqb (Playlist video) ""); [discriminate H|].
  destruct (index (downloadedFiles s) _) eqn:Hit; [discriminate H|reflexivity].
Qed.

(** After a startup that succeeds, every file of the directory is cached. *)
Lemma startup_caches_files (s : State) (filename content : string) :
  storage s !! filename = Some (File content) ->
  fst (NewMediaFetcher_cache env s) = None ->
  index (downloadedFiles (snd (NewMediaFetcher_cache env s))) filename = true.
Proof.
  intros Hfile Hok. unfold NewMediaFetcher_cache in *. unfold_m. simpl in *.
  pose proof (loadCache_run env (set_downloadedFiles ∅ s)) as (_ & S1 & _).
  destruct (loadCache env (set_downloadedFiles ∅ s)) as [err1 s1]. simpl in *.
  destruct err1 as [e|]; [discriminate Hok|].
  pose proof (syncCacheFromDirectory_run env s1) as (_ & _ & _ & Hsync).
  destruct (syncCacheFromDirectory env s1) as [err2 s2]. simpl in *.
  destruct err2 as [e|]; [discriminate Hok|]. simpl.
  destruct (Hsync eq_refl) as (Hfiles & _).
  apply (Hfiles filename content). rewrite S1. exact Hfile.
Qed.

End Outcomes.

(** X5. A file that [downloadFile] counted as new is on disk with the body
    of the 200 answer and in the in-memory cache, whether or not the cache
    file could be written; from then on, through a backfill and any number
    of polls, [downloadFile] of the same URL is a cache hit that requests
    nothing. *)
Theorem saved_file_is_not_fetched_again (env : Env) (url mediaType : string)
    (s s1 : State) (err : error) (pages cycles : nat) (actor : string)
    (batchSize limit interval : Z) (ntfyTopic : string) :
  downloadFile env url mediaType s = ((1, err), s1) ->
  let filename := resolve_filename url mediaType in
  let hit (t : State) :=
    ((0, None) : Z * error,
     set_trace (trace t ++ [Printf (go "Cache hit: %s\n") [AStr filename]]) t) in
  let s2 := snd (FetchAndDownload env pages actor batchSize limit s1) in
  let s3 := snd (WatchLikes env cycles actor interval ntfyTopic s2) in
  (exists resp : Response,
      env_http_Get env
        ((trace s ++ [Printf (go "Downloading: %s\n") [AStr url]]) ++ [HttpGet url]) url
      = Ok resp
      /\ StatusCode resp = 200
      /\ storage s1 !! filename = Some (File (Body resp)))
  /\ err = None
  /\ fst (isDownloaded filename s) = false
  /\ fst (isDownloaded filename s1) = true
  /\ downloadFile env url mediaType s1 = hit s1
  /\ downloadFile env url mediaType s2 = hit s2
  /\ downloadFile env url mediaType s3 = hit s3.
Proof.
  intros H filename hit s2 s3.
  destruct (downloadFile_saved env _ _ _ _ _ H)
    as (Herr & H0 & H1 & resp & Hget & Hcode & Hfile).
  destruct (FetchAndDownload_step env pages actor batchSize limit s1) as ((_ & I2) & _).
  destruct (WatchLikes_step env cycles actor interval ntfyTopic s2) as ((_ & I3) & _).
  fold s2 in I2, I3. fold s3 in I3.
  split; [exists resp; split; [exact Hget|split; assumption]|].
  split; [exact Herr|]. split; [exact H0|]. split; [exact H1|].
  split; [apply downloadFile_hit; exact H1|].
  split; [apply downloadFile_hit, I2; exact H1|].
  apply downloadFile_hit, I3, I2. exact H1.
Qed.

(** X6. A [downloadFile] that returns an error has counted nothing and has
    left the in-memory cache and the cache file exactly as they were; in
    the download directory it can only have touched the entry of its own
    file name (a file it created and could not complete). *)
Theorem failed_retrieval_leaves_cache (env : Env) (url mediaType : string)
    (s s' : State) (n : Z) (e : string) :
  downloadFile env url mediaType s = ((n, Some e), s') ->
  n = 0
  /\ downloadedFiles s' = downloadedFiles s
  /\ listing s' = listing s
  /\ forall other, other <> resolve_filename url mediaType ->
                   storage s' !! other = storage s !! other.
Proof.
  unfold downloadFile, os_Create_media, io_Copy. unfold_m. simpl. intros H.
  repeat split_run H.
  all: try match goal with
       | E : markDownloaded _ ?f ?s0 = _ |- _ =>
           destruct (markDownloaded_frame env f s0) as [l Hl]; rewrite E in Hl; simpl in Hl;
           subst; clear E
       end.
  all: leaf H.
  all: repeat split; try reflexivity.
  all: intros other Hother; autorewrite with fields;
    rewrite ?lookup_insert_ne by congruence; reflexivity.
Qed.

(** X14. A [downloadVideo] that returns an error (ffmpeg failed) has
    counted nothing and has left the in-memory cache and the cache file
    as they were: whatever ffmpeg wrote stays in the directory under the
    video's file name, uncached, and no other entry is touched. *)
Theorem failed_video_leaves_cache (env : Env) (video : EmbedVideo_View)
    (s s' : State) (n : Z) (e : string) :
  downloadVideo env video s = ((n, Some e), s') ->
  n = 0
  /\ downloadedFiles s' = downloadedFiles s
  /\ listing s' = listing s
  /\ (forall other, other <> (cacheKey_of (Playlist video) ++ ".mp4")%string ->
                    storage s' !! other = storage s !! other)
  /\ fst (isDownloaded (cacheKey_of (Playlist video) ++ ".mp4")%string s') = false.
Proof.
  intros H. destruct (downloadVideo_failed env video s s' n e H) as (Hn & Hm & Hl & Hs).
  split; [exact Hn|]. split; [exact Hm|]. split; [exact Hl|]. split; [exact Hs|].
  simpl. rewrite Hm. eapply downloadVideo_failed_miss. exact H.
Qed.

(** X7. Any file that sits in the download directory under the name a URL
    resolves to, be it complete, truncated by an earlier failed write or
    put there by hand, makes the retriever skip that URL after the next
    successful startup: [downloadFile] is a cache hit and requests
    nothing. *)
Theorem file_in_directory_is_not_fetched (env : Env) (url mediaType content : string)
    (s : State) :
  storage s !! resolve_filename url mediaType = Some (File content) ->
  fst (NewMediaFetcher_cache env s) = None ->
  let s0 := snd (NewMediaFetcher_cache env s) in
  downloadFile env url mediaType s0 =
  ((0, None),
   set_trace (trace s0 ++ [Printf (go "Cache hit: %s\n")
                             [AStr (resolve_filename url mediaType)]]) s0).
Proof.
  intros Hfile Hok s0. apply downloadFile_hit.
  eapply startup_caches_files; eassumption.
Qed.

(** X8. When [markDownloaded] fails to write the cache file, the file name
    is in the in-memory cache all the same, and the next [markDownloaded]
    that succeeds leaves a cache file that lists every key of the map,
    the earlier one included. *)
Theorem failed_save_is_repaired (env : Env) (first second e : string) (s s1 s2 : State) :
  markDownloaded env first s = (Some e, s1) ->
  markDownloaded env second s1 = (None, s2) ->
  fst (isDownloaded first s1) = true
  /\ first ∈ dom (downloadedFiles s2)
  /\ second ∈ dom (downloadedFiles s2)
  /\ exists text, listing s2 = Some text /\ Lists text (downloadedFiles s2).
Proof.
  intros H1 H2.
  pose proof (markDownloaded_trace env _ _ _ _ H1) as (_ & M1 & _).
  pose proof (markDownloaded_trace env _ _ _ _ H2) as (_ & M2 & _).
  split; [simpl; rewrite M1; apply index_insert; left; reflexivity|].
  split; [rewrite M2, M1, !dom_insert_L; set_solver|].
  split; [rewrite M2, dom_insert_L; set_solver|].
  unfold markDownloaded in H2. unfold_m. apply saveCache_ok in H2. simpl in H2.
  rewrite <- M2 in H2. exact H2.
Qed.

(** ** Reading the cache file back *)

Section Loading.

Variable env : Env.

(** The loop adds the trimmed lines that are not empty, and only those. *)
Lemma loadCache_loop_spec (lines : list string) :
  forall (count : Z) (s : State) (key : string),
    index (downloadedFiles (snd (loadCache_loop lines count s))) key = true
    <-> index (downloadedFiles s) key = true
        \/ (key <> "" /\ exists line, List.In line lines /\ TrimSpace line = key).
Proof.
  induction lines as [|line rest IH]; intros count s key; simpl.
  - split; [tauto|]. intros [H|(_ & l & [] & _)]. exact H.
  - destruct (String.eqb (TrimSpace line) "") eqn:Hblank.
    + rewrite IH. apply String.eqb_eq in Hblank. split.
      * intros [H|(Hk & l & Hl & Ht)]; [tauto|]. right. eauto 6.
      * intros [H|(Hk & l & [<-|Hl] & Ht)]; [tauto|congruence|]. right. eauto.
    + unfold_m. simpl. rewrite IH. simpl. rewrite index_insert.
      apply String.eqb_neq in Hblank. split.
      * intros [[->|H]|(Hk & l & Hl & Ht)]; [right|tauto|right]; eauto 6.
      * intros [H|(Hk & l & [<-|Hl] & Ht)]; [tauto|left; left; congruence|]. right. eauto.
Qed.

End Loading.

(** X9. [loadCache] on an existing cache file that can be read returns no
    error and adds to the map exactly the lines of the file with the white
    space around them removed, leaving out the empty ones; nothing that was
    in the map is lost. When the scanner fails after [n] lines, the error
    is returned and only the first [n] lines have been added. *)
Theorem loadCache_reads_trimmed_lines (env : Env) (s : State) (content : string) :
  listing s = Some content ->
  env_os_Open env (trace s ++ [OsOpen (cacheFile s)]) (cacheFile s) = None ->
  let lines := ScanLines content in
  let loaded (upto : list string) (key : string) :=
    index (downloadedFiles s) key = true
    \/ (key <> "" /\ exists line, List.In line upto /\ TrimSpace line = key) in
  let r := loadCache env s in
  match env_scan env (trace s ++ [OsOpen (cacheFile s)]) (cacheFile s) with
  | None =>
      fst r = None
      /\ forall key, fst (isDownloaded key (snd r)) = true <-> loaded lines key
  | Some (n, e) =>
      fst r = Some e
      /\ forall key, fst (isDownloaded key (snd r)) = true <-> loaded (List.firstn n lines) key
  end.
Proof.
  intros Hl Hopen lines loaded r. subst r loaded lines.
  unfold loadCache. unfold_m. simpl. rewrite Hopen, Hl.
  destruct (env_scan env _ _) as [[n e]|]; simpl.
  - match goal with
    | |- context [loadCache_loop ?l ?c ?s0] =>
        pose proof (loadCache_loop_spec l c s0) as Hspec;
        destruct (loadCache_loop l c s0) as [count s1]
    end.
    simpl in *. split; [reflexivity|]. exact Hspec.
  - match goal with
    | |- context [loadCache_loop ?l ?c ?s0] =>
        pose proof (loadCache_loop_spec l c s0) as Hspec;
        destruct (loadCache_loop l c s0) as [count s1]
    end.
    simpl in *. split; [reflexivity|]. exact Hspec.
Qed.

(** X10. A cache file written by a successful [saveCache] and read back by
    [loadCache] into an empty map, as the next run does, gives back exactly
    the keys that were saved, provided every key fits on a line and has
    no white space at its ends. *)
Theorem save_then_load_restores (env env' : Env) (s s1 : State) :
  saveCache env s = (None, s1) ->
  (forall key, key ∈ dom (downloadedFiles s) ->
               one_line key = true /\ TrimSpace key = key /\ key <> "") ->
  let next := set_downloadedFiles ∅ s1 in
  env_os_Open env' (trace next ++ [OsOpen (cacheFile next)]) (cacheFile next) = None ->
  env_scan env' (trace next ++ [OsOpen (cacheFile next)]) (cacheFile next) = None ->
  fst (loadCache env' next) = None
  /\ forall key, fst (isDownloaded key (snd (loadCache env' next))) = true
                 <-> key ∈ dom (downloadedFiles s).
Proof.
  intros Hsave Hclean next Hopen Hscan.
  destruct (saveCache_ok env _ _ Hsave) as (text & Htext & HL).
  assert (Hlines : forall key, List.In key (ScanLines text) <-> key ∈ dom (downloadedFiles s)).
  { apply Lists_lines; [exact HL|]. intros key Hkey. apply Hclean. exact Hkey. }
  subst next. unfold loadCache. unfold_m. simpl in *. rewrite Hopen, Htext.
  autorewrite with fields. rewrite Hscan. simpl.
  match goal with
  | |- context [loadCache_loop ?l ?c ?s0] =>
      pose proof (loadCache_loop_spec l c s0) as Hspec;
      destruct (loadCache_loop l c s0) as [count s2]
  end.
  simpl in *. split; [reflexivity|].
  intros key. rewrite Hspec, index_empty. split.
  - intros [H|(Hne & line & Hin & Htrim)]; [discriminate H|].
    apply Hlines in Hin. destruct (Hclean line Hin) as (_ & Hid & _).
    rewrite Hid in Htrim. subst line. exact Hin.
  - intros Hkey. right. destruct (Hclean key Hkey) as (_ & Hid & Hne).
    split; [exact Hne|]. exists key. split; [apply Hlines; exact Hkey|exact Hid].
Qed.

(** ** File names *)

Lemma no_sep_app (a b : string) : no_sep (a ++ b)%string = no_sep a && no_sep b.
Proof. unfold no_sep. rewrite list_ascii_of_string_app. apply List.forallb_app. Qed.

Lemma hex_digit_no_sep (n : Z) : negb (is_char (hex_digit n) "/") = true.
Proof.
  unfold hex_digit. generalize (Z.to_nat n) as k. intros k.
  do 16 (destruct k as [|k]; [reflexivity|]). destruct k; reflexivity.
Qed.

Lemma hex_no_sep (bs : list Z) : no_sep (hex_EncodeToString bs) = true.
Proof.
  unfold no_sep. induction bs as [|b bs IH]; [reflexivity|].
  simpl. rewrite !hex_digit_no_sep. exact IH.
Qed.

Lemma Ext_scan_shape (back : list ascii) :
  forall suffix : string,
    no_sep suffix = true ->
    let ext := Ext_scan back suffix in
    no_sep ext = true /\ (ext = "" \/ HasPrefix ext "." = true).
Proof.
  induction back as [|c back IH]; intros suffix Hs; simpl.
  - split; [reflexivity|left; reflexivity].
  - destruct (is_char c "/") eqn:Hsep; [split; [reflexivity|left; reflexivity]|].
    destruct (is_char c ".") eqn:Hdot.
    + split.
      * unfold no_sep in *. simpl. rewrite Hsep. exact Hs.
      * right. simpl. rewrite Hdot. destruct suffix; reflexivity.
    + apply IH. unfold no_sep in *. simpl. rewrite Hsep. exact Hs.
Qed.

Lemma resolve_ext_shape (url mediaType : string) :
  no_sep (resolve_ext url mediaType) = true
  /\ HasPrefix (resolve_ext url mediaType) "." = true.
Proof.
  unfold resolve_ext, filepath_Ext.
  destruct (Ext_scan_shape (List.rev (list_ascii_of_string url)) "" eq_refl) as [Hn Hs].
  simpl in Hn, Hs.
  destruct (String.eqb (Ext_scan (List.rev (list_ascii_of_string url)) "") "") eqn:E.
  - destruct (Contains url "m3u8"); [split; reflexivity|].
    destruct (String.eqb mediaType "image"); split; reflexivity.
  - apply String.eqb_neq in E. destruct Hs as [Hs|Hs]; [contradiction|]. split; assumption.
Qed.

(** X11. The file name a URL resolves to is the 64 hexadecimal digits of
    its key followed by an extension that starts with a dot, and it holds
    no path separator, whatever the URL: the file is always an entry of the
    download directory itself. The same holds for a video's file name. *)
Theorem resolved_name_stays_in_directory (url mediaType : string) :
  let filename := resolve_filename url mediaType in
  no_sep filename = true
  /\ no_sep (cacheKey_of url ++ ".mp4")%string = true
  /\ String.length (cacheKey_of url) = 64%nat
  /\ substring 0 64 filename = cacheKey_of url
  /\ HasPrefix (substring 64 (String.length filename) filename) "." = true.
Proof.
  intros filename. subst filename. unfold resolve_filename.
  destruct (resolve_ext_shape url mediaType) as [Hn Hs].
  pose proof (cacheKey_length url) as Hlen.
  split; [rewrite no_sep_app, Hn; unfold cacheKey_of; rewrite hex_no_sep; reflexivity|].
  split; [rewrite no_sep_app; unfold cacheKey_of; rewrite hex_no_sep; reflexivity|].
  split; [exact Hlen|].
  generalize dependent (resolve_ext url mediaType). generalize dependent (cacheKey_of url).
  intros key Hlen ext Hn Hs.
  assert (Hsub : forall (a b : string),
             substring 0 (String.length a) (a ++ b)%string = a
             /\ forall n, substring (String.length a) n (a ++ b)%string = substring 0 n b).
  { induction a as [|c a IH]; intros b.
    - split; [simpl; destruct b; reflexivity|reflexivity].
    - rewrite append_cons. simpl. destruct (IH b) as [H1 H2]. rewrite H1. split; [reflexivity|].
      exact H2. }
  rewrite <- Hlen. destruct (Hsub key ext) as [H1 H2]. split; [exact H1|].
  rewrite H2.
  destruct ext as [|c ext]; [discriminate Hs|].
  simpl in Hs. apply andb_prop in Hs. destruct Hs as [Hc _].
  destruct (String.length (key ++ String c ext)) eqn:Hl.
  - destruct key; discriminate Hl.
  - simpl. rewrite Hc. destruct (substring 0 n ext); reflexivity.
Qed.

(** ** A new item without retrieval errors *)

Section Complete.

Variable env : Env.

(** A retrieval that returns no error leaves its file name cached. *)
Lemma downloadFile_ok (url mediaType : string) (s s' : State) (n : Z) :
  downloadFile env url mediaType s = ((n, None), s') ->
  index (downloadedFiles s') (resolve_filename url mediaType) = true /\ 0 <= n <= 1.
Proof.
  unfold downloadFile, os_Create_media, io_Copy. unfold_m. simpl. intros H.
  repeat split_run H.
  all: try match goal with
       | E : markDownloaded _ ?f ?s0 = _ |- _ =>
           destruct (markDownloaded_frame env f s0) as [l Hl]; rewrite E in Hl; simpl in Hl;
           subst; clear E
       end.
  all: leaf H.
  all: unfold set_listing; simpl; split; [|lia].
  all: first [assumption | apply index_insert; left; reflexivity].
Qed.

Lemma downloadVideo_ok (video : EmbedVideo_View) (s s' : State) (n : Z) :
  downloadVideo env video s = ((n, None), s') ->
  (forall filename, List.In filename (video_filenames (Some video)) ->
                    index (downloadedFiles s') filename = true)
  /\ 0 <= n <= Z.of_nat (List.length (video_filenames (Some video))).
Proof.
  unfold downloadVideo, video_filenames. unfold_m. simpl. intros H.
  repeat split_run H.
  all: try match goal with
       | E : markDownloaded _ ?f ?s0 = _ |- _ =>
           destruct (markDownloaded_frame env f s0) as [l Hl]; rewrite E in Hl; simpl in Hl;
           subst; clear E
       end.
  all: leaf H.
  all: unfold set_listing; simpl; split; [|lia].
  all: first [intros ? [<-|[]] | intros ? []].
  all: first [assumption | apply index_insert; left; reflexivity].
Qed.

(** With room for every image, the loop that meets no error leaves every
    image cached. *)
Lemma downloadImages_loop_ok (images : list EmbedImages_ViewImage) :
  forall (limit c : Z) (s s' : State) (n : Z),
    downloadImages_loop env images limit c s = ((n, None), s') ->
    c + Z.of_nat (List.length images) <= limit ->
    (forall img, List.In img images ->
                 index (downloadedFiles s') (resolve_filename (Fullsize img) "image") = true)
    /\ c <= n <= c + Z.of_nat (List.length images).
Proof.
  induction images as [|img rest IH]; intros limit c s s' n H Hroom; simpl in H.
  - leaf H. split; [intros ? []|simpl; lia].
  - simpl List.length in *. replace (c >=? limit)%Z with false in H by lia.
    unfold bind in H.
    destruct (downloadFile env (Fullsize img) "image" s) as [[k e] s1] eqn:E.
    destruct e as [e|]; [discriminate H|].
    apply downloadFile_ok in E. destruct E as [Hin Hk].
    pose proof (downloadImages_loop_step env rest limit (c + k) s1) as ((_ & I) & _).
    rewrite H in I. simpl in I.
    apply IH in H; [|lia]. destruct H as [Hrest Hn].
    split; [|lia]. intros x [<-|Hx]; [apply I; exact Hin|apply Hrest; exact Hx].
Qed.

Lemma post_images_ok (view : option EmbedImages_View) (c : Z) (s s' : State) (n : Z) :
  post_images env view c s = ((n, None), s') ->
  (forall filename, List.In filename (image_filenames view) ->
                    index (downloadedFiles s') filename = true)
  /\ c <= n <= c + Z.of_nat (List.length (image_filenames view)).
Proof.
  unfold post_images, post_step, downloadImages, image_filenames. unfold_m. intros H.
  destruct view as [v|]; [|leaf H; split; [intros ? []|simpl; lia]].
  destruct (downloadImages_loop env (Images v) _ 0 s) as [[k e] s1] eqn:E.
  leaf H. apply downloadImages_loop_ok in E; [|lia]. destruct E as [Hall Hk].
  rewrite List.length_map. split; [|lia].
  intros f Hf. apply List.in_map_iff in Hf. destruct Hf as (img & <- & Himg).
  apply Hall. exact Himg.
Qed.

Lemma post_video_ok (view : option EmbedVideo_View) (c : Z) (s s' : State) (n : Z) :
  post_video env view c s = ((n, None), s') ->
  (forall filename, List.In filename (video_filenames view) ->
                    index (downloadedFiles s') filename = true)
  /\ c <= n <= c + Z.of_nat (List.length (video_filenames view)).
Proof.
  unfold post_video, post_step. unfold_m. intros H.
  destruct view as [v|]; [|leaf H; split; [intros ? []|simpl; lia]].
  destruct (downloadVideo env v s) as [[k e] s1] eqn:E.
  leaf H. apply downloadVideo_ok in E. destruct E as [Hall Hk].
  split; [exact Hall|lia].
Qed.

End Complete.

(** X12. When [downloadPostMedia] returns no error, every medium the embed
    refers to (its images, its video, and the images and video of its
    record-with-media part) is in the cache afterwards, and the count it
    returns is the number of files it saved, between 0 and the number of
    those media: watch mode puts no cap on the media of one item. *)
Theorem error_free_item_is_fully_cached (env : Env) (embed : PostView_Embed)
    (s s' : State) (n : Z) :
  downloadPostMedia env (Some embed) s = ((n, None), s') ->
  (forall filename, List.In filename (media_filenames embed) ->
                    fst (isDownloaded filename s') = true)
  /\ 0 <= n <= Z.of_nat (List.length (media_filenames embed))
  /\ saved_count (trace s') = saved_count (trace s) + n.
Proof.
  intros H.
  pose proof (downloadPostMedia_run env _ _ _ _ _ H) as R. apply Retrieval_saved in R.
  unfold downloadPostMedia, and_then, media_filenames in *. unfold bind in H.
  destruct (post_images env (Embed_EmbedImages_View embed) 0 s) as [[n1 e1] s1] eqn:E1.
  destruct e1 as [e1|]; [discriminate H|].
  destruct (post_video env (Embed_EmbedVideo_View embed) n1 s1) as [[n2 e2] s2] eqn:E2.
  destruct e2 as [e2|]; [discriminate H|].
  pose proof (post_video_step env (Embed_EmbedVideo_View embed) n1 s1) as ((_ & I2) & _).
  rewrite E2 in I2. simpl in I2.
  apply post_images_ok in E1. destruct E1 as [A1 B1].
  apply post_video_ok in E2. destruct E2 as [A2 B2].
  rewrite !List.length_app.
  destruct (Embed_EmbedRecordWithMedia_View embed) as [[[media|]]|].
  2,3: unfold ret in H; leaf H; simpl; rewrite ?List.app_nil_r;
       (split; [|split; [lia|exact R]]);
       intros f Hf; apply List.in_app_or in Hf; destruct Hf as [Hf|Hf]; auto.
  destruct (post_images env (Media_EmbedImages_View media) n2 s2) as [[n3 e3] s3] eqn:E3.
  destruct e3 as [e3|]; [discriminate H|].
  destruct (post_video env (Media_EmbedVideo_View media) n3 s3) as [[n4 e4] s4] eqn:E4.
  destruct e4 as [e4|]; [discriminate H|].
  pose proof (post_images_step env (Media_EmbedImages_View media) n2 s2) as ((_ & I3) & _).
  rewrite E3 in I3. simpl in I3.
  pose proof (post_video_step env (Media_EmbedVideo_View media) n3 s3) as ((_ & I4) & _).
  rewrite E4 in I4. simpl in I4.
  apply post_images_ok in E3. destruct E3 as [A3 B3].
  apply post_video_ok in E4. destruct E4 as [A4 B4].
  unfold ret in H. leaf H. rewrite !List.length_app.
  split; [|split; [lia|exact R]].
  intros f Hf. simpl.
  apply List.in_app_or in Hf. destruct Hf as [Hf|Hf]; [auto|].
  apply List.in_app_or in Hf. destruct Hf as [Hf|Hf]; [auto|].
  apply List.in_app_or in Hf. destruct Hf as [Hf|Hf]; auto.
Qed.

(** ** Novelty over the whole watcher *)

Lemma novel_spec (posts : list FeedViewPost) :
  forall seen : gmap string bool,
    List.NoDup (uris (novel seen posts))
    /\ forall u, List.In u (uris (novel seen posts))
                 <-> List.In u (uris posts) /\ index seen u = false.
Proof.
  induction posts as [|post rest IH]; intros seen; simpl.
  - split; [constructor|]. intros u. tauto.
  - destruct (index seen (Uri (Post post))) eqn:Hknown.
    + destruct (IH seen) as [Hnd Hin]. split; [exact Hnd|].
      intros u. rewrite Hin. split; [tauto|].
      intros [[<-|H] Hu]; [congruence|tauto].
    + destruct (IH (<[Uri (Post post) := true]> seen)) as [Hnd Hin].
      assert (Hfresh : forall u, index (<[Uri (Post post) := true]> seen) u = false
                                 <-> u <> Uri (Post post) /\ index seen u = false).
      { intros u. pose proof (index_insert seen (Uri (Post post)) u) as Hi.
        destruct (index (<[Uri (Post post) := true]> seen) u);
          destruct (index seen u); intuition congruence. }
      split.
      * simpl. constructor; [|exact Hnd]. rewrite Hin, Hfresh. tauto.
      * intros u. simpl. rewrite Hin, Hfresh.
        destruct (decide (u = Uri (Post post))) as [->|Hne]; [tauto|].
        intuition congruence.
Qed.

Section Polls.

Variable env : Env.

#[local] Hint Resolve downloadPostMedia_step notify_step : steps.

(** The loop body either skips a seen item or marks it and processes it. *)
Lemma watch_post_process (ntfyTopic : string) (post : FeedViewPost)
    (seen : gmap string bool) (s : State) :
  watch_post env ntfyTopic post seen s =
  if index seen (Uri (Post post)) then (seen, s)
  else (<[Uri (Post post) := true]> seen, snd (process_like env ntfyTopic post s)).
Proof.
  unfold watch_post, process_like.
  destruct (index seen (Uri (Post post))); [reflexivity|].
  unfold bind.
  repeat match goal with
         | |- context [match ?x with _ => _ end] =>
             lazymatch x with
             | context [match _ with _ => _ end] => fail
             | _ => destruct x
             end
         end; reflexivity.
Qed.

(** A poll's walk over a page processes exactly the new items, in order. *)
Lemma watch_posts_novel (ntfyTopic : string) (posts : list FeedViewPost) :
  forall (seen : gmap string bool) (s : State),
    snd (watch_posts env ntfyTopic posts seen s)
    = snd (process_likes env ntfyTopic (novel seen posts) s).
Proof.
  induction posts as [|post rest IH]; intros seen s; simpl; [reflexivity|].
  unfold bind. rewrite watch_post_process.
  destruct (index seen (Uri (Post post))); [apply IH|].
  simpl. unfold bind. destruct (process_like env ntfyTopic post s) as [u s1]. simpl.
  apply IH.
Qed.

Lemma watch_posts_seen (ntfyTopic : string) (posts : list FeedViewPost)
    (seen : gmap string bool) :
  (forall u, List.In u (uris posts) -> index seen u = true) ->
  forall s : State, watch_posts env ntfyTopic posts seen s = (seen, s).
Proof.
  induction posts as [|post rest IH]; intros Hall s; simpl; [reflexivity|].
  unfold bind. rewrite watch_post_process.
  rewrite (Hall (Uri (Post post))) by (left; reflexivity).
  apply IH. intros u Hu. apply Hall. right. exact Hu.
Qed.

Lemma process_like_new_likes (ntfyTopic : string) (post : FeedViewPost) (s : State) :
  new_likes (trace (snd (process_like env ntfyTopic post s)))
  = new_likes (trace s) ++ [Uri (Post post)].
Proof.
  pose proof (watch_post_run env ntfyTopic post ∅ s) as H. simpl in H.
  rewrite watch_post_process, index_empty in H. simpl in H. apply H.
Qed.

Lemma process_likes_new_likes (ntfyTopic : string) (posts : list FeedViewPost) :
  forall s : State,
    new_likes (trace (snd (process_likes env ntfyTopic posts s)))
    = new_likes (trace s) ++ uris posts.
Proof.
  induction posts as [|post rest IH]; intros s; simpl.
  - symmetry. apply List.app_nil_r.
  - unfold bind. pose proof (process_like_new_likes ntfyTopic post s) as H.
    destruct (process_like env ntfyTopic post s) as [u s1]. simpl in H.
    rewrite IH, H, <- List.app_assoc. reflexivity.
Qed.

Lemma process_likes_app (ntfyTopic : string) (before after : list FeedViewPost) :
  forall s : State,
    snd (process_likes env ntfyTopic (before ++ after) s)
    = snd (process_likes env ntfyTopic after (snd (process_likes env ntfyTopic before s))).
Proof.
  induction before as [|post rest IH]; intros s; simpl; [reflexivity|].
  unfold bind. destruct (process_like env ntfyTopic post s) as [u s1]. apply IH.
Qed.

Lemma process_like_step (ntfyTopic : string) (post : FeedViewPost) :
  Keeps Step (process_like env ntfyTopic post).
Proof. unfold process_like. keep_steps. Qed.

Lemma process_likes_step (ntfyTopic : string) (posts : list FeedViewPost) :
  Keeps Step (process_likes env ntfyTopic posts).
Proof.
  induction posts as [|post rest IH]; simpl.
  - apply (Keeps_ret Step Step_refl).
  - apply (Keeps_bind Step Step_trans); [apply process_like_step|intros _; exact IH].
Qed.

(** An error-free retrieval of an item's media leaves each of them cached. *)
Lemma downloadPostMedia_caches (embed : PostView_Embed) (s s' : State) (n : Z) :
  downloadPostMedia env (Some embed) s = ((n, None), s') ->
  forall filename, List.In filename (media_filenames embed) ->
                   index (downloadedFiles s') filename = true.
Proof.
  intros H.
  unfold downloadPostMedia, and_then, media_filenames in *. unfold bind in H.
  destruct (post_images env (Embed_EmbedImages_View embed) 0 s) as [[n1 e1] s1] eqn:E1.
  destruct e1 as [e1|]; [discriminate H|].
  destruct (post_video env (Embed_EmbedVideo_View embed) n1 s1) as [[n2 e2] s2] eqn:E2.
  destruct e2 as [e2|]; [discriminate H|].
  pose proof (post_video_step env (Embed_EmbedVideo_View embed) n1 s1) as ((_ & I2) & _).
  rewrite E2 in I2. simpl in I2.
  apply post_images_ok in E1. destruct E1 as [A1 _].
  apply post_video_ok in E2. destruct E2 as [A2 _].
  destruct (Embed_EmbedRecordWithMedia_View embed) as [[[media|]]|].
  2,3: unfold ret in H; leaf H; rewrite ?List.app_nil_r;
       intros f Hf; apply List.in_app_or in Hf; destruct Hf as [Hf|Hf]; auto.
  destruct (post_images env (Media_EmbedImages_View media) n2 s2) as [[n3 e3] s3] eqn:E3.
  destruct e3 as [e3|]; [discriminate H|].
  destruct (post_video env (Media_EmbedVideo_View media) n3 s3) as [[n4 e4] s4] eqn:E4.
  destruct e4 as [e4|]; [discriminate H|].
  pose proof (post_images_step env (Media_EmbedImages_View media) n2 s2) as ((_ & I3) & _).
  rewrite E3 in I3. simpl in I3.
  pose proof (post_video_step env (Media_EmbedVideo_View media) n3 s3) as ((_ & I4) & _).
  rewrite E4 in I4. simpl in I4.
  apply post_images_ok in E3. destruct E3 as [A3 _].
  apply post_video_ok in E4. destruct E4 as [A4 _].
  unfold ret in H. leaf H.
  intros f Hf.
  apply List.in_app_or in Hf. destruct Hf as [Hf|Hf]; [auto|].
  apply List.in_app_or in Hf. destruct Hf as [Hf|Hf]; [auto|].
  apply List.in_app_or in Hf. destruct Hf as [Hf|Hf]; auto.
Qed.

(** Processing a new item retrieves its media right after announcing it. *)
Lemma process_like_caches (ntfyTopic : string) (post : FeedViewPost)
    (embed : PostView_Embed) (t : State) :
  Embed (Post post) = Some embed ->
  snd (fst (downloadPostMedia env (Some embed)
              (set_trace (trace t ++ [Printf (go "New like: %s\n") [AStr (Uri (Post post))]]) t)))
  = None ->
  forall filename, List.In filename (media_filenames embed) ->
                   index (downloadedFiles (snd (process_like env ntfyTopic post t))) filename
                   = true.
Proof.
  intros Hembed Herr f Hf. unfold process_like. rewrite Hembed.
  unfold bind at 1. unfold fmt_Printf at 1. unfold emit, modify. simpl.
  unfold bind at 1.
  destruct (downloadPostMedia env (Some embed) _) as [[n err] s2] eqn:E.
  simpl in Herr. subst err.
  pose proof (downloadPostMedia_caches embed _ _ _ E f Hf) as Hin.
  assert (K : Keeps Step
                (if (n >? 0)%Z
                 then fmt_Printf "Downloaded %d file(s)\n" [AInt n] ;;
                      notify env ntfyTopic
                        (Sprintf "Downloaded %d file(s) from new like" [AInt n])
                 else ret tt)) by keep_steps.
  destruct (K s2) as ((_ & I) & _). apply I. exact Hin.
Qed.

(** After a seeding request that succeeds, the watcher is its poll loop
    started from the seeded set. *)
Lemma WatchLikes_seeded (actor : string) (interval : Z) (ntfyTopic : string)
    (resp0 : GetActorLikes_Output) (s : State) :
  env_GetActorLikes env
    ((trace s ++ [Printf (go "%s\n") [AStr "Loading existing likes..."]])
     ++ [FeedGetActorLikes actor "" 50]) actor "" 50 = Ok resp0 ->
  exists s0 : State,
    new_likes (trace s0) = new_likes (trace s)
    /\ forall cycles : nat,
         WatchLikes env cycles actor interval ntfyTopic s
         = (let (seen, s') :=
              watch_loop env cycles actor interval ntfyTopic (seed_seen (Feed resp0)) s0 in
            ((StillRunning, seen), s')).
Proof.
  intros Hseed. simpl in Hseed. unfold WatchLikes. unfold_m. simpl. rewrite Hseed. simpl.
  eexists. split; [|intros cycles; reflexivity].
  simpl. rewrite !new_likes_app. simpl. rewrite !List.app_nil_r. reflexivity.
Qed.

Lemma watch_loop_add (actor : string) (interval : Z) (ntfyTopic : string) (n k : nat) :
  forall (seen : gmap string bool) (s : State),
    watch_loop env (n + k) actor interval ntfyTopic seen s
    = (let (seen1, s1) := watch_loop env n actor interval ntfyTopic seen s in
       watch_loop env k actor interval ntfyTopic seen1 s1).
Proof.
  induction n as [|n IH]; intros seen s; simpl; [reflexivity|].
  unfold bind. destruct (watch_cycle env actor interval ntfyTopic seen s) as [seen1 s1].
  apply IH.
Qed.

Lemma watch_cycle_polled (actor : string) (interval : Z) (ntfyTopic : string)
    (seen : gmap string bool) (resp : GetActorLikes_Output) (t : State) :
  env_GetActorLikes env (trace (polled actor interval t)) actor "" 50 = Ok resp ->
  watch_cycle env actor interval ntfyTopic seen t
  = watch_posts env ntfyTopic (Feed resp) seen (polled actor interval t).
Proof.
  unfold watch_cycle, polled. unfold_m. simpl. intros H. rewrite H. reflexivity.
Qed.

End Polls.

(** C6. Over [WatchLikes] itself: the seeding request marks exactly the
    items of its page [P0] as seen. The first poll, receiving page [P1],
    finds new exactly the items of [P1] that are not in [P0], each once;
    it announces them in page order, marks them seen, and processes each:
    the state after the poll is the state after announcing, retrieving and
    reporting every new item in turn, so that the media of a new item
    whose retrieval met no error are cached. A second poll that receives
    the same page finds nothing new: it sleeps, asks, and changes nothing
    else. Over any number of polls an item once seen stays seen. *)
Theorem watch_mode_novelty (env : Env) (actor : string) (interval : Z) (ntfyTopic : string)
    (resp0 resp1 resp2 : GetActorLikes_Output) (s : State) :
  let run (cycles : nat) := WatchLikes env cycles actor interval ntfyTopic s in
  let seen (cycles : nat) := snd (fst (run cycles)) in
  let after (cycles : nat) := snd (run cycles) in
  let answer (t : State) :=
    env_GetActorLikes env (trace (polled actor interval t)) actor "" 50 in
  let P0 := Feed resp0 in
  let P1 := Feed resp1 in
  let new := novel (seed_seen P0) P1 in
  env_GetActorLikes env
    ((trace s ++ [Printf (go "%s\n") [AStr "Loading existing likes..."]])
     ++ [FeedGetActorLikes actor "" 50]) actor "" 50 = Ok resp0 ->
  answer (after 0%nat) = Ok resp1 ->
  answer (after 1%nat) = Ok resp2 ->
  Feed resp2 = P1 ->
  (forall u, index (seen 0%nat) u = true <-> List.In u (uris P0))
  /\ List.NoDup (uris new)
  /\ (forall u, List.In u (uris new) <-> List.In u (uris P1) /\ ~ List.In u (uris P0))
  /\ after 1%nat = snd (process_likes env ntfyTopic new (polled actor interval (after 0%nat)))
  /\ new_likes (trace (after 1%nat)) = new_likes (trace s) ++ uris new
  /\ (forall u, index (seen 1%nat) u = true
                <-> List.In u (uris P0) \/ List.In u (uris P1))
  /\ (forall (before rest : list FeedViewPost) (post : FeedViewPost) (embed : PostView_Embed),
        new = before ++ post :: rest ->
        Embed (Post post) = Some embed ->
        let t := snd (process_likes env ntfyTopic before (polled actor interval (after 0%nat))) in
        let announced :=
          set_trace (trace t ++ [Printf (go "New like: %s\n") [AStr (Uri (Post post))]]) t in
        snd (fst (downloadPostMedia env (Some embed) announced)) = None ->
        forall filename, List.In filename (media_filenames embed) ->
                         fst (isDownloaded filename (after 1%nat)) = true)
  /\ run 2%nat = ((StillRunning, seen 1%nat), polled actor interval (after 1%nat))
  /\ (forall (n k : nat) (u : string),
        index (seen n) u = true -> index (seen (n + k)%nat) u = true).
Proof.
  intros run seen after answer P0 P1 new Hseed H1 H2 Hsame.
  destruct (WatchLikes_seeded env actor interval ntfyTopic resp0 s Hseed)
    as (s0 & Hlikes0 & Hrun).
  assert (R0 : run 0%nat = ((StillRunning, seed_seen P0), s0)).
  { unfold run. rewrite Hrun. reflexivity. }
  assert (A0 : after 0%nat = s0) by (unfold after; rewrite R0; reflexivity).
  unfold answer in H1. rewrite A0 in H1.
  assert (R1 : run 1%nat
               = ((StillRunning,
                   fst (watch_posts env ntfyTopic P1 (seed_seen P0) (polled actor interval s0))),
                  snd (watch_posts env ntfyTopic P1 (seed_seen P0) (polled actor interval s0)))).
  { unfold run. rewrite Hrun. simpl. unfold bind, ret.
    rewrite (watch_cycle_polled env actor interval ntfyTopic _ resp1 s0 H1).
    fold P1. destruct (watch_posts env ntfyTopic P1 _ _). reflexivity. }
  pose proof (watch_posts_run env ntfyTopic P1 (seed_seen P0) (polled actor interval s0))
    as [Hseen1 _].
  simpl in Hseen1.
  pose proof (watch_posts_novel env ntfyTopic P1 (seed_seen P0) (polled actor interval s0))
    as Hnovel.
  fold new in Hnovel.
  assert (S1 : seen 1%nat
               = fst (watch_posts env ntfyTopic P1 (seed_seen P0) (polled actor interval s0)))
    by (unfold seen; rewrite R1; reflexivity).
  assert (A1 : after 1%nat = snd (process_likes env ntfyTopic new (polled actor interval s0))).
  { unfold after. rewrite R1. simpl. exact Hnovel. }
  destruct (novel_spec P1 (seed_seen P0)) as [Hnd Hin]. fold new in Hnd, Hin.
  split; [intros u; unfold seen; rewrite R0; apply seed_seen_spec|].
  split; [exact Hnd|].
  split.
  { intros u. rewrite Hin, <- (seed_seen_spec P0 u).
    destruct (index (seed_seen P0) u); intuition congruence. }
  split; [rewrite A0; exact A1|].
  split.
  { rewrite A1, process_likes_new_likes. unfold polled, emit, modify, bind. simpl.
    rewrite !new_likes_app. simpl. rewrite !List.app_nil_r, Hlikes0. reflexivity. }
  split.
  { intros u. rewrite S1, Hseen1, (seed_seen_spec P0 u). tauto. }
  split.
  { intros before rest post embed Hsplit Hembed t announced Herr f Hf.
    subst t announced. rewrite A0 in Herr. simpl. rewrite A1, Hsplit, process_likes_app.
    simpl. unfold bind.
    pose proof (process_like_caches env ntfyTopic post embed _ Hembed Herr f Hf) as Hc.
    destruct (process_like env ntfyTopic post _) as [u s1]. simpl in Hc.
    destruct (process_likes_step env ntfyTopic rest s1) as ((_ & I) & _).
    apply I. exact Hc. }
  split.
  { unfold answer in H2. rewrite A1 in H2.
    unfold run. rewrite Hrun. simpl. unfold bind, ret.
    rewrite (watch_cycle_polled env actor interval ntfyTopic _ resp1 s0 H1).
    fold P0 P1.
    destruct (watch_posts env ntfyTopic P1 (seed_seen P0) (polled actor interval s0))
      as [seen1 s1] eqn:W1.
    simpl in Hnovel, Hseen1, S1. rewrite <- Hnovel in H2.
    rewrite (watch_cycle_polled env actor interval ntfyTopic _ resp2 s1 H2).
    rewrite Hsame. fold P1.
    rewrite watch_posts_seen.
    - rewrite S1. unfold after. rewrite R1. reflexivity.
    - intros u Hu. apply Hseen1. right. exact Hu. }
  intros n k u. unfold seen, run. rewrite !Hrun, watch_loop_add.
  destruct (watch_loop env n actor interval ntfyTopic (seed_seen (Feed resp0)) s0)
    as [seen1 s1].
  simpl. intros Hu.
  pose proof (watch_loop_grows env k actor interval ntfyTopic seen1 s1 u Hu) as G.
  destruct (watch_loop env k actor interval ntfyTopic seen1 s1). exact G.
Qed.

(** Seeded with [a b c], then two polls that both see [b c d], where [d]
    carries an image. *)
Lemma novelty_on_changing_feed :
  let run (cycles : nat) := WatchLikes changing cycles "me" 30 "" fresh in
  new_likes (trace (snd (run 1%nat))) = ["d"]
  /\ fst (isDownloaded (resolve_filename "https://x/d.png" "image") (snd (run 1%nat))) = true
  /\ run 2%nat = ((StillRunning, snd (fst (run 1%nat))), polled "me" 30 (snd (run 1%nat))).
Proof.
  intros run. unfold run. clear run.
  destruct (watch_mode_novelty changing "me" 30 ""
              {| Feed := page0; Cursor := None |}
              {| Feed := page1; Cursor := None |}
              {| Feed := page1; Cursor := None |} fresh)
    as (_ & _ & _ & _ & Hlikes & _ & Hmedia & Hsecond & _).
  - reflexivity.
  - vm_compute. reflexivity.
  - vm_compute. reflexivity.
  - reflexivity.
  - split; [rewrite Hlikes; vm_compute; reflexivity|].
    split; [|exact Hsecond].
    apply (Hmedia [] [] (image_post "d" ["https://x/d.png"])
             {| Embed_EmbedImages_View :=
                  Some {| Images := [{| Fullsize := "https://x/d.png" |}] |};
                Embed_EmbedVideo_View := None;
                Embed_EmbedRecordWithMedia_View := None |}).
    + vm_compute. reflexivity.
    + reflexivity.
    + vm_compute. reflexivity.
    + left. reflexivity.
Defined.

Example novelty_one_then_none :
  new_likes (trace (snd (WatchLikes changing 1 "me" 30 "" fresh))) = ["d"]
  /\ new_likes (trace (snd (WatchLikes changing 2 "me" 30 "" fresh))) = ["d"]
  /\ saved_count (trace (snd (WatchLikes changing 2 "me" 30 "" fresh))) = 1.
Proof. vm_compute. repeat split; reflexivity. Qed.

(** ** Notifications over the whole watch *)

Lemma Watching_refl (topic : string) (s : State) : Watching topic s s.
Proof.
  exists [], []. rewrite !List.app_nil_r. repeat split; auto.
Qed.

Lemma Watching_trans (topic : string) (s1 s2 s3 : State) :
  Watching topic s1 s2 -> Watching topic s2 s3 -> Watching topic s1 s3.
Proof.
  intros (n1 & l1 & N1 & L1 & C1 & E1 & F1) (n2 & l2 & N2 & L2 & C2 & E2 & F2).
  exists (n1 ++ n2), (l1 ++ l2).
  split; [rewrite N2, N1, List.app_assoc; reflexivity|].
  split; [rewrite L2, L1, List.app_assoc; reflexivity|].
  split; [rewrite !List.length_app; lia|].
  split; [intros Ht; rewrite (E1 Ht), (E2 Ht); reflexivity|].
  apply List.Forall_app. split; assumption.
Qed.

(** A change of the trace that notifies nothing and announces nothing. *)
Lemma Watching_silent (topic : string) (s s' : State) :
  notifications (trace s') = notifications (trace s) ->
  new_likes (trace s') = new_likes (trace s) ->
  Watching topic s s'.
Proof.
  intros N L. exists [], []. rewrite !List.app_nil_r. repeat split; auto.
Qed.

Lemma Keeps_Watching_emit (topic : string) (e : Event) :
  is_notification e = false -> new_like e = [] -> Keeps (Watching topic) (emit e).
Proof.
  intros Hn Hl s. unfold emit, modify. simpl. apply Watching_silent; simpl.
  - rewrite notifications_app. unfold notifications at 2. simpl. rewrite Hn.
    apply List.app_nil_r.
  - rewrite new_likes_app. unfold new_likes at 2. simpl. rewrite Hl. apply List.app_nil_r.
Qed.

Section Notifying.

Variable env : Env.

Lemma watch_post_watching (topic : string) (post : FeedViewPost) (seen : gmap string bool) :
  Keeps (Watching topic) (watch_post env topic post seen).
Proof.
  intros s. unfold watch_post, notify.
  destruct (index seen (Uri (Post post))); [apply Watching_refl|].
  unfold_m. simpl.
  match goal with
  | |- context [downloadPostMedia env ?e ?s0] =>
      destruct (downloadPostMedia env e s0) as [[n err] s1] eqn:E
  end.
  apply downloadPostMedia_run in E.
  pose proof (Retrieval_notifications _ _ _ E) as N.
  pose proof (Retrieval_new_likes _ _ _ E) as L.
  simpl in N, L. rewrite notifications_app in N. rewrite new_likes_app in L.
  simpl in N, L. rewrite List.app_nil_r in N.
  assert (Hlike : forall d : list Event,
             notifications d = [] -> new_likes d = [] ->
             Watching topic s (set_trace (trace s1 ++ d) s1)).
  { intros d Hn Hl. exists [], [Uri (Post post)]. simpl.
    rewrite notifications_app, new_likes_app, N, L, Hn, Hl, !List.app_nil_r.
    repeat split; auto. }
  assert (Hnone : Watching topic s s1).
  { replace s1 with (set_trace (trace s1 ++ []) s1)
      by (rewrite List.app_nil_r; destruct s1; reflexivity).
    apply Hlike; reflexivity. }
  destruct err as [e|]; simpl; [apply Hlike; reflexivity|].
  destruct (n >? 0)%Z; simpl; [|exact Hnone].
  destruct (String.eqb_spec topic "") as [Hempty|Htopic]; simpl;
    [apply Hlike; reflexivity|].
  assert (Hpost : forall d : list Event,
             notifications d = [] -> new_likes d = [] ->
             Watching topic s
               (set_trace
                  (((trace s1 ++ [Printf (go "Downloaded %d file(s)\n") [AInt n]]) ++
                    [HttpPost ("https://ntfy.sh/" ++ topic)%string "text/plain"
                       (Sprintf "Downloaded %d file(s) from new like" [AInt n])]) ++ d) s1)).
  { intros d Hn Hl.
    exists [HttpPost ("https://ntfy.sh/" ++ topic)%string "text/plain"
              (Sprintf "Downloaded %d file(s) from new like" [AInt n])],
           [Uri (Post post)]. simpl.
    rewrite !notifications_app, !new_likes_app, N, L, Hn, Hl. simpl.
    rewrite !List.app_nil_r.
    split; [reflexivity|]. split; [reflexivity|]. split; [lia|].
    split; [intros Ht; contradiction|]. repeat constructor. eexists. reflexivity. }
  destruct (env_http_Post env _ _ _) as [e|]; simpl.
  - apply (Hpost [Printf (go "Warning: failed to send notification: %v\n") [AErr e]]);
      reflexivity.
  - specialize (Hpost [] eq_refl eq_refl). rewrite List.app_nil_r in Hpost. exact Hpost.
Qed.

Lemma watch_posts_watching (topic : string) (posts : list FeedViewPost) :
  forall seen : gmap string bool, Keeps (Watching topic) (watch_posts env topic posts seen).
Proof.
  induction posts as [|post rest IH]; intros seen; simpl.
  - apply Keeps_ret, Watching_refl.
  - apply (Keeps_bind _ (Watching_trans topic)); [apply watch_post_watching|].
    intros seen1. apply IH.
Qed.

Lemma watch_cycle_watching (actor : string) (interval : Z) (topic : string)
    (seen : gmap string bool) :
  Keeps (Watching topic) (watch_cycle env actor interval topic seen).
Proof.
  unfold watch_cycle, fmt_Printf.
  apply (Keeps_bind _ (Watching_trans topic)); [apply Keeps_Watching_emit; reflexivity|].
  intros _. apply (Keeps_bind _ (Watching_trans topic));
    [apply Keeps_Watching_emit; reflexivity|].
  intros _. apply (Keeps_bind _ (Watching_trans topic));
    [apply Keeps_ask, Watching_refl|].
  intros [resp|e]; [apply watch_posts_watching|].
  apply (Keeps_bind _ (Watching_trans topic)); [apply Keeps_Watching_emit; reflexivity|].
  intros _. apply Keeps_ret, Watching_refl.
Qed.

Lemma watch_loop_watching (cycles : nat) (actor : string) (interval : Z) (topic : string) :
  forall seen : gmap string bool,
    Keeps (Watching topic) (watch_loop env cycles actor interval topic seen).
Proof.
  induction cycles as [|cycles IH]; intros seen; simpl.
  - apply Keeps_ret, Watching_refl.
  - apply (Keeps_bind _ (Watching_trans topic)); [apply watch_cycle_watching|].
    intros seen1. apply IH.
Qed.

End Notifying.

(** X13. Over the seeding and any number of polls, the watcher sends at
    most one notification per item it announces as new, sends none at all
    when no topic is configured, and posts every notification to the
    address of the configured topic. *)
Theorem at_most_one_notification_per_new_item (env : Env) (cycles : nat) (actor : string)
    (interval : Z) (ntfyTopic : string) (s : State) :
  let s' := snd (WatchLikes env cycles actor interval ntfyTopic s) in
  exists (ns : list Event) (ls : list string),
    notifications (trace s') = notifications (trace s) ++ ns
    /\ new_likes (trace s') = new_likes (trace s) ++ ls
    /\ (List.length ns <= List.length ls)%nat
    /\ (ntfyTopic = "" -> ns = [])
    /\ List.Forall
         (fun e => exists body,
              e = HttpPost ("https://ntfy.sh/" ++ ntfyTopic)%string "text/plain" body) ns.
Proof.
  intros s'. subst s'.
  assert (H : Keeps (Watching ntfyTopic) (WatchLikes env cycles actor interval ntfyTopic)).
  { unfold WatchLikes, fmt_Println, fmt_Printf.
    apply (Keeps_bind _ (Watching_trans ntfyTopic)); [apply Keeps_Watching_emit; reflexivity|].
    intros _. apply (Keeps_bind _ (Watching_trans ntfyTopic));
      [apply Keeps_Watching_emit; reflexivity|].
    intros _. apply (Keeps_bind _ (Watching_trans ntfyTopic));
      [apply Keeps_ask, Watching_refl|].
    intros [resp|e]; [|apply Keeps_ret, Watching_refl].
    apply (Keeps_bind _ (Watching_trans ntfyTopic)); [apply Keeps_Watching_emit; reflexivity|].
    intros _. apply (Keeps_bind _ (Watching_trans ntfyTopic)); [apply watch_loop_watching|].
    intros seen. apply Keeps_ret, Watching_refl. }
  exact (H s).
Qed.

(** ** The backfill fails on feed errors only *)

Lemma fetch_pages_failed_request (env : Env) (pages : nat) :
  forall (actor : string) (batchSize limit : Z) (cursor : string) (count pp : Z)
         (s : State) (e : string),
    let r := fetch_pages env pages actor batchSize limit cursor count pp s in
    fst (fst r) = Returned (Some e) ->
    exists (t : list Event) (asked reason : string),
      trace (snd r) = t ++ [FeedGetActorLikes actor asked batchSize]
      /\ env_GetActorLikes env (t ++ [FeedGetActorLikes actor asked batchSize])
           actor asked batchSize = Err reason
      /\ Some e = Errorf "failed to fetch likes: %w" [AErr reason].
Proof.
  induction pages as [|pages IH]; intros actor batchSize limit cursor count pp s e r;
    subst r; simpl.
  - destruct (count <? limit)%Z; unfold fetch_done; unfold_m; simpl; discriminate.
  - destruct (count <? limit)%Z; [|unfold fetch_done; unfold_m; simpl; discriminate].
    unfold fetch_done. unfold_m. simpl.
    destruct (env_GetActorLikes env _ actor cursor batchSize) as [resp|reason] eqn:E.
    + destruct (Feed resp) as [|post rest] eqn:Hfeed; [simpl; discriminate|].
      match goal with
      | |- context [fetch_posts env ?ps limit count pp ?s0] =>
          destruct (fetch_posts env ps limit count pp s0) as [[[returned c1] pp1] s1]
      end.
      destruct returned; [simpl; discriminate|].
      destruct (Cursor resp) as [next|]; [|simpl; discriminate].
      destruct (String.eqb next ""); [simpl; discriminate|]. apply IH.
    + simpl. intros H. exists (trace s), cursor, reason.
      split; [reflexivity|]. split; [exact E|]. congruence.
Qed.

(** X15. The backfill returns an error only when a feed request failed:
    the request is the last thing it did, and the error is that request's
    error wrapped in "failed to fetch likes". No retrieval error, however
    many, makes the backfill fail. *)
Theorem backfill_fails_only_on_feed_error (env : Env) (pages : nat) (actor : string)
    (batchSize limit : Z) (s : State) (e : string) :
  let r := FetchAndDownload env pages actor batchSize limit s in
  fst (fst r) = Returned (Some e) ->
  exists (t : list Event) (asked reason : string),
    trace (snd r) = t ++ [FeedGetActorLikes actor asked batchSize]
    /\ env_GetActorLikes env (t ++ [FeedGetActorLikes actor asked batchSize])
         actor asked batchSize = Err reason
    /\ Some e = Errorf "failed to fetch likes: %w" [AErr reason].
Proof.
  intros r. subst r. unfold FetchAndDownload. unfold_m. simpl. apply fetch_pages_failed_request.
Qed.

(** ** The pace of the watcher *)

Lemma pacing_app (t d : list Event) : pacing (t ++ d) = pacing t ++ pacing d.
Proof. apply List.filter_app. Qed.

Lemma Unpaced_refl (s : State) : Unpaced s s.
Proof. reflexivity. Qed.

Lemma Unpaced_trans (s1 s2 s3 : State) : Unpaced s1 s2 -> Unpaced s2 s3 -> Unpaced s1 s3.
Proof. unfold Unpaced. congruence. Qed.

Lemma Keeps_Unpaced_emit (e : Event) : is_pace e = false -> Keeps Unpaced (emit e).
Proof.
  intros He s. unfold emit, modify, Unpaced. simpl.
  rewrite pacing_app. unfold pacing at 2. simpl. rewrite He. apply List.app_nil_r.
Qed.

Lemma retrieval_events_no_pace (d : list Event) :
  List.Forall (fun e => retrieval_event e = true) d -> pacing d = [].
Proof.
  induction 1 as [|e d He _ IH]; [reflexivity|].
  unfold pacing. simpl. fold (pacing d). rewrite IH.
  destruct e; try reflexivity; discriminate He.
Qed.

Section Pace.

Variable env : Env.

Lemma downloadPostMedia_unpaced (embed : option PostView_Embed) :
  Keeps Unpaced (downloadPostMedia env embed).
Proof.
  intros s. destruct (downloadPostMedia env embed s) as [[n err] s1] eqn:E.
  apply downloadPostMedia_run in E. destruct E as (d & Ht & F & _).
  unfold Unpaced. simpl. rewrite Ht, pacing_app, (retrieval_events_no_pace d F).
  apply List.app_nil_r.
Qed.

Lemma watch_post_unpaced (topic : string) (post : FeedViewPost) (seen : gmap string bool) :
  Keeps Unpaced (watch_post env topic post seen).
Proof.
  unfold watch_post, notify, log_error, fmt_Printf.
  repeat first
    [ apply (Keeps_ret Unpaced Unpaced_refl)
    | apply (Keeps_ask Unpaced Unpaced_refl)
    | apply Keeps_Unpaced_emit; reflexivity
    | apply downloadPostMedia_unpaced
    | apply (Keeps_bind Unpaced Unpaced_trans); [|intros]
    | match goal with
      | |- Keeps _ (match ?x with _ => _ end) => destruct x
      | |- Keeps _ (if ?x then _ else _) => destruct x
      end ].
Qed.

Lemma watch_posts_unpaced (topic : string) (posts : list FeedViewPost) :
  forall seen : gmap string bool, Keeps Unpaced (watch_posts env topic posts seen).
Proof.
  induction posts as [|post rest IH]; intros seen; simpl.
  - apply (Keeps_ret Unpaced Unpaced_refl).
  - apply (Keeps_bind Unpaced Unpaced_trans); [apply watch_post_unpaced|].
    intros seen1. apply IH.
Qed.

Lemma watch_cycle_pacing (actor : string) (interval : Z) (topic : string)
    (seen : gmap string bool) (s : State) :
  pacing (trace (snd (watch_cycle env actor interval topic seen s)))
  = pacing (trace s) ++ polls 1 actor interval.
Proof.
  unfold watch_cycle. unfold_m. simpl.
  destruct (env_GetActorLikes env _ actor "" 50) as [resp|e]; simpl.
  - match goal with
    | |- context [watch_posts env topic ?ps seen ?s0] =>
        rewrite (watch_posts_unpaced topic ps seen s0)
    end.
    simpl. rewrite !pacing_app. rewrite <- List.app_assoc. reflexivity.
  - rewrite !pacing_app. rewrite <- !List.app_assoc. reflexivity.
Qed.

Lemma watch_loop_pacing (cycles : nat) (actor : string) (interval : Z) (topic : string) :
  forall (seen : gmap string bool) (s : State),
    pacing (trace (snd (watch_loop env cycles actor interval topic seen s)))
    = pacing (trace s) ++ polls cycles actor interval.
Proof.
  induction cycles as [|cycles IH]; intros seen s; simpl.
  - symmetry. apply List.app_nil_r.
  - unfold bind.
    pose proof (watch_cycle_pacing actor interval topic seen s) as C.
    destruct (watch_cycle env actor interval topic seen s) as [seen1 s1].
    simpl in C. rewrite IH, C. rewrite <- List.app_assoc. reflexivity.
Qed.

End Pace.

(** X16. Watch mode ends only when its first feed request fails, with
    that error wrapped. Otherwise it is still running after any number of
    polls, whatever errors the polls and the retrievals met, and its sleeps
    and feed requests alternate: one request to seed, then for every poll
    one sleep of the interval followed by one request for the newest 50
    likes, never for a later page. *)
Theorem watch_keeps_polling (env : Env) (cycles : nat) (actor : string)
    (interval : Z) (ntfyTopic : string) (s : State) :
  let r := WatchLikes env cycles actor interval ntfyTopic s in
  let seed := FeedGetActorLikes actor "" 50 in
  match env_GetActorLikes env
          ((trace s ++ [Printf (go "%s\n") [AStr "Loading existing likes..."]]) ++ [seed])
          actor "" 50 with
  | Ok _ =>
      fst (fst r) = StillRunning
      /\ pacing (trace (snd r)) = pacing (trace s) ++ seed :: polls cycles actor interval
  | Err e =>
      fst (fst r) = Returned (Errorf "failed to fetch initial likes: %w" [AErr e])
      /\ pacing (trace (snd r)) = pacing (trace s) ++ [seed]
  end.
Proof.
  intros r seed. subst r seed. unfold WatchLikes. unfold_m. simpl.
  destruct (env_GetActorLikes env _ actor "" 50) as [resp|e]; simpl.
  - split; [|].
    + match goal with
      | |- context [watch_loop env cycles actor interval ntfyTopic ?seen ?s0] =>
          destruct (watch_loop env cycles actor interval ntfyTopic seen s0); reflexivity
      end.
    + match goal with
      | |- context [watch_loop env cycles actor interval ntfyTopic ?seen ?s0] =>
          pose proof (watch_loop_pacing env cycles actor interval ntfyTopic seen s0) as L;
          destruct (watch_loop env cycles actor interval ntfyTopic seen s0) as [seen1 s1]
      end.
      simpl in *. rewrite L, !pacing_app. rewrite <- !List.app_assoc. reflexivity.
  - split; [reflexivity|]. rewrite !pacing_app. rewrite <- List.app_assoc. reflexivity.
Qed.

(** ** What the directory scan adds *)

Section Scan.

Variable env : Env.

Lemma sync_loop_spec (entries : list (string * DirEntry)) :
  forall (added : Z) (s : State) (key : string),
    index (downloadedFiles (snd (sync_loop entries added s))) key = true
    <-> index (downloadedFiles s) key = true
        \/ exists content, List.In (key, File content) entries.
Proof.
  induction entries as [|[filename [content|]] rest IH]; intros added s key; simpl.
  - split; [tauto|]. intros [H|(c & [])]. exact H.
  - unfold_m. simpl.
    destruct (index (downloadedFiles s) filename) eqn:Hknown; simpl.
    + rewrite IH. split.
      * intros [H|(c & Hin)]; [tauto|]. right. exists c. right. exact Hin.
      * intros [H|(c & [Heq|Hin])]; [tauto| |right; eauto].
        inversion Heq; subst. left. exact Hknown.
    + rewrite IH. simpl. rewrite index_insert. split.
      * intros [[->|H]|(c & Hin)]; [right; exists content; left; reflexivity|tauto|].
        right. exists c. right. exact Hin.
      * intros [H|(c & [Heq|Hin])]; [tauto| |right; eauto].
        inversion Heq; subst. left. left. reflexivity.
  - rewrite IH. split.
    + intros [H|(c & Hin)]; [tauto|]. right. exists c. right. exact Hin.
    + intros [H|(c & [Heq|Hin])]; [tauto|discriminate Heq|right; eauto].
Qed.

Lemma sync_loop_known (entries : list (string * DirEntry)) :
  forall (added : Z) (s : State),
    (forall filename content,
        List.In (filename, File content) entries ->
        index (downloadedFiles s) filename = true) ->
    sync_loop entries added s = (added, s).
Proof.
  induction entries as [|[filename [content|]] rest IH]; intros added s Hall; simpl.
  - reflexivity.
  - unfold_m. simpl. rewrite (Hall filename content) by (left; reflexivity). simpl.
    apply IH. intros f c Hin. apply (Hall f c). right. exact Hin.
  - apply IH. intros f c Hin. apply (Hall f c). right. exact Hin.
Qed.

End Scan.

(** X17. When the directory can be read, [syncCacheFromDirectory] adds to
    the cache exactly the names of the regular files of the download
    directory: afterwards a name is cached if and only if it was cached
    before or is a file there. The name of a subdirectory is not added,
    and this holds whether or not the cache file could be written. *)
Theorem sync_adds_exactly_the_files (env : Env) (s : State) (key : string) :
  env_ReadDir env (trace s ++ [OsReadDir (downloadDir s)]) (downloadDir s) = None ->
  fst (isDownloaded key (snd (syncCacheFromDirectory env s))) = true
  <-> fst (isDownloaded key s) = true
      \/ exists content, storage s !! key = Some (File content).
Proof.
  intros Hread. unfold syncCacheFromDirectory. unfold_m. simpl. rewrite Hread. simpl.
  match goal with
  | |- context [sync_loop ?l ?c ?s0] =>
      pose proof (sync_loop_spec l c s0 key) as Hspec;
      destruct (sync_loop l c s0) as [added s1]
  end.
  simpl in Hspec.
  assert (Hfiles : (exists content, List.In (key, File content) (map_to_list (storage s)))
                   <-> exists content, storage s !! key = Some (File content)).
  { split; intros (c & Hc); exists c.
    - apply elem_of_map_to_list, list_elem_of_In. exact Hc.
    - apply list_elem_of_In, elem_of_map_to_list. exact Hc. }
  rewrite <- Hfiles, <- Hspec.
  destruct (0 <? added)%Z; simpl; [|reflexivity].
  destruct (saveCache env _) as [err s2] eqn:Hsave.
  apply saveCache_trace in Hsave. destruct Hsave as (_ & Hm & _). simpl in Hm.
  destruct err; simpl; rewrite Hm; reflexivity.
Qed.

(** X18. When every regular file of the download directory is already
    cached, [syncCacheFromDirectory] only reads the directory: it changes
    neither the map nor the cache file nor the directory, prints nothing,
    and returns no error if the directory could be read. *)
Theorem sync_in_sync_is_read_only (env : Env) (s : State) :
  (forall filename content,
      storage s !! filename = Some (File content) ->
      fst (isDownloaded filename s) = true) ->
  let r := syncCacheFromDirectory env s in
  snd r = set_trace (trace s ++ [OsReadDir (downloadDir s)]) s
  /\ (env_ReadDir env (trace s ++ [OsReadDir (downloadDir s)]) (downloadDir s) = None ->
      fst r = None).
Proof.
  intros Hall r. subst r. unfold syncCacheFromDirectory. unfold_m. simpl.
  destruct (env_ReadDir env _ _) as [e|]; simpl; [split; [reflexivity|discriminate]|].
  rewrite sync_loop_known; [simpl; split; reflexivity|].
  intros f c Hin. simpl. apply (Hall f c).
  apply elem_of_map_to_list, list_elem_of_In. exact Hin.
Qed.

(** ** The further properties on concrete runs *)

Lemma no_request_after_second_file :
  let t := trace (snd (FetchAndDownload calm 3 "me" 50 2 fresh)) in
  2 <= saved_count (List.firstn 15 t) /\ quiet (List.skipn 15 t).
Proof.
  intros t.
  assert (H : 2 <= saved_count (List.firstn 15 t)) by (apply Z.leb_le; vm_compute; reflexivity).
  split; [exact H|].
  apply (no_request_after_budget calm 3 "me" 50 2 fresh (List.firstn 15 t) (List.skipn 15 t));
    [|exact H].
  vm_compute. reflexivity.
Defined.

Lemma saved_image_is_a_hit_later :
  let s1 := snd (downloadFile calm "https://x/a.png" "image" fresh) in
  let s2 := snd (FetchAndDownload calm 3 "me" 50 3 s1) in
  let s3 := snd (WatchLikes calm 2 "me" 1800 "" s2) in
  downloadFile calm "https://x/a.png" "image" fresh = ((1, None), s1)
  /\ storage s1 !! resolve_filename "https://x/a.png" "image" = Some (File "img")
  /\ fst (downloadFile calm "https://x/a.png" "image" s3) = (0, None).
Proof.
  intros s1 s2 s3.
  assert (H : downloadFile calm "https://x/a.png" "image" fresh = ((1, None), s1))
    by (vm_compute; reflexivity).
  split; [exact H|].
  destruct (saved_file_is_not_fetched_again calm "https://x/a.png" "image" fresh s1 None
              3 2 "me" 50 3 1800 "" H)
    as ((resp & Hget & _ & Hfile) & _ & _ & _ & _ & _ & Hhit).
  split; [|exact (f_equal fst Hhit)].
  injection Hget as <-. exact Hfile.
Defined.

Lemma not_found_leaves_cache :
  let s' := snd (downloadFile flaky "https://x/a.png" "image" fresh) in
  downloadFile flaky "https://x/a.png" "image" fresh
  = ((0, Some "bad status: 404 Not Found"), s')
  /\ downloadedFiles s' = downloadedFiles fresh
  /\ listing s' = listing fresh.
Proof.
  intros s'.
  assert (H : downloadFile flaky "https://x/a.png" "image" fresh
              = ((0, Some "bad status: 404 Not Found"), s'))
    by (vm_compute; reflexivity).
  split; [exact H|].
  destruct (failed_retrieval_leaves_cache flaky _ _ _ _ _ _ H) as (_ & Hm & Hl & _).
  split; [exact Hm|exact Hl].
Defined.

Lemma broken_ffmpeg_leaves_cache :
  let s' := snd (downloadVideo broken_ffmpeg clip fresh) in
  downloadVideo broken_ffmpeg clip fresh = ((0, Some "ffmpeg failed: exit status 1"), s')
  /\ fst (isDownloaded (cacheKey_of (Playlist clip) ++ ".mp4")%string s') = false.
Proof.
  intros s'.
  assert (H : downloadVideo broken_ffmpeg clip fresh
              = ((0, Some "ffmpeg failed: exit status 1"), s'))
    by (vm_compute; reflexivity).
  split; [exact H|].
  exact (proj2 (proj2 (proj2 (proj2 (failed_video_leaves_cache broken_ffmpeg _ _ _ _ _ H))))).
Defined.

Lemma leftover_file_is_not_fetched :
  storage leftover !! resolve_filename "https://x/a.png" "image" = Some (File "PN")
  /\ fst (NewMediaFetcher_cache calm leftover) = None
  /\ fst (downloadFile calm "https://x/a.png" "image" (snd (NewMediaFetcher_cache calm leftover)))
     = (0, None).
Proof.
  assert (H1 : storage leftover !! resolve_filename "https://x/a.png" "image"
               = Some (File "PN")) by (vm_compute; reflexivity).
  assert (H2 : fst (NewMediaFetcher_cache calm leftover) = None) by (vm_compute; reflexivity).
  split; [exact H1|]. split; [exact H2|].
  exact (f_equal fst
           (file_in_directory_is_not_fetched calm "https://x/a.png" "image" "PN" leftover H1 H2)).
Defined.

Lemma full_disk_then_repaired :
  let s1 := snd (markDownloaded full_once "abc123.png" fresh) in
  let s2 := snd (markDownloaded full_once "clip.mp4" s1) in
  markDownloaded full_once "abc123.png" fresh = (Some "no space left on device", s1)
  /\ markDownloaded full_once "clip.mp4" s1 = (None, s2)
  /\ exists text, listing s2 = Some text /\ Lists text (downloadedFiles s2).
Proof.
  intros s1 s2.
  assert (H1 : markDownloaded full_once "abc123.png" fresh
               = (Some "no space left on device", s1)) by (vm_compute; reflexivity).
  assert (H2 : markDownloaded full_once "clip.mp4" s1 = (None, s2))
    by (vm_compute; reflexivity).
  split; [exact H1|]. split; [exact H2|].
  exact (proj2 (proj2 (proj2
           (failed_save_is_repaired full_once "abc123.png" "clip.mp4" _ fresh s1 s2 H1 H2)))).
Defined.

Lemma listed_cache_is_read :
  listing listed = Some (go "  abc123.png \n\nclip.mp4\n")
  /\ fst (loadCache calm listed) = None
  /\ fst (isDownloaded "abc123.png" (snd (loadCache calm listed))) = true.
Proof.
  split; [reflexivity|].
  pose proof (loadCache_reads_trimmed_lines calm listed (go "  abc123.png \n\nclip.mp4\n")
                eq_refl eq_refl) as [H1 H2].
  split; [exact H1|].
  apply H2. right. split; [discriminate|].
  exists "  abc123.png ". split; [left; reflexivity|reflexivity].
Defined.

Lemma one_cached_round_trip :
  let s1 := snd (saveCache calm one_cached) in
  saveCache calm one_cached = (None, s1)
  /\ fst (loadCache calm (set_downloadedFiles ∅ s1)) = None
  /\ (fst (isDownloaded "abc123.png" (snd (loadCache calm (set_downloadedFiles ∅ s1)))) = true
      <-> "abc123.png" ∈ dom (downloadedFiles one_cached)).
Proof.
  intros s1.
  assert (Hsave : saveCache calm one_cached = (None, s1)) by (vm_compute; reflexivity).
  assert (Hclean : forall key, key ∈ dom (downloadedFiles one_cached) ->
                               one_line key = true /\ TrimSpace key = key /\ key <> "").
  { intros key Hkey.
    assert (Hk : key = "abc123.png").
    { unfold one_cached in Hkey. simpl in Hkey.
      rewrite dom_insert_L, dom_empty_L in Hkey.
      apply elem_of_union in Hkey. destruct Hkey as [Hkey|Hkey].
      - apply elem_of_singleton in Hkey. exact Hkey.
      - apply elem_of_empty in Hkey. destruct Hkey. }
    subst key. split; [reflexivity|]. split; [reflexivity|discriminate]. }
  split; [exact Hsave|].
  destruct (save_then_load_restores calm calm one_cached s1 Hsave Hclean eq_refl eq_refl)
    as [H1 H2].
  split; [exact H1|apply H2].
Defined.

Lemma both_images_cached :
  let s' := snd (downloadPostMedia calm (Some flaky_embed) fresh) in
  downloadPostMedia calm (Some flaky_embed) fresh = ((2, None), s')
  /\ fst (isDownloaded (resolve_filename "https://x/b.png" "image") s') = true
  /\ saved_count (trace s') = saved_count (trace fresh) + 2.
Proof.
  intros s'.
  assert (H : downloadPostMedia calm (Some flaky_embed) fresh = ((2, None), s'))
    by (vm_compute; reflexivity).
  split; [exact H|].
  destruct (error_free_item_is_fully_cached calm flaky_embed fresh s' 2 H) as (Hall & _ & Hn).
  split; [|exact Hn].
  apply Hall. right. left. reflexivity.
Defined.

Lemma offline_backfill_fails_on_request :
  fst (fst (FetchAndDownload offline 3 "me" 50 3 fresh))
  = Returned (Some "failed to fetch likes: timeout")
  /\ exists (t : list Event) (asked reason : string),
       trace (snd (FetchAndDownload offline 3 "me" 50 3 fresh))
       = t ++ [FeedGetActorLikes "me" asked 50]
       /\ env_GetActorLikes offline (t ++ [FeedGetActorLikes "me" asked 50]) "me" asked 50
          = Err reason
       /\ Some "failed to fetch likes: timeout"
          = Errorf "failed to fetch likes: %w" [AErr reason].
Proof.
  assert (H : fst (fst (FetchAndDownload offline 3 "me" 50 3 fresh))
              = Returned (Some "failed to fetch likes: timeout"))
    by (vm_compute; reflexivity).
  split; [exact H|].
  exact (backfill_fails_only_on_feed_error offline 3 "me" 50 3 fresh _ H).
Defined.

Lemma scan_of_lost_listing :
  env_ReadDir calm (trace lost_listing ++ [OsReadDir (downloadDir lost_listing)])
    (downloadDir lost_listing) = None
  /\ fst (isDownloaded "abc123.png" (snd (syncCacheFromDirectory calm lost_listing))) = true
  /\ (fst (isDownloaded "thumbs" (snd (syncCacheFromDirectory calm lost_listing))) = true ->
      exists content, storage lost_listing !! "thumbs" = Some (File content)).
Proof.
  split; [reflexivity|]. split.
  - apply (sync_adds_exactly_the_files calm lost_listing "abc123.png" eq_refl).
    right. exists "png". vm_compute. reflexivity.
  - intros H. apply (sync_adds_exactly_the_files calm lost_listing "thumbs" eq_refl) in H.
    destruct H as [H|H]; [discriminate H|exact H].
Defined.

Lemma scan_when_in_sync :
  (forall filename content,
      storage in_sync !! filename = Some (File content) ->
      fst (isDownloaded filename in_sync) = true)
  /\ syncCacheFromDirectory calm in_sync
     = (None, set_trace (trace in_sync ++ [OsReadDir (downloadDir in_sync)]) in_sync).
Proof.
  assert (Hall : forall filename content,
             storage in_sync !! filename = Some (File content) ->
             fst (isDownloaded filename in_sync) = true).
  { intros f c H. unfold in_sync in H. simpl in H.
    destruct (decide (f = "abc123.png")) as [->|N1]; [reflexivity|].
    rewrite lookup_insert_ne in H by congruence.
    destruct (decide (f = "thumbs")) as [->|N2];
      [rewrite lookup_insert_eq in H; discriminate H|].
    rewrite lookup_insert_ne, lookup_empty in H by congruence. discriminate H. }
  split; [exact Hall|].
  destruct (sync_in_sync_is_read_only calm in_sync Hall) as [H1 H2].
  specialize (H2 eq_refl).
  destruct (syncCacheFromDirectory calm in_sync) as [err s']. simpl in H1, H2.
  rewrite H1, H2. reflexivity.
Defined.
